(** * smart-crawler: a shallow embedding of the analysis engine and of the
      graph layout builder, with the properties of its specification.

    Sources embedded here:
    - [crawler/crawler_engine.py], class [SmartCrawler];
    - [crawler/views.py], function [api_graph_data];
    - [crawler/models.py], class [CrawlJob], and [crawler/tasks.py],
      function [crawl_url].

    Python values are modelled as follows.  A [str] is a [string]; an [int]
    is a [Z] (status codes, scores) or a [nat] (counters and lengths, which
    are never negative); [None] is [None]; a [float] is either a primitive
    binary64 [float] (where the code does float arithmetic) or, where the
    code only compares it with exactly representable constants, the rational
    [Q] it denotes.  The libraries the code calls (requests, BeautifulSoup,
    urllib) are parameters of the sections below. *)

From Stdlib Require Import ZArith List String Ascii Bool Lia QArith.
From Stdlib Require Import Floats Uint63.
From stdpp Require Import base list strings gmap pretty.

Local Open Scope string_scope.
Local Open Scope list_scope.

(** ** Links as the engine builds them *)

Inductive LinkType := internal | external.

Global Instance LinkType_eq_dec : EqDecision LinkType.
Proof. solve_decision. Defined.

(** The dict [_extract_links] appends for one anchor. *)
Record ExtractedLink := {
  el_url : string;
  el_link_type : LinkType;
  el_anchor_text : string;
  el_parent_element : string
}.

(** The same dict once [_check_link_status] has added its two keys. *)
Record CheckedLink := {
  cl_link : ExtractedLink;
  cl_status_code : option Z;
  cl_is_broken : bool
}.

(** ** The session: requests and their outcomes *)

(** What [session.head] does: it returns a response, of which the code reads
    the status code only, or raises [requests.exceptions.RequestException]. *)
Inductive ProbeOutcome :=
| ProbeResponse (status_code : Z)
| ProbeRequestException.

(** The effects of the status checker that an observer can see. *)
Inductive Event :=
| EvHead (url : string)
| EvSleep.

Module LinkStatus.
Section Checker.
(** The network is a state the session threads through its calls: the
    outcome of a probe may depend on everything requested before. *)
Context {Net : Type}.
Variable session_head : Net -> string -> ProbeOutcome * Net.

(** Body of the first loop of [_check_link_status], for one link. *)
Definition probe_link (net : Net) (link : ExtractedLink)
  : CheckedLink * Net :=
  match session_head net (el_url link) with
  | (ProbeResponse code, net') =>
      ({| cl_link := link;
          cl_status_code := Some code;
          cl_is_broken := (400 <=? code)%Z |}, net')
  | (ProbeRequestException, net') =>
      ({| cl_link := link;
          cl_status_code := None;
          cl_is_broken := true |}, net')
  end.

(** [for i, link in enumerate(links[:max_checks])]: probe, then sleep. *)
Fixpoint check_loop (net : Net) (links : list ExtractedLink)
  : list CheckedLink * Net * list Event :=
  match links with
  | [] => ([], net, [])
  | link :: rest =>
      let '(checked, net1) := probe_link net link in
      let '(others, net2, trace) := check_loop net1 rest in
      (checked :: others, net2, EvHead (el_url link) :: EvSleep :: trace)
  end.

(** Body of the second loop, [for link in links[max_checks:]]. *)
Definition mark_unchecked (link : ExtractedLink) : CheckedLink :=
  {| cl_link := link; cl_status_code := None; cl_is_broken := false |}.

(** [_check_link_status(links, max_checks)]: the list it returns is the
    list it was given, each dict with its two new keys. *)
Definition _check_link_status (net : Net) (links : list ExtractedLink)
    (max_checks : nat) : list CheckedLink * Net * list Event :=
  let '(probed, net', trace) := check_loop net (take max_checks links) in
  (probed ++ map mark_unchecked (drop max_checks links), net', trace).



End Checker.
End LinkStatus.


(** ** The parsed page *)

(** What BeautifulSoup hands to the code: a tree of tags and strings.  A
    tag has a name, its attributes (each one string) and its children; the
    multi-valued [class] attribute, which BeautifulSoup gives as a list, is
    kept apart, empty when the tag has none.  The soup itself is the tag
    named [[document]]. *)
#[warnings="-register-all"]
Inductive Node :=
| Tag (name : string) (attrs : list (string * string))
      (classes : list string) (children : list Node)
| NavigableString (text : string).

Module Dom.

(** [hasattr(x, 'name') and x.name]: the name of a tag, none for a string. *)
Definition name_of (n : Node) : option string :=
  match n with
  | Tag name _ _ _ => Some name
  | NavigableString _ => None
  end.

Definition children_of (n : Node) : list Node :=
  match n with
  | Tag _ _ _ children => children
  | NavigableString _ => []
  end.

Definition classes_of (n : Node) : list string :=
  match n with
  | Tag _ _ classes _ => classes
  | NavigableString _ => []
  end.

(** [dict.get(key)] on an attribute list. *)
Fixpoint lookup_attr (key : string) (attrs : list (string * string))
  : option string :=
  match attrs with
  | [] => None
  | (k, v) :: rest => if String.eqb k key then Some v else lookup_attr key rest
  end.

(** [tag.get(key)]: [None] when the attribute is absent. *)
Definition get (n : Node) (key : string) : option string :=
  match n with
  | Tag _ attrs _ _ => lookup_attr key attrs
  | NavigableString _ => None
  end.

(** [tag.get(key, '')]. *)
Definition get_or_empty (n : Node) (key : string) : string :=
  default "" (get n key).

(** Python's truth value of [tag.get(key)]: present and not empty. *)
Definition truthy_attr (n : Node) (key : string) : bool :=
  match get n key with
  | Some v => negb (String.eqb v "")
  | None => false
  end.

(** Every node below [n] in document order, each with the chain of its
    ancestors, the parent first and [n] itself last but for [up]. *)
Fixpoint descendants (up : list Node) (n : Node) : list (Node * list Node) :=
  match n with
  | NavigableString _ => []
  | Tag _ _ _ children =>
      flat_map (fun c => (c, n :: up) :: descendants (n :: up) c) children
  end.

Definition has_name (tag_name : string) (n : Node) : bool :=
  match n with
  | Tag name _ _ _ => String.eqb name tag_name
  | NavigableString _ => false
  end.

(** [soup.find_all(...)] with the test [p] on tags. *)
Definition find_all (p : Node -> bool) (soup : Node) : list Node :=
  filter (fun n => p n = true) (map fst (descendants [] soup)).

(** [soup.find(...)]: the first match or [None]. *)
Definition find (p : Node -> bool) (soup : Node) : option Node :=
  head (find_all p soup).

(** [soup.find_all(...)], each match with its ancestors. *)
Definition find_all_with_parents (p : Node -> bool) (soup : Node)
  : list (Node * list Node) :=
  filter (fun x => p (fst x) = true) (descendants [] soup).

End Dom.

(** [sep.join(parts)]. *)
Fixpoint join (sep : string) (parts : list string) : string :=
  match parts with
  | [] => ""
  | [p] => p
  | p :: rest => p +:+ sep +:+ join sep rest
  end.

(** ** The structure tree, [_extract_html_structure] *)

#[warnings="-register-all"]
Inductive StructureNode := {
  sn_tag : string;
  sn_id : string;
  sn_classes : list string;
  sn_children : list StructureNode;
  sn_child_counts : list (string * nat)
}.

Module Structure.

Definition semantic_tags : list string :=
  ["html"; "head"; "body"; "header"; "footer"; "nav"; "main";
   "section"; "article"; "aside"; "div"].

(** [child_counts[name] = child_counts.get(name, 0) + 1], the dict in
    insertion order. *)
Fixpoint bump (name : string) (counts : list (string * nat))
  : list (string * nat) :=
  match counts with
  | [] => [(name, 1)]
  | (k, c) :: rest =>
      if String.eqb k name then (k, S c) :: rest else (k, c) :: bump name rest
  end.

(** The first loop over [element.children]. *)
Definition count_children (children : list Node) : list (string * nat) :=
  fold_left
    (fun counts child =>
       match Dom.name_of child with
       | Some name => if String.eqb name "" then counts else bump name counts
       | None => counts
       end)
    children [].

(** [build_tree(element, depth, max_depth)]; [None] is Python's [None].  A
    string has no tag name, so the membership test sends it to [None]. *)
Fixpoint build_tree (element : Node) (depth max_depth : nat)
  : option StructureNode :=
  if (max_depth <? depth)%nat then None
  else
    match element with
    | NavigableString _ => None
    | Tag name attrs classes children =>
        if bool_decide (name ∈ semantic_tags) then
          Some {| sn_tag := name;
                  sn_id := default "" (Dom.lookup_attr "id" attrs);
                  sn_classes := classes;
                  sn_children :=
                    omap (fun child => build_tree child (S depth) max_depth)
                         children;
                  sn_child_counts := count_children children |}
        else None
    end.

(** What [_extract_html_structure] returns: the tree of the first [body]
    tag, built with [max_depth = 4]; [None] stands for the empty dict it
    returns when the page has no body. *)
Definition _extract_html_structure (soup : Node) : option StructureNode :=
  match Dom.find (Dom.has_name "body") soup with
  | Some body => build_tree body 0 4
  | None => None
  end.

(** The tags of a structure tree, the root first. *)
Fixpoint tree_tags (t : StructureNode) : list string :=
  sn_tag t :: flat_map tree_tags (sn_children t).

(** The reading of the specification, for comparison: a tag outside the
    semantic set gets no node of its own but is looked through, its
    children being built at the depth of the tag itself and handed to the
    nearest retained ancestor. *)
Fixpoint collect_transparent (element : Node) (depth max_depth : nat)
  : list StructureNode :=
  if (max_depth <? depth)%nat then []
  else
    match element with
    | NavigableString _ => []
    | Tag name attrs classes children =>
        if bool_decide (name ∈ semantic_tags) then
          [ {| sn_tag := name;
               sn_id := default "" (Dom.lookup_attr "id" attrs);
               sn_classes := classes;
               sn_children :=
                 flat_map
                   (fun child => collect_transparent child (S depth) max_depth)
                   children;
               sn_child_counts := count_children children |} ]
        else
          flat_map (fun child => collect_transparent child depth max_depth)
                   children
    end.

(** What the loop over [element.children] appends to [node['children']]
    for one child. *)
Definition appended (child : Node) (depth max_depth : nat)
  : list StructureNode :=
  match build_tree child depth max_depth with
  | Some n => [n]
  | None => []
  end.

End Structure.

(** ** The parent path of a link, [_find_parent_element], and [_extract_links] *)

Module Links.

Definition semantic_elements : list string :=
  ["header"; "footer"; "nav"; "main"; "section"; "article"; "aside"].

(** The string the loop appends for a semantic ancestor [current]:
    [name#id], else [name.classes[0]], else [name]. *)
Definition descriptor (name : string) (current : Node) : string :=
  let classes := Dom.classes_of current in
  let element_id := Dom.get_or_empty current "id" in
  if negb (String.eqb element_id "") then name +:+ "#" +:+ element_id
  else
    match classes with
    | first_class :: _ => name +:+ "." +:+ first_class
    | [] => name
    end.

(** The [while current and current.name != 'body'] loop.  [ancestors] is
    the chain [element.parent], [element.parent.parent], ... up to the soup,
    whose parent is [None]; [parents] is the list built so far. *)
Fixpoint walk (ancestors : list Node) (parents : list string) : list string :=
  match ancestors with
  | [] => parents
  | current :: up =>
      match Dom.name_of current with
      | Some name =>
          if String.eqb name "body" then parents
          else if bool_decide (name ∈ semantic_elements)
               then walk up (parents ++ [descriptor name current])
               else walk up parents
      | None => walk up parents
      end
  end.

(** [_find_parent_element(element)], given the ancestors of [element]. *)
Definition _find_parent_element (ancestors : list Node) : string :=
  match walk ancestors [] with
  | [] => "body"
  | parents => join " > " (rev parents)
  end.

(** [soup.find_all('a', href=True)]: anchors that carry an [href]. *)
Definition is_anchor_with_href (n : Node) : bool :=
  Dom.has_name "a" n && bool_decide (is_Some (Dom.get n "href")).


Section Extract.
(** [urllib.parse.urljoin], [urlparse(...).netloc] and BeautifulSoup's
    [get_text(strip=True)] are library functions. *)
Variable urljoin : string -> string -> string.
Variable netloc : string -> string.
Variable get_text_strip : Node -> string.

(** [s.startswith(('http://', 'https://'))]. *)
Definition is_http (s : string) : bool :=
  String.prefix "http://" s || String.prefix "https://" s.

(** Body of the loop of [_extract_links] for one anchor: the dict it
    appends, or nothing when it skips the anchor. *)
Definition link_of_anchor (self_url : string) (found : Node * list Node)
  : option ExtractedLink :=
  let anchor := fst found in
  let href := Dom.get_or_empty anchor "href" in
  let full_url := urljoin self_url href in
  if negb (is_http full_url) then None
  else
    let base_domain := netloc self_url in
    let link_domain := netloc full_url in
    Some {| el_url := full_url;
            el_link_type :=
              if String.eqb link_domain base_domain then internal else external;
            el_anchor_text := String.substring 0 500 (get_text_strip anchor);
            el_parent_element := _find_parent_element (snd found) |}.

Definition _extract_links (self_url : string) (soup : Node)
  : list ExtractedLink :=
  omap (link_of_anchor self_url)
       (Dom.find_all_with_parents is_anchor_with_href soup).

End Extract.





End Links.

(** ** Python's floats *)

Module PyFloat.

(** The conversion of an [int] operand in mixed arithmetic.  It is exact
    up to [2^53], which covers every count and score of this program. *)
Definition float_of_int (z : Z) : float :=
  if (z <? 0)%Z then PrimFloat.opp (PrimFloat.of_uint63 (Uint63.of_Z (- z)))
  else PrimFloat.of_uint63 (Uint63.of_Z z).

(** The magnitude of a finite float, read off its representation:
    [|x| = mantissa * 2 ^ exponent] with [mantissa < 2^53].  The exponent
    primitive is biased by 2101 and the mantissa is scaled by [2^53]. *)
Definition decode (x : float) : Z * Z :=
  let (m, e) := PrimFloat.frshiftexp (PrimFloat.abs x) in
  (Uint63.to_Z (PrimFloat.normfr_mantissa m), (Uint63.to_Z e - 2154)%Z).

Definition is_finite (x : float) : bool :=
  negb (PrimFloat.is_nan x || PrimFloat.is_infinity x).

Definition with_sign (x : float) (n : Z) : Z :=
  if PrimFloat.ltb x 0%float then (- n)%Z else n.

(** The integer nearest to [mantissa * 2 ^ exponent], a tie going to the
    even one. *)
Definition round_half_even (mantissa exponent : Z) : Z :=
  if (0 <=? exponent)%Z then (mantissa * 2 ^ exponent)%Z
  else
    let d := (2 ^ (- exponent))%Z in
    let q := (mantissa / d)%Z in
    let r := (mantissa mod d)%Z in
    if (2 * r <? d)%Z then q
    else if (d <? 2 * r)%Z then (q + 1)%Z
    else if Z.even q then q else (q + 1)%Z.

(** [round(x)] of a float: the nearest [int], ties to even; it raises on
    a NaN or an infinity, which [None] stands for. *)
Definition py_round (x : float) : option Z :=
  if is_finite x then
    let (mantissa, exponent) := decode x in
    Some (with_sign x (round_half_even mantissa exponent))
  else None.

(** [int(x)] of a float: truncation toward zero; it raises as [round]. *)
Definition py_int (x : float) : option Z :=
  if is_finite x then
    let (mantissa, exponent) := decode x in
    Some (with_sign x
            (if (0 <=? exponent)%Z then (mantissa * 2 ^ exponent)%Z
             else (mantissa / 2 ^ (- exponent))%Z))
  else None.

End PyFloat.

(** ** The audit, [_run_lighthouse_audit] and what it calls *)

(** A response of the session, as far as the code reads it: the status
    code, the body and the lookup in the (case-insensitive) headers. *)
Record Response := {
  resp_status_code : Z;
  resp_content : string;
  resp_header : string -> option string
}.

Module Audit.

(** [x > y] on the rationals. *)
Definition Qgtb (x y : Q) : bool := negb (Qle_bool x y).

(** The first [if]/[elif] chain of [_calculate_performance_score]: what is
    subtracted for the response time, in seconds. *)
Definition response_time_penalty (response_time : Q) : Z :=
  if Qgtb response_time 3 then 40
  else if Qgtb response_time 2 then 30
  else if Qgtb response_time 1 then 20
  else if Qgtb response_time (1 # 2) then 10
  else 0.

(** The second chain: what is subtracted for the page size, in bytes.
    [size_mb] is the quotient by [1024 * 1024], a power of two, so the
    float division of the code is exact. *)
Definition page_size_penalty (page_size : Z) : Z :=
  let size_mb := (inject_Z page_size / inject_Z (1024 * 1024))%Q in
  if Qgtb size_mb 5 then 30
  else if Qgtb size_mb 3 then 20
  else if Qgtb size_mb 1 then 10
  else 0.

(** [_calculate_performance_score(response_time, page_size)]. *)
Definition _calculate_performance_score (response_time : Q) (page_size : Z)
  : Z :=
  let score := 100%Z in
  let score := (score - response_time_penalty response_time)%Z in
  let score := (score - page_size_penalty page_size)%Z in
  Z.max 0 score.

(** [soup.find_all('input', type=['text', 'email', 'password', 'tel'])]. *)
Definition is_text_input (n : Node) : bool :=
  Dom.has_name "input" n &&
  match Dom.get n "type" with
  | Some t => bool_decide (t ∈ ["text"; "email"; "password"; "tel"])
  | None => false
  end.

(** [soup.find('label', attrs={'for': input_id})] finds a label. *)
Definition has_label_for (soup : Node) (input_id : string) : bool :=
  bool_decide
    (is_Some
       (Dom.find (fun n => Dom.has_name "label" n
                           && bool_decide (Dom.get n "for" = Some input_id))
                 soup)).

(** Body of the loop over the inputs: [score] after one [input_field]. *)
Definition label_step (soup : Node) (score : Z) (input_field : Node) : Z :=
  if Dom.truthy_attr input_field "id" then
    if has_label_for soup (Dom.get_or_empty input_field "id") then score
    else (score - 5)%Z
  else score.

(** The score after the image check: [100] scaled by the share of images
    that have a non-empty [alt], truncated by [int]. *)
Definition image_score (soup : Node) : option Z :=
  let images := Dom.find_all (Dom.has_name "img") soup in
  let images_without_alt :=
    filter (fun img => Dom.truthy_attr img "alt" = false) images in
  match images with
  | [] => Some 100%Z
  | _ =>
      let alt_ratio :=
        (1 - PyFloat.float_of_int (Z.of_nat (length images_without_alt))
             / PyFloat.float_of_int (Z.of_nat (length images)))%float in
      PyFloat.py_int (PyFloat.float_of_int 100 * (0.5 + 0.5 * alt_ratio))%float
  end.

(** The score after the heading check. *)
Definition heading_score (soup : Node) (score : Z) : Z :=
  let h1_count := length (Dom.find_all (Dom.has_name "h1") soup) in
  if (h1_count =? 0)%nat then (score - 15)%Z
  else if (1 <? h1_count)%nat then (score - 10)%Z
  else score.

(** The score after the ARIA check, [find_all(attrs={'role': True})]. *)
Definition aria_score (soup : Node) (score : Z) : Z :=
  let aria_elements :=
    Dom.find_all (fun n => bool_decide (is_Some (Dom.get n "role"))) soup in
  if (0 <? length aria_elements)%nat then Z.min 100 (score + 5) else score.

(** [_analyze_accessibility(soup)]; [None] when [int] raises. *)
Definition _analyze_accessibility (soup : Node) : option Z :=
  score ← image_score soup;
  let score := heading_score soup score in
  let inputs := Dom.find_all is_text_input soup in
  let score := fold_left (label_step soup) inputs score in
  let score := aria_score soup score in
  Some (Z.max 0 (Z.min 100 score)).

(** The weighted sum of lines 243-246, in floats, left to right; [0.3]
    and [0.2] are the nearest floats, as Python reads them. *)
#[warnings="-inexact-float"]
Definition weighted_sum (performance_score accessibility_score
                         best_practices_score seo_score : Z) : float :=
  (PyFloat.float_of_int performance_score * 0.3
   + PyFloat.float_of_int accessibility_score * 0.25
   + PyFloat.float_of_int best_practices_score * 0.25
   + PyFloat.float_of_int seo_score * 0.2)%float.

(** [overall_score = round(...)]. *)
Definition overall_score (performance_score accessibility_score
                          best_practices_score seo_score : Z) : option Z :=
  PyFloat.py_round
    (weighted_sum performance_score accessibility_score
                  best_practices_score seo_score).

(** The dict [_run_lighthouse_audit] returns.  [lh_details] is [None] in
    the dict of the [except] branch, whose metrics are empty and whose
    audits hold the error only. *)
Record LighthouseScore {Details : Type} := {
  lh_overall : Z;
  lh_performance : Z;
  lh_accessibility : Z;
  lh_best_practices : Z;
  lh_seo : Z;
  lh_details : option Details
}.
Arguments LighthouseScore : clear implicits.

Section Lighthouse.
(** The two sub-scores and the detail lists no property below is about are
    parameters; [None] is an exception they raise. *)
Context {Details : Type}.
Variable _analyze_best_practices : Node -> Response -> option Z.
Variable _analyze_seo : Node -> option Z.
Variable details_of : Node -> Response -> Q -> option Details.

Definition _run_lighthouse_audit (soup : Node) (response : Response)
    (response_time : Q) : LighthouseScore Details :=
  let attempt :=
    let performance_score :=
      _calculate_performance_score
        response_time (Z.of_nat (String.length (resp_content response))) in
    accessibility_score ← _analyze_accessibility soup;
    best_practices_score ← _analyze_best_practices soup response;
    seo_score ← _analyze_seo soup;
    overall ← overall_score performance_score accessibility_score
                            best_practices_score seo_score;
    details ← details_of soup response response_time;
    Some {| lh_overall := overall;
            lh_performance := performance_score;
            lh_accessibility := accessibility_score;
            lh_best_practices := best_practices_score;
            lh_seo := seo_score;
            lh_details := Some details |} in
  match attempt with
  | Some scores => scores
  | None =>
      {| lh_overall := 0; lh_performance := 0; lh_accessibility := 0;
         lh_best_practices := 0; lh_seo := 0; lh_details := None |}
  end.

End Lighthouse.
End Audit.

(** ** The analysis, [crawl] *)

(** What [session.get] does: it returns a response, after the time the
    code measures around the call, or raises a
    [requests.exceptions.RequestException] with its message. *)
Inductive FetchOutcome :=
| FetchResponse (response : Response) (response_time : Q)
| FetchRequestException (message : string).

(** The [page_info] dict, with the audit merged in. *)
Record PageInfo {Json Details : Type} := {
  pi_status_code : Z;
  pi_title : string;
  pi_meta_description : string;
  pi_content_type : string;
  pi_response_time : Q;
  pi_page_size : nat;
  pi_html_structure : option StructureNode;
  pi_schema_markup : list Json;
  pi_lighthouse_score : Audit.LighthouseScore Details
}.
Arguments PageInfo : clear implicits.

(** The dict [crawl] returns. *)
Record CrawlResult {Json Details : Type} := {
  cr_success : bool;
  cr_error : option string;
  cr_page_info : option (PageInfo Json Details);
  cr_links : list CheckedLink;
  cr_total_links : nat;
  cr_internal_links : nat;
  cr_external_links : nat
}.
Arguments CrawlResult : clear implicits.

Module Crawler.
Section Crawl.
Context {Net Json Details : Type}.
(** The session. *)
Variable session_get : Net -> string -> Z -> FetchOutcome * Net.
Variable session_head : Net -> string -> ProbeOutcome * Net.
(** [BeautifulSoup(content, 'lxml')], [get_text(strip=True)], urllib. *)
Variable BeautifulSoup : string -> Node.
Variable get_text_strip : Node -> string.
Variable urljoin : string -> string -> string.
Variable netloc : string -> string.
(** [round(response_time, 2)]. *)
Variable round2 : Q -> Q.
(** Parts of the engine no property below is about. *)
Variable _extract_schema_markup : Node -> list Json.
Variable _analyze_best_practices : Node -> Response -> option Z.
Variable _analyze_seo : Node -> option Z.
Variable details_of : Node -> Response -> Q -> option Details.

(** [_extract_title(soup)]. *)
Definition _extract_title (soup : Node) : string :=
  match Dom.find (Dom.has_name "title") soup with
  | Some title_tag => get_text_strip title_tag
  | None => ""
  end.

(** [_extract_meta_description(soup)]. *)
Definition _extract_meta_description (soup : Node) : string :=
  match Dom.find (fun n => Dom.has_name "meta" n
                           && bool_decide (Dom.get n "name" = Some "description"))
                 soup with
  | Some meta_desc =>
      if Dom.truthy_attr meta_desc "content"
      then Dom.get_or_empty meta_desc "content" else ""
  | None => ""
  end.

(** [len([l for l in links if l['link_type'] == t])]. *)
Definition count_type (t : LinkType) (links : list CheckedLink) : nat :=
  length (filter (fun l => el_link_type (cl_link l) = t) links).

(** [crawl()]: the [try] body when [session.get] returns, the [except]
    clause when it raises. *)
Definition crawl (self_url : string) (timeout : Z) (net : Net)
  : CrawlResult Json Details * Net * list Event :=
  match session_get net self_url timeout with
  | (FetchResponse response response_time, net1) =>
      let soup := BeautifulSoup (resp_content response) in
      let links := Links._extract_links urljoin netloc get_text_strip
                                         self_url soup in
      let '(links_with_status, net2, trace) :=
        LinkStatus._check_link_status session_head net1 links 50 in
      let lighthouse_score :=
        Audit._run_lighthouse_audit _analyze_best_practices _analyze_seo
                                    details_of soup response response_time in
      ({| cr_success := true;
          cr_error := None;
          cr_page_info :=
            Some {| pi_status_code := resp_status_code response;
                    pi_title := _extract_title soup;
                    pi_meta_description := _extract_meta_description soup;
                    pi_content_type :=
                      default "" (resp_header response "Content-Type");
                    pi_response_time := round2 response_time;
                    pi_page_size := String.length (resp_content response);
                    pi_html_structure :=
                      Structure._extract_html_structure soup;
                    pi_schema_markup := _extract_schema_markup soup;
                    pi_lighthouse_score := lighthouse_score |};
          cr_links := links_with_status;
          cr_total_links := length links_with_status;
          cr_internal_links := count_type internal links_with_status;
          cr_external_links := count_type external links_with_status |},
       net2, trace)
  | (FetchRequestException message, net1) =>
      ({| cr_success := false;
          cr_error := Some message;
          cr_page_info := None;
          cr_links := [];
          cr_total_links := 0;
          cr_internal_links := 0;
          cr_external_links := 0 |},
       net1, [])
  end.

End Crawl.
End Crawler.

(** ** The graph layout builder, [api_graph_data] *)

(** A row of the [Link] table, as the view reads it. *)
Record LinkRow := {
  lr_url : string;
  lr_link_type : LinkType;
  lr_anchor_text : string;
  lr_status_code : option Z;
  lr_is_broken : bool;
  lr_parent_element : option string
}.

Inductive NodeType := root_node | element_group | internal_node | external_node.

Global Instance NodeType_eq_dec : EqDecision NodeType.
Proof. solve_decision. Defined.

(** A node dict; the keys only some kinds of node have are optional. *)
Record GraphNode := {
  gn_id : string;
  gn_label : string;
  gn_url : string;
  gn_type : NodeType;
  gn_domain : string;
  gn_layer : nat;
  gn_path : option string;
  gn_status_code : option (option Z);
  gn_is_broken : option bool;
  gn_anchor_text : option string;
  gn_parent_element : option string
}.

(** An edge dict. *)
Record GraphEdge := {
  ge_from : string;
  ge_to : string;
  ge_path : option string;
  ge_count : option nat
}.

(** What [urlparse] gives, as far as the view reads it. *)
Record ParseResult := {
  netloc : string;
  path : string
}.

(** The value of [external_domains[domain]]. *)
Record DomainEntry := {
  de_node_id : string;
  de_count : nat;
  de_urls : list string
}.

(** The [stats] dict; [st_layers] is [None] where [max] raises. *)
Record Stats := {
  st_total_nodes : nat;
  st_total_edges : nat;
  st_internal : nat;
  st_external : nat;
  st_layers : option nat
}.

(** The JSON the view returns. *)
Record GraphData := {
  gd_nodes : list GraphNode;
  gd_edges : list GraphEdge;
  gd_stats : Stats
}.

Module Graph.

(** Python's [x or y] on a string that may be [None]. *)
Definition or_else (x : option string) (y : string) : string :=
  match x with
  | Some (String c s) => String c s
  | _ => y
  end.

(** [d.get(key)] on a dict kept in insertion order. *)
Fixpoint dict_get {V : Type} (key : string) (d : list (string * V))
  : option V :=
  match d with
  | [] => None
  | (k, v) :: rest => if String.eqb k key then Some v else dict_get key rest
  end.

(** [links_by_element[parent].append(link)], creating the list first when
    the key is new. *)
Fixpoint group_append (parent : string) (link : LinkRow)
    (groups : list (string * list LinkRow)) : list (string * list LinkRow) :=
  match groups with
  | [] => [(parent, [link])]
  | (k, members) :: rest =>
      if String.eqb k parent then (k, members ++ [link]) :: rest
      else (k, members) :: group_append parent link rest
  end.

Definition group_links (internal_links : list LinkRow)
  : list (string * list LinkRow) :=
  fold_left
    (fun groups link =>
       group_append (or_else (lr_parent_element link) "body") link groups)
    internal_links [].

Definition element_layer_map : list (string * nat) :=
  [("header", 1); ("nav", 1); ("main", 1); ("footer", 1); ("aside", 1);
   ("section", 2); ("article", 2); ("body", 1)].

(** [s.split(c)]: never empty. *)
Fixpoint split_on (c : ascii) (s : string) : list string :=
  match s with
  | EmptyString => [""]
  | String x rest =>
      if Ascii.eqb x c then "" :: split_on c rest
      else
        match split_on c rest with
        | first :: others => String x first :: others
        | [] => [String x ""]
        end
  end.

(** [re.split(r'[#.]', s)[0]]: what precedes the first [#] or [.]. *)
Fixpoint re_split_first (s : string) : string :=
  match s with
  | EmptyString => ""
  | String x rest =>
      if Ascii.eqb x "#" || Ascii.eqb x "." then ""
      else String x (re_split_first rest)
  end.

(** [s.split(c)[0]]. *)
Definition split_first (c : ascii) (s : string) : string :=
  hd "" (split_on c s).

(** [s.strip('/')]. *)
Fixpoint lstrip_slash (s : string) : string :=
  match s with
  | String x rest => if Ascii.eqb x "/" then lstrip_slash rest else s
  | EmptyString => ""
  end.

Definition strip_slash (s : string) : string :=
  String.rev (lstrip_slash (String.rev (lstrip_slash s))).

(** [f"{prefix}{node_id_counter}"]. *)
Definition node_id (prefix : string) (counter : nat) : string :=
  prefix +:+ pretty counter.

(** The variables the three loops update. *)
Record State := {
  nodes : list GraphNode;
  edges : list GraphEdge;
  node_id_counter : nat;
  element_nodes : gmap string (string * nat);
  external_domains : gmap string DomainEntry
}.

Section Builder.
(** [urllib.parse.urlparse] and [str.upper] are library functions. *)
Variable urlparse : string -> ParseResult.
Variable upper : string -> string.

(** The url of the job and its host. *)
Variable job_url : string.
Definition main_domain : string := netloc (urlparse job_url).

Definition root : GraphNode :=
  {| gn_id := "root"; gn_label := main_domain; gn_url := job_url;
     gn_type := root_node; gn_domain := main_domain; gn_layer := 0;
     gn_path := None; gn_status_code := None; gn_is_broken := None;
     gn_anchor_text := None; gn_parent_element := None |}.

Definition initial : State :=
  {| nodes := [root]; edges := []; node_id_counter := 0;
     element_nodes := ∅; external_domains := ∅ |}.

(** The layer of the group node of a path, lines 158-159. *)
Definition group_layer (parent_element : string) : nat :=
  let base_tag := re_split_first parent_element in
  default 1 (dict_get base_tag element_layer_map).

(** Body of the loop that creates the parent element nodes. *)
Definition element_step (st : State) (item : string * list LinkRow) : State :=
  let '(parent_element, element_links) := item in
  if (1 <? length element_links)%nat then
    let element_node_id := node_id "element_" (node_id_counter st) in
    let layer := group_layer parent_element in
    {| nodes := nodes st ++
         [ {| gn_id := element_node_id; gn_label := upper parent_element;
              gn_url := job_url; gn_type := element_group;
              gn_domain := main_domain; gn_layer := layer;
              gn_path := None; gn_status_code := None; gn_is_broken := None;
              gn_anchor_text := None;
              gn_parent_element := Some parent_element |} ];
       edges := edges st ++
         [ {| ge_from := "root"; ge_to := element_node_id;
              ge_path := None; ge_count := None |} ];
       node_id_counter := S (node_id_counter st);
       element_nodes :=
         <[parent_element := (element_node_id, layer)]> (element_nodes st);
       external_domains := external_domains st |}
  else st.

(** The label of the node of an internal link, lines 202-209. *)
Definition path_label (path : string) : string :=
  if String.eqb path "/" then "Home"
  else
    let segments := split_on "/" (strip_slash path) in
    let label := List.last segments "Page" in
    if (20 <? String.length label)%nat
    then String.substring 0 18 label +:+ ".."
    else label.

(** Body of the inner loop over the links of one group. *)
Definition internal_step (parent_element : string) (group_size : nat)
    (st : State) (link : LinkRow) : State :=
  let parsed := urlparse (lr_url link) in
  let path := or_else (Some (path parsed)) "/" in
  let node_id := node_id "internal_" (node_id_counter st) in
  let path_segments :=
    filter (fun p => p ≠ "") (split_on "/" path) in
  let base_tag :=
    if String.eqb parent_element "" then "body"
    else split_first "." (split_first "#" parent_element) in
  let base_layer := default 1 (dict_get base_tag element_layer_map) in
  let path_depth := Nat.min (length path_segments) 2 in
  let layer := base_layer + path_depth + 1 in
  let source :=
    match element_nodes st !! parent_element with
    | Some (group_id, _) =>
        if (1 <? group_size)%nat then group_id else "root"
    | None => "root"
    end in
  {| nodes := nodes st ++
       [ {| gn_id := node_id; gn_label := path_label path;
            gn_url := lr_url link; gn_type := internal_node;
            gn_domain := netloc parsed; gn_layer := layer;
            gn_path := Some path;
            gn_status_code := Some (lr_status_code link);
            gn_is_broken := Some (lr_is_broken link);
            gn_anchor_text :=
              Some (String.substring 0 30 (lr_anchor_text link));
            gn_parent_element := Some parent_element |} ];
     edges := edges st ++
       [ {| ge_from := source; ge_to := node_id;
            ge_path := Some path; ge_count := None |} ];
     node_id_counter := S (node_id_counter st);
     element_nodes := element_nodes st;
     external_domains := external_domains st |}.

(** Body of the outer loop over the groups. *)
Definition internal_group_step (st : State) (item : string * list LinkRow)
  : State :=
  let '(parent_element, element_links) := item in
  fold_left (internal_step parent_element (length element_links))
            element_links st.

(** Body of the loop over the external links. *)
Definition external_step (st : State) (link : LinkRow) : State :=
  let parsed := urlparse (lr_url link) in
  let domain := netloc parsed in
  let st1 :=
    match external_domains st !! domain with
    | Some _ => st
    | None =>
        let node_id := node_id "external_" (node_id_counter st) in
        {| nodes := nodes st ++
             [ {| gn_id := node_id; gn_label := domain;
                  gn_url := lr_url link; gn_type := external_node;
                  gn_domain := domain; gn_layer := 1;
                  gn_path := Some (or_else (Some (path parsed)) "/");
                  gn_status_code := Some (lr_status_code link);
                  gn_is_broken := Some (lr_is_broken link);
                  gn_anchor_text := None;
                  gn_parent_element :=
                    Some (or_else (lr_parent_element link) "body") |} ];
           edges := edges st;
           node_id_counter := S (node_id_counter st);
           element_nodes := element_nodes st;
           external_domains :=
             <[domain := {| de_node_id := node_id; de_count := 0;
                            de_urls := [] |}]> (external_domains st) |}
    end in
  match external_domains st1 !! domain with
  | Some entry =>
      let entry' :=
        {| de_node_id := de_node_id entry;
           de_count := S (de_count entry);
           de_urls := de_urls entry ++ [lr_url link] |} in
      {| nodes := nodes st1;
         edges := edges st1 ++
           [ {| ge_from := "root"; ge_to := de_node_id entry';
                ge_path := None; ge_count := Some (de_count entry') |} ];
         node_id_counter := node_id_counter st1;
         element_nodes := element_nodes st1;
         external_domains := <[domain := entry']> (external_domains st1) |}
  | None => st1
  end.

Definition internal_links (links : list LinkRow) : list LinkRow :=
  take 50 (filter (fun l => lr_link_type l = internal) links).

Definition external_links (links : list LinkRow) : list LinkRow :=
  take 30 (filter (fun l => lr_link_type l = external) links).

(** The state after the loop that creates the parent element nodes. *)
Definition after_elements (links : list LinkRow) : State :=
  fold_left element_step (group_links (internal_links links)) initial.

(** The state after the loop over the internal links. *)
Definition after_internal (links : list LinkRow) : State :=
  fold_left internal_group_step (group_links (internal_links links))
            (after_elements links).

(** The state when the view builds its answer. *)
Definition final_state (links : list LinkRow) : State :=
  fold_left external_step (external_links links) (after_internal links).

(** [max(l)]: it raises on the empty list. *)
Definition py_max (l : list nat) : option nat :=
  match l with
  | [] => None
  | x :: rest => Some (fold_left Nat.max rest x)
  end.

Definition count_nodes (t : NodeType) (ns : list GraphNode) : nat :=
  length (filter (fun n => gn_type n = t) ns).

Definition stats_of (ns : list GraphNode) (es : list GraphEdge) : Stats :=
  {| st_total_nodes := length ns;
     st_total_edges := length es;
     st_internal := count_nodes internal_node ns;
     st_external := count_nodes external_node ns;
     st_layers := py_max (map gn_layer ns) |}.

Definition api_graph_data (links : list LinkRow) : GraphData :=
  let st := final_state links in
  {| gd_nodes := nodes st;
     gd_edges := edges st;
     gd_stats := stats_of (nodes st) (edges st) |}.

End Builder.
End Graph.

(** ** The other analysers of the audit *)

(** One entry of the list [_get_audit_details] returns. *)
Record AuditItem := {
  au_category : string;
  au_title : string;
  au_description : string;
  au_score : string
}.

(** The [metrics] dict of the audit. *)
Record Metrics := {
  m_response_time : Z;
  m_page_size_kb : Q;
  m_dom_size : nat
}.

Module Analysers.

(** [needle in s] on strings. *)
Fixpoint contains (needle s : string) : bool :=
  String.prefix needle s ||
  match s with
  | EmptyString => false
  | String _ rest => contains needle rest
  end.

(** The test of [soup.find('meta', attrs={'name': value})]. *)
Definition is_meta_named (value : string) (n : Node) : bool :=
  Dom.has_name "meta" n && bool_decide (Dom.get n "name" = Some value).

(** [soup.find_all('script', type='application/ld+json')]. *)
Definition ld_json_scripts (soup : Node) : list Node :=
  Dom.find_all
    (fun n => Dom.has_name "script" n
              && bool_decide (Dom.get n "type" = Some "application/ld+json"))
    soup.

(** [images_without_alt], as [_get_audit_details] computes it. *)
Definition images_without_alt (soup : Node) : list Node :=
  filter (fun img => Dom.truthy_attr img "alt" = false)
         (Dom.find_all (Dom.has_name "img") soup).

Section Schema.
Context {Json : Type}.
(** [script.string], [None] when the tag has not exactly one string child,
    and [json.loads], [None] when it raises [JSONDecodeError]. *)
Variable script_string : Node -> option string.
Variable json_loads : string -> option Json.

(** [_extract_schema_markup(soup)]: [json.loads(None)] raises [TypeError],
    which the loop catches like a decoding error. *)
Definition _extract_schema_markup (soup : Node) : list Json :=
  omap (fun script => script_string script ≫= json_loads)
       (ld_json_scripts soup).

End Schema.

Section Seo.
(** [get_text(strip=True)], [str.lower] and the match of the multi-valued
    attribute [rel] against one value are library functions. *)
Variable get_text_strip : Node -> string.
Variable lower : string -> string.
Variable has_rel : string -> Node -> bool.

(** The title check. *)
Definition seo_title (soup : Node) (score : Z) : Z :=
  match Dom.find (Dom.has_name "title") soup with
  | None => (score - 20)%Z
  | Some title =>
      let text := get_text_strip title in
      if String.eqb text "" then (score - 20)%Z
      else if (String.length text <? 30)%nat || (60 <? String.length text)%nat
           then (score - 10)%Z
           else score
  end.

(** The meta description check. *)
Definition seo_meta_description (soup : Node) (score : Z) : Z :=
  match Dom.find (is_meta_named "description") soup with
  | None => (score - 20)%Z
  | Some meta_desc =>
      if negb (Dom.truthy_attr meta_desc "content") then (score - 20)%Z
      else
        let content := Dom.get_or_empty meta_desc "content" in
        if (String.length content <? 120)%nat
           || (160 <? String.length content)%nat
        then (score - 10)%Z
        else score
  end.

(** The [h1] check. *)
Definition seo_h1 (soup : Node) (score : Z) : Z :=
  match Dom.find (Dom.has_name "h1") soup with
  | None => (score - 15)%Z
  | Some _ => score
  end.

(** The canonical URL check, [soup.find('link', rel='canonical')]. *)
Definition seo_canonical (soup : Node) (score : Z) : Z :=
  match Dom.find (fun n => Dom.has_name "link" n && has_rel "canonical" n)
                 soup with
  | None => (score - 10)%Z
  | Some _ => score
  end.

(** The robots check. *)
Definition seo_robots (soup : Node) (score : Z) : Z :=
  match Dom.find (is_meta_named "robots") soup with
  | Some robots =>
      if contains "noindex" (lower (Dom.get_or_empty robots "content"))
      then (score - 15)%Z
      else score
  | None => score
  end.

(** The structured data check. *)
Definition seo_structured_data (soup : Node) (score : Z) : Z :=
  match ld_json_scripts soup with
  | [] => score
  | _ :: _ => Z.min 100 (score + 10)
  end.

(** [_analyze_seo(soup)]. *)
Definition _analyze_seo (soup : Node) : Z :=
  let score := 100%Z in
  let score := seo_title soup score in
  let score := seo_meta_description soup score in
  let score := seo_h1 soup score in
  let score := seo_canonical soup score in
  let score := seo_robots soup score in
  let score := seo_structured_data soup score in
  Z.max 0 score.

End Seo.

Section BestPractices.
(** [str(soup)], [str.strip] and [str.lower] are library functions. *)
Variable str_of_soup : Node -> string.
Variable strip : string -> string.
Variable lower : string -> string.

Definition security_headers : list string :=
  ["X-Content-Type-Options"; "X-Frame-Options"; "Strict-Transport-Security"].

(** Body of the loop over the security headers. *)
Definition header_step (response : Response) (score : Z) (header : string)
  : Z :=
  match resp_header response header with
  | None => (score - 5)%Z
  | Some _ => score
  end.

(** The test of
    [find_all(['script', 'link', 'img'],
              src=lambda x: x and x.startswith('http://'))]. *)
Definition is_http_resource (n : Node) : bool :=
  match Dom.name_of n with
  | Some name => bool_decide (name ∈ ["script"; "link"; "img"])
  | None => false
  end
  && match Dom.get n "src" with
     | Some x => negb (String.eqb x "") && String.prefix "http://" x
     | None => false
     end.

Definition has_doctype (soup : Node) : bool :=
  String.prefix "<!doctype" (lower (strip (str_of_soup soup))).

(** [soup.find('meta', charset=True)
     or soup.find('meta', attrs={'http-equiv': 'Content-Type'})]. *)
Definition find_charset (soup : Node) : option Node :=
  match Dom.find (fun n => Dom.has_name "meta" n
                           && bool_decide (is_Some (Dom.get n "charset")))
                 soup with
  | Some charset => Some charset
  | None =>
      Dom.find (fun n => Dom.has_name "meta" n
                         && bool_decide
                              (Dom.get n "http-equiv" = Some "Content-Type"))
               soup
  end.

(** [_analyze_best_practices(soup, response)], for the crawler of
    [self_url]. *)
Definition _analyze_best_practices (self_url : string) (soup : Node)
    (response : Response) : Z :=
  let score := 100%Z in
  let score :=
    if negb (String.prefix "https://" self_url) then (score - 20)%Z
    else score in
  let score :=
    match Dom.find (is_meta_named "viewport") soup with
    | None => (score - 15)%Z
    | Some _ => score
    end in
  let score := if negb (has_doctype soup) then (score - 10)%Z else score in
  let score :=
    match find_charset soup with
    | None => (score - 10)%Z
    | Some _ => score
    end in
  let score := fold_left (header_step response) security_headers score in
  let http_resources := Dom.find_all is_http_resource soup in
  let score :=
    match http_resources with
    | [] => score
    | _ :: _ =>
        (score - Z.min 20 (Z.of_nat (length http_resources) * 2))%Z
    end in
  Z.max 0 score.

End BestPractices.

Section Details.
(** [get_text(strip=True)] and the text of [round(response_time, 2)] in an
    f-string are library functions. *)
Variable get_text_strip : Node -> string.
Variable show_round2 : Q -> string.

(** [not title or not title.get_text(strip=True)]. *)
Definition title_missing (soup : Node) : bool :=
  match Dom.find (Dom.has_name "title") soup with
  | None => true
  | Some title => String.eqb (get_text_strip title) ""
  end.

(** [not meta_desc or not meta_desc.get('content')]. *)
Definition meta_description_missing (soup : Node) : bool :=
  match Dom.find (is_meta_named "description") soup with
  | None => true
  | Some meta_desc => negb (Dom.truthy_attr meta_desc "content")
  end.

(** [_get_audit_details(soup, response, response_time)], for the crawler
    of [self_url]; [audits.append] is [++] of one entry. *)
Definition _get_audit_details (self_url : string) (soup : Node)
    (response : Response) (response_time : Q) : list AuditItem :=
  let audits := [] in
  let audits :=
    if Audit.Qgtb response_time 1 then
      audits ++
      [{| au_category := "performance";
          au_title := "Server Response Time";
          au_description :=
            "Response time is " +:+ show_round2 response_time
            +:+ "s. Aim for under 600ms.";
          au_score :=
            if Audit.Qgtb 3 response_time then "warning" else "error" |}]
    else audits in
  let audits :=
    match images_without_alt soup with
    | [] => audits
    | _ :: _ =>
        audits ++
        [{| au_category := "accessibility";
            au_title := "Image Alt Attributes";
            au_description :=
              pretty (length (images_without_alt soup))
              +:+ " images missing alt attributes.";
            au_score := "warning" |}]
    end in
  let audits :=
    if title_missing soup then
      audits ++
      [{| au_category := "seo";
          au_title := "Document Title";
          au_description := "The page is missing a title tag.";
          au_score := "error" |}]
    else audits in
  let audits :=
    if meta_description_missing soup then
      audits ++
      [{| au_category := "seo";
          au_title := "Meta Description";
          au_description := "The page is missing a meta description.";
          au_score := "error" |}]
    else audits in
  let audits :=
    if negb (String.prefix "https://" self_url) then
      audits ++
      [{| au_category := "best_practices";
          au_title := "HTTPS Usage";
          au_description := "The page is not served over HTTPS.";
          au_score := "error" |}]
    else audits in
  audits.

End Details.

Section Audit.
(** The audit with its analysers in place.  The library functions are
    those of the sections above; [to_ms] is [round(response_time * 1000)]
    and [round2] is [round(x, 2)]. *)
Variable get_text_strip : Node -> string.
Variable lower : string -> string.
Variable strip : string -> string.
Variable str_of_soup : Node -> string.
Variable has_rel : string -> Node -> bool.
Variable show_round2 : Q -> string.
Variable to_ms : Q -> Z.
Variable round2 : Q -> Q.

(** The [metrics] dict; [soup.find_all()] finds every tag. *)
Definition metrics_of (soup : Node) (response : Response)
    (response_time : Q) : Metrics :=
  {| m_response_time := to_ms response_time;
     m_page_size_kb :=
       round2 (inject_Z (Z.of_nat (String.length (resp_content response)))
               / 1024)%Q;
     m_dom_size :=
       length (Dom.find_all (fun n => bool_decide (is_Some (Dom.name_of n)))
                            soup) |}.

(** [_run_lighthouse_audit(soup, response, response_time)], for the
    crawler of [self_url]. *)
Definition run_lighthouse_audit (self_url : string) (soup : Node)
    (response : Response) (response_time : Q)
  : Audit.LighthouseScore (Metrics * list AuditItem) :=
  Audit._run_lighthouse_audit
    (fun soup response =>
       Some (_analyze_best_practices str_of_soup strip lower self_url soup
                                     response))
    (fun soup => Some (_analyze_seo get_text_strip lower has_rel soup))
    (fun soup response response_time =>
       Some (metrics_of soup response response_time,
             _get_audit_details get_text_strip show_round2 self_url soup
                                response response_time))
    soup response response_time.

End Audit.
End Analysers.

(** ** The job table and the task, [models.py] and [tasks.py] *)

Module Models.

(** The [status] of a job. *)
Inductive JobStatus := pending | running | completed | failed.

Global Instance JobStatus_eq_dec : EqDecision JobStatus.
Proof. solve_decision. Defined.

(** A row of [CrawlJob]; [Time] is what [timezone.now()] returns. *)
Record CrawlJob {Time : Type} := {
  cj_url : string;
  cj_status : JobStatus;
  cj_started_at : option Time;
  cj_completed_at : option Time;
  cj_error_message : option string;
  cj_total_links : nat;
  cj_internal_links : nat;
  cj_external_links : nat
}.
Arguments CrawlJob : clear implicits.

(** [CrawlJob.objects.create(url=url)]: the defaults of the fields. *)
Definition new_job {Time : Type} (url : string) : CrawlJob Time :=
  {| cj_url := url; cj_status := pending; cj_started_at := None;
     cj_completed_at := None; cj_error_message := None;
     cj_total_links := 0; cj_internal_links := 0; cj_external_links := 0 |}.

(** The three tables.  A [PageInfo] row and a [Link] row carry the id of
    their job. *)
Record Db {Json Details Time : Type} := {
  db_jobs : gmap nat (CrawlJob Time);
  db_page_infos : list (nat * PageInfo Json Details);
  db_links : list (nat * CheckedLink)
}.
Arguments Db : clear implicits.

Section Methods.
Context {Json Details Time : Type}.

(** The assignments of [mark_as_running], of [mark_as_completed] and of
    [mark_as_failed], at the time [now]. *)
Definition mark_as_running (now : Time) (job : CrawlJob Time)
  : CrawlJob Time :=
  {| cj_url := cj_url job; cj_status := running;
     cj_started_at := Some now;
     cj_completed_at := cj_completed_at job;
     cj_error_message := cj_error_message job;
     cj_total_links := cj_total_links job;
     cj_internal_links := cj_internal_links job;
     cj_external_links := cj_external_links job |}.

Definition mark_as_completed (now : Time) (job : CrawlJob Time)
  : CrawlJob Time :=
  {| cj_url := cj_url job; cj_status := completed;
     cj_started_at := cj_started_at job;
     cj_completed_at := Some now;
     cj_error_message := cj_error_message job;
     cj_total_links := cj_total_links job;
     cj_internal_links := cj_internal_links job;
     cj_external_links := cj_external_links job |}.

Definition mark_as_failed (now : Time) (error : string)
    (job : CrawlJob Time) : CrawlJob Time :=
  {| cj_url := cj_url job; cj_status := failed;
     cj_started_at := cj_started_at job;
     cj_completed_at := Some now;
     cj_error_message := Some error;
     cj_total_links := cj_total_links job;
     cj_internal_links := cj_internal_links job;
     cj_external_links := cj_external_links job |}.

(** [self.save()] of the job with the key [id]. *)
Definition save (db : Db Json Details Time) (id : nat)
    (job : CrawlJob Time) : Db Json Details Time :=
  {| db_jobs := <[id := job]> (db_jobs db);
     db_page_infos := db_page_infos db;
     db_links := db_links db |}.

End Methods.
End Models.

(** What [crawler.crawl()] does in the task: it returns its dict, or
    raises an exception other than the one it catches itself. *)
Inductive CrawlAttempt {Json Details : Type} :=
| CrawlReturned (result : CrawlResult Json Details)
| CrawlRaised (message : string).
Arguments CrawlAttempt : clear implicits.

(** How a run of the task ends: it returns, or the handler of its
    [except] clause raises in turn. *)
Inductive TaskOutcome := TaskReturned | TaskRaised.

Module Tasks.
Import Models.

Section Task.
Context {Net Json Details Time : Type}.
(** The crawler on a url; the database refusing a row, with the text of
    the exception it raises then; and the text of the [TypeError] of
    [**None]. *)
Variable crawler_crawl :
  string -> Net -> CrawlAttempt Json Details * Net.
Variable page_info_refused : PageInfo Json Details -> option string.
Variable link_refused : CheckedLink -> option string.
Variable integrity_error : string.
Variable type_error : string.

Local Abbreviation Db := (Db Json Details Time).

(** [PageInfo.objects.create(crawl_job=crawl_job, **page_info)]: the
    one-to-one field admits one row for a job. *)
Definition create_page_info (db : Db) (id : nat)
    (page_info : PageInfo Json Details) : string + Db :=
  match page_info_refused page_info with
  | Some message => inl message
  | None =>
      if bool_decide (id ∈ map fst (db_page_infos db))
      then inl integrity_error
      else inr {| db_jobs := db_jobs db;
                  db_page_infos := db_page_infos db ++ [(id, page_info)];
                  db_links := db_links db |}
  end.

(** [Link.objects.create(crawl_job=crawl_job, **link_data)]. *)
Definition create_link (db : Db) (id : nat) (link_data : CheckedLink)
  : string + Db :=
  match link_refused link_data with
  | Some message => inl message
  | None =>
      inr {| db_jobs := db_jobs db;
             db_page_infos := db_page_infos db;
             db_links := db_links db ++ [(id, link_data)] |}
  end.

(** The loop over [result['links']]: it stops at the first exception,
    the rows created before staying in the table. *)
Fixpoint create_links (db : Db) (id : nat) (links : list CheckedLink)
  : Db * option string :=
  match links with
  | [] => (db, None)
  | link_data :: rest =>
      match create_link db id link_data with
      | inl message => (db, Some message)
      | inr db1 => create_links db1 id rest
      end
  end.

(** [str(error)]. *)
Definition str_of_error (error : option string) : string :=
  default "None" error.

(** The body of the [try] once the job is loaded and marked: the database
    and the job object after it, with the text of the exception when it
    raises. *)
Definition try_body (db : Db) (id : nat) (job : CrawlJob Time)
    (attempt : CrawlAttempt Json Details) (now : Time)
  : Db * option string :=
  match attempt with
  | CrawlRaised message => (db, Some message)
  | CrawlReturned result =>
      if cr_success result then
        match cr_page_info result with
        | None => (db, Some type_error)
        | Some page_info =>
            match create_page_info db id page_info with
            | inl message => (db, Some message)
            | inr db1 =>
                match create_links db1 id (cr_links result) with
                | (db2, Some message) => (db2, Some message)
                | (db2, None) =>
                    let job :=
                      {| cj_url := cj_url job; cj_status := cj_status job;
                         cj_started_at := cj_started_at job;
                         cj_completed_at := cj_completed_at job;
                         cj_error_message := cj_error_message job;
                         cj_total_links := cr_total_links result;
                         cj_internal_links := cr_internal_links result;
                         cj_external_links := cr_external_links result |} in
                    (save db2 id (mark_as_completed now job), None)
                end
            end
        end
      else
        (save db id (mark_as_failed now (str_of_error (cr_error result)) job),
         None)
  end.

(** [crawl_url(crawl_job_id)], with the two readings of the clock.  When
    the job does not exist, [objects.get] raises, and the handler, which
    reads the variable [crawl_job] that was never bound, raises in
    turn. *)
Definition crawl_url (db : Db) (crawl_job_id : nat) (net : Net)
    (started finished : Time) : Db * Net * TaskOutcome :=
  match db_jobs db !! crawl_job_id with
  | None => (db, net, TaskRaised)
  | Some crawl_job =>
      let crawl_job := mark_as_running started crawl_job in
      let db := save db crawl_job_id crawl_job in
      let '(attempt, net1) := crawler_crawl (cj_url crawl_job) net in
      match try_body db crawl_job_id crawl_job attempt finished with
      | (db1, None) => (db1, net1, TaskReturned)
      | (db1, Some message) =>
          (save db1 crawl_job_id (mark_as_failed finished message crawl_job),
           net1, TaskReturned)
      end
  end.

End Task.
End Tasks.

(** * Properties *)

(** ** The link status checker *)

Module LinkStatusProps.
Import LinkStatus.
Section CheckerProps.
Context {Net : Type}.
Variable session_head : Net -> string -> ProbeOutcome * Net.

(** What one probe leaves in the dict, by the outcome of the request. *)
Lemma probe_link_outcome net link :
  (probe_link session_head net link).1 =
  match (session_head net (el_url link)).1 with
  | ProbeResponse code =>
      {| cl_link := link; cl_status_code := Some code;
         cl_is_broken := (400 <=? code)%Z |}
  | ProbeRequestException =>
      {| cl_link := link; cl_status_code := None; cl_is_broken := true |}
  end.
Proof.
  unfold probe_link. destruct (session_head net (el_url link)) as [[code|] net'];
    reflexivity.
Qed.


Lemma check_loop_trace net links :
  (check_loop session_head net links).2 =
  flat_map (fun l => [EvHead (el_url l); EvSleep]) links.
Proof.
  revert net. induction links as [|link rest IH]; intros net; simpl; [done|].
  destruct (probe_link session_head net link) as [checked net1].
  specialize (IH net1).
  destruct (check_loop session_head net1 rest) as [[others net2] trace].
  simpl in *. by rewrite IH.
Qed.





End CheckerProps.
End LinkStatusProps.

(** ** The structure tree *)

Module StructureProps.
Import Structure.

(** The equation of [build_tree] at a tag. *)
Lemma build_tree_tag name attrs classes children depth max_depth :
  build_tree (Tag name attrs classes children) depth max_depth =
  if (max_depth <? depth)%nat then None
  else if bool_decide (name ∈ semantic_tags) then
    Some {| sn_tag := name;
            sn_id := default "" (Dom.lookup_attr "id" attrs);
            sn_classes := classes;
            sn_children :=
              omap (fun child => build_tree child (S depth) max_depth) children;
            sn_child_counts := count_children children |}
  else None.
Proof. reflexivity. Qed.

(** A node is built for a tag of the semantic set only, and carries it. *)
Lemma build_tree_some element depth max_depth node :
  build_tree element depth max_depth = Some node ->
  Dom.name_of element = Some (sn_tag node)
  /\ sn_tag node ∈ semantic_tags /\ depth <= max_depth.
Proof.
  destruct element as [name attrs classes children|text].
  - rewrite build_tree_tag.
    destruct (max_depth <? depth)%nat eqn:Hd; [done|].
    apply Nat.ltb_ge in Hd.
    case_bool_decide as Hsem; [|done].
    intros [= <-]. simpl. done.
  - simpl. by destruct (max_depth <? depth)%nat.
Qed.

(** The tags of the children of a retained node: those of the direct
    children of the element that are in the semantic set. *)
Lemma children_tags children depth max_depth :
  depth <= max_depth ->
  map sn_tag (omap (fun child => build_tree child depth max_depth) children) =
  filter (fun name => name ∈ semantic_tags) (omap Dom.name_of children).
Proof.
  intros Hd. induction children as [|child rest IH]; [done|].
  simpl. destruct child as [name attrs classes grandchildren|text].
  - rewrite build_tree_tag.
    replace (max_depth <? depth)%nat with false
      by (symmetry; apply Nat.ltb_ge; lia).
    simpl. rewrite filter_cons.
    case_bool_decide as Hsem.
    + rewrite decide_True by done. simpl. f_equal. exact IH.
    + rewrite decide_False by done. exact IH.
  - simpl. destruct (max_depth <? depth)%nat; exact IH.
Qed.

(** A page whose only section sits inside a paragraph:
    [<body><p><section></section></p></body>]. *)
Definition wrapped_section : Node :=
  Tag "p" [] [] [Tag "section" [] [] []].

Definition wrapped_section_page : Node :=
  Tag "[document]" [] []
      [Tag "html" [] [] [Tag "body" [] [] [wrapped_section]]].

(** C2, as stated, fails.  On the page above the code returns the body
    node alone, the paragraph counted among its children and the section
    nowhere in the tree, where the reading of the specification hands the
    section to the body; the paragraph contributes nothing to its parent,
    not what its children would contribute. *)
Lemma wrapped_section_is_dropped :
  _extract_html_structure wrapped_section_page =
    Some {| sn_tag := "body"; sn_id := ""; sn_classes := [];
            sn_children := []; sn_child_counts := [("p", 1)] |}
  /\ (tree_tags <$> _extract_html_structure wrapped_section_page)
     = Some ["body"]
  /\ (tree_tags <$> collect_transparent
                      (Tag "body" [] [] [wrapped_section]) 0 4)
     = [["body"; "section"]]
  /\ appended wrapped_section 1 4 <>
     flat_map (fun child => appended child 1 4) (Dom.children_of wrapped_section).
Proof. repeat split; try reflexivity. vm_compute. discriminate. Qed.

(** C2, amended.  An element whose tag is not in the semantic set gets no
    node and is not looked through: [build_tree] returns [None] for it at
    every depth, so nothing below it reaches the tree.  An element with a
    semantic tag, within the depth cap, gets a node whose children are the
    nodes built, one level deeper, for its direct children; their tags are
    the semantic tags among the direct children, in order, and there is
    none at the cap. *)
Theorem non_semantic_subtree_is_dropped
    (name : string) (attrs : list (string * string)) (classes : list string)
    (children : list Node) (depth max_depth : nat) :
  (name ∉ semantic_tags ->
     build_tree (Tag name attrs classes children) depth max_depth = None
     /\ appended (Tag name attrs classes children) depth max_depth = [])
  /\ (name ∈ semantic_tags -> depth <= max_depth ->
      exists node : StructureNode,
        build_tree (Tag name attrs classes children) depth max_depth = Some node
        /\ sn_tag node = name
        /\ sn_children node =
             omap (fun child => build_tree child (S depth) max_depth) children
        /\ map sn_tag (sn_children node) =
             if (depth <? max_depth)%nat
             then filter (fun n => n ∈ semantic_tags)
                         (omap Dom.name_of children)
             else []).
Proof.
  split.
  - intros Hnot. unfold appended. rewrite build_tree_tag.
    rewrite (bool_decide_eq_false_2 _ Hnot).
    by destruct (max_depth <? depth)%nat.
  - intros Hsem Hd. rewrite build_tree_tag.
    replace (max_depth <? depth)%nat with false
      by (symmetry; apply Nat.ltb_ge; lia).
    rewrite (bool_decide_eq_true_2 _ Hsem).
    eexists. split; [reflexivity|]. simpl. split; [done|]. split; [done|].
    destruct (depth <? max_depth)%nat eqn:Hlt.
    + apply Nat.ltb_lt in Hlt. apply children_tags. lia.
    + apply Nat.ltb_ge in Hlt.
      assert (omap (fun child => build_tree child (S depth) max_depth) children
              = []) as ->; [|done].
      induction children as [|child rest IH]; [done|]. simpl.
      destruct (build_tree child (S depth) max_depth) as [node|] eqn:Hb;
        [|exact IH].
      apply build_tree_some in Hb. lia.
Qed.

End StructureProps.

(** ** The parent path of a link *)

Module LinksProps.
Import Links.





End LinksProps.

(** ** The audit scores *)

Module AuditProps.
Import Audit.

Lemma Qgtb_true x y : Qgtb x y = true <-> (y < x)%Q.
Proof.
  unfold Qgtb. rewrite negb_true_iff, <- not_true_iff_false, Qle_bool_iff.
  split; [apply Qnot_le_lt|apply Qlt_not_le].
Qed.

Lemma Qgtb_false x y : Qgtb x y = false <-> (x <= y)%Q.
Proof. unfold Qgtb. by rewrite negb_false_iff, Qle_bool_iff. Qed.

(** [size_mb > n] is a comparison of the size in bytes. *)
Lemma size_mb_gt (page_size n : Z) :
  Qgtb (inject_Z page_size / inject_Z (1024 * 1024)) (n # 1) = true
  <-> (n * 1048576 < page_size)%Z.
Proof.
  rewrite Qgtb_true. unfold Qlt, Qdiv, Qmult, Qinv, inject_Z. simpl. lia.
Qed.

Lemma size_mb_le (page_size n : Z) :
  Qgtb (inject_Z page_size / inject_Z (1024 * 1024)) (n # 1) = false
  <-> (page_size <= n * 1048576)%Z.
Proof.
  rewrite Qgtb_false. unfold Qle, Qdiv, Qmult, Qinv, inject_Z. simpl. lia.
Qed.

(** C4.  The response-time penalty is the one of the highest band the time
    exceeds, and of that band only: 0 up to 0.5 s, 10 above 0.5 s and up
    to 1 s, 20 up to 2 s, 30 up to 3 s, 40 above; this for every time, the
    positive ones in particular.  The page-size penalty follows the same
    rule at 1 MB, 3 MB and 5 MB, a MB being [1024 * 1024] bytes.  The score
    is 100 less the two, clamped below at 0. *)
Theorem performance_penalty_bands (response_time : Q) (page_size : Z) :
  ( ((response_time <= 1 # 2)%Q -> (response_time_penalty response_time = 0)%Z)
    /\ ((1 # 2 < response_time)%Q /\ (response_time <= 1)%Q ->
        (response_time_penalty response_time = 10)%Z)
    /\ ((1 < response_time)%Q /\ (response_time <= 2)%Q ->
        (response_time_penalty response_time = 20)%Z)
    /\ ((2 < response_time)%Q /\ (response_time <= 3)%Q ->
        (response_time_penalty response_time = 30)%Z)
    /\ ((3 < response_time)%Q -> (response_time_penalty response_time = 40)%Z) )
  /\ ( ((page_size <= 1 * 1048576)%Z -> (page_size_penalty page_size = 0)%Z)
       /\ ((1 * 1048576 < page_size <= 3 * 1048576)%Z ->
           (page_size_penalty page_size = 10)%Z)
       /\ ((3 * 1048576 < page_size <= 5 * 1048576)%Z ->
           (page_size_penalty page_size = 20)%Z)
       /\ ((5 * 1048576 < page_size)%Z -> (page_size_penalty page_size = 30)%Z) )
  /\ _calculate_performance_score response_time page_size =
       (Z.max 0 (100 - response_time_penalty response_time
                     - page_size_penalty page_size))%Z
  /\ (0 <= _calculate_performance_score response_time page_size <= 100)%Z.
Proof.
  split; [|split; [|split]].
  - unfold response_time_penalty.
    destruct (Qgtb response_time 3) eqn:H3;
      [apply Qgtb_true in H3|apply Qgtb_false in H3];
    (destruct (Qgtb response_time 2) eqn:H2;
      [apply Qgtb_true in H2|apply Qgtb_false in H2]);
    (destruct (Qgtb response_time 1) eqn:H1;
      [apply Qgtb_true in H1|apply Qgtb_false in H1]);
    (destruct (Qgtb response_time (1 # 2)) eqn:H0;
      [apply Qgtb_true in H0|apply Qgtb_false in H0]);
    repeat split; intros; try reflexivity; exfalso;
      unfold Qlt, Qle in *; simpl in *; lia.
  - unfold page_size_penalty.
    set (size_mb := (inject_Z page_size / inject_Z (1024 * 1024))%Q).
    destruct (Qgtb size_mb 5) eqn:H5, (Qgtb size_mb 3) eqn:H3,
             (Qgtb size_mb 1) eqn:H1;
    first [apply (size_mb_gt page_size 5) in H5
          |apply (size_mb_le page_size 5) in H5];
    first [apply (size_mb_gt page_size 3) in H3
          |apply (size_mb_le page_size 3) in H3];
    first [apply (size_mb_gt page_size 1) in H1
          |apply (size_mb_le page_size 1) in H1];
    repeat split; intros; try reflexivity; exfalso; lia.
  - reflexivity.
  - unfold _calculate_performance_score, response_time_penalty,
      page_size_penalty.
    repeat match goal with |- context [if ?b then _ else _] => destruct b end;
      lia.
Qed.

End AuditProps.

(** ** The label check of the accessibility score *)

Module AccessibilityProps.
Import Audit.








End AccessibilityProps.

(** ** The analysis on a fetch failure *)

Module CrawlerProps.
Import Crawler.
Section CrawlProps.
Context {Net Json Details : Type}.
Variable session_get : Net -> string -> Z -> FetchOutcome * Net.
Variable session_head : Net -> string -> ProbeOutcome * Net.
Variable BeautifulSoup : string -> Node.
Variable get_text_strip : Node -> string.
Variable urljoin : string -> string -> string.
Variable netloc : string -> string.
Variable round2 : Q -> Q.
Variable _extract_schema_markup : Node -> list Json.
Variable _analyze_best_practices : Node -> Response -> option Z.
Variable _analyze_seo : Node -> option Z.
Variable details_of : Node -> Response -> Q -> option Details.

(** C5.  When the page fetch raises a request exception, the analysis
    stops there: no link is probed, and the result has [success] false, the
    message of the exception as its error, no page info, no links and the
    three counts at 0. *)
Theorem crawl_fetch_failure (self_url : string) (timeout : Z) (net net' : Net)
    (message : string) :
  session_get net self_url timeout = (FetchRequestException message, net') ->
  crawl session_get session_head BeautifulSoup get_text_strip urljoin netloc
        round2 _extract_schema_markup _analyze_best_practices _analyze_seo
        details_of self_url timeout net
  = ({| cr_success := false;
        cr_error := Some message;
        cr_page_info := None;
        cr_links := [];
        cr_total_links := 0;
        cr_internal_links := 0;
        cr_external_links := 0 |}, net', []).
Proof. intros Hfetch. unfold crawl. by rewrite Hfetch. Qed.

End CrawlProps.

(** A session whose every request fails. *)
Definition failing_get (net : unit) (url : string) (timeout : Z)
  : FetchOutcome * unit :=
  (FetchRequestException "Connection refused", tt).

Definition failing_head (net : unit) (url : string) : ProbeOutcome * unit :=
  (ProbeRequestException, tt).

Lemma crawl_fetch_failure_witness :
  failing_get tt "http://example.com/" 10
    = (FetchRequestException "Connection refused", tt)
  /\ crawl (Json := unit) (Details := unit)
           failing_get failing_head (fun _ => NavigableString "")
           (fun _ => "") (fun _ href => href) (fun url => url) (fun t => t)
           (fun _ => []) (fun _ _ => None) (fun _ => None) (fun _ _ _ => None)
           "http://example.com/" 10 tt
     = ({| cr_success := false;
           cr_error := Some "Connection refused";
           cr_page_info := None;
           cr_links := [];
           cr_total_links := 0;
           cr_internal_links := 0;
           cr_external_links := 0 |}, tt, []).
Proof.
  split; [reflexivity|].
  apply (crawl_fetch_failure (Json := unit) (Details := unit)
           failing_get failing_head (fun _ => NavigableString "")
           (fun _ => "") (fun _ href => href) (fun url => url) (fun t => t)
           (fun _ => []) (fun _ _ => None) (fun _ => None) (fun _ _ _ => None)
           "http://example.com/" 10 tt tt "Connection refused").
  reflexivity.
Defined.

End CrawlerProps.

(** ** The graph layout builder *)

Module GraphProps.
Import Graph.

(** *** The node ids *)

Definition prefixes : list string := ["element_"; "internal_"; "external_"].

Lemma elem_of_prefixes pre :
  pre ∈ prefixes -> pre = "element_" \/ pre = "internal_" \/ pre = "external_".
Proof.
  unfold prefixes. rewrite !elem_of_cons, elem_of_nil. tauto.
Qed.

(** Two ids built from the counter are equal only for the same kind of
    node and the same value of the counter. *)
Lemma node_id_inj pre pre' k k' :
  pre ∈ prefixes -> pre' ∈ prefixes ->
  node_id pre k = node_id pre' k' -> pre = pre' /\ k = k'.
Proof.
  intros Hp Hp'. unfold node_id.
  assert (pretty k = pretty k' -> k = k') as Hinj by apply (inj pretty).
  revert Hinj. generalize (pretty k) (pretty k'). intros s s' Hinj.
  apply elem_of_prefixes in Hp as [-> | [-> | ->]];
    apply elem_of_prefixes in Hp' as [-> | [-> | ->]];
    simpl; intros Heq; try discriminate Heq;
    injection Heq as Heq; auto.
Qed.

Lemma node_id_not_root pre k : pre ∈ prefixes -> node_id pre k <> "root".
Proof.
  intros Hp. unfold node_id.
  apply elem_of_prefixes in Hp as [-> | [-> | ->]]; simpl; discriminate.
Qed.

(** The ids a state whose counter is [c] can hold. *)
Definition counter_id (c : nat) (id : string) : Prop :=
  id = "root" \/
  exists pre k, pre ∈ prefixes /\ k < c /\ id = node_id pre k.

Definition ids (st : State) : list string := map gn_id (nodes st).

(** In a list without two equal keys, a key names one element. *)
Lemma NoDup_map_eq {A B : Type} (f : A -> B) (l : list A) (x y : A) :
  NoDup (map f l) -> x ∈ l -> y ∈ l -> f x = f y -> x = y.
Proof.
  induction l as [|a l IH]; intros Hnd Hx Hy Heq; [by apply elem_of_nil in Hx|].
  simpl in Hnd. apply NoDup_cons in Hnd as [Hnotin Hnd].
  apply elem_of_cons in Hx as [-> | Hx]; apply elem_of_cons in Hy as [-> | Hy].
  - done.
  - exfalso. apply Hnotin. rewrite Heq. by apply (list_elem_of_fmap_2 f).
  - exfalso. apply Hnotin. rewrite <- Heq. by apply (list_elem_of_fmap_2 f).
  - by apply IH.
Qed.

Section BuilderProps.
Variable urlparse : string -> ParseResult.
Variable upper : string -> string.
Variable job_url : string.

Local Abbreviation root := (Graph.root urlparse job_url).
Local Abbreviation host link := (netloc (urlparse (lr_url link))).

(** *** Well-formed states *)

Record WF (st : State) : Prop := {
  wf_root : exists rest, nodes st = root :: rest;
  wf_nodup : NoDup (ids st);
  wf_ids : forall id, id ∈ ids st -> counter_id (node_id_counter st) id;
  wf_edges : forall e, e ∈ edges st -> ge_from e ∈ ids st /\ ge_to e ∈ ids st;
  wf_elements : forall p id layer,
    element_nodes st !! p = Some (id, layer) -> id ∈ ids st;
  wf_domains : forall h e,
    external_domains st !! h = Some e -> de_node_id e ∈ ids st
}.

Lemma WF_initial : WF (initial urlparse job_url).
Proof.
  split; unfold ids; simpl.
  - by eexists.
  - apply NoDup_singleton.
  - intros id Hid. apply list_elem_of_singleton in Hid as ->. by left.
  - intros e He. by apply elem_of_nil in He.
  - intros p id layer H. by rewrite lookup_empty in H.
  - intros h e H. by rewrite lookup_empty in H.
Qed.

(** The id of the next node is new. *)
Lemma fresh_id st pre :
  WF st -> pre ∈ prefixes -> node_id pre (node_id_counter st) ∉ ids st.
Proof.
  intros Hwf Hp Hin. apply (wf_ids _ Hwf) in Hin as [Hroot|(pre' & k & Hp' & Hk & Heq)].
  - by apply node_id_not_root in Hroot.
  - apply node_id_inj in Heq as [_ Heq]; [lia|done..].
Qed.

Lemma root_in_ids st : WF st -> "root" ∈ ids st.
Proof.
  intros Hwf. destruct (wf_root _ Hwf) as [rest Hn].
  unfold ids. rewrite Hn. simpl. apply elem_of_cons. by left.
Qed.

(** A step keeps a state well formed when it adds at most one node, under
    the next id, and refers to present nodes only. *)
Lemma WF_step st st' :
  WF st ->
  (nodes st' = nodes st /\ node_id_counter st' = node_id_counter st
   \/ exists n pre,
        pre ∈ prefixes /\ gn_id n = node_id pre (node_id_counter st)
        /\ nodes st' = nodes st ++ [n]
        /\ node_id_counter st' = S (node_id_counter st)) ->
  (forall e, e ∈ edges st' ->
     e ∈ edges st \/ (ge_from e ∈ ids st' /\ ge_to e ∈ ids st')) ->
  (forall p id layer, element_nodes st' !! p = Some (id, layer) ->
     element_nodes st !! p = Some (id, layer) \/ id ∈ ids st') ->
  (forall h e, external_domains st' !! h = Some e ->
     (exists e0, external_domains st !! h = Some e0
                 /\ de_node_id e0 = de_node_id e)
     \/ de_node_id e ∈ ids st') ->
  WF st'.
Proof.
  intros Hwf Hnodes Hedges Helems Hdoms.
  assert (forall id, id ∈ ids st -> id ∈ ids st') as Hmono.
  { intros id Hid. unfold ids in *.
    destruct Hnodes as [[-> _]|(n & pre & _ & _ & -> & _)]; [done|].
    rewrite map_app. apply elem_of_app. by left. }
  split.
  - destruct (wf_root _ Hwf) as [rest Hr].
    destruct Hnodes as [[-> _]|(n & pre & _ & _ & -> & _)].
    + by exists rest.
    + exists (rest ++ [n]). by rewrite Hr.
  - destruct Hnodes as [[Hn _]|(n & pre & Hp & Hid & Hn & _)]; unfold ids.
    + rewrite Hn. apply (wf_nodup _ Hwf).
    + rewrite Hn, map_app. simpl. apply NoDup_app. split; [apply (wf_nodup _ Hwf)|].
      split; [|apply NoDup_singleton].
      intros id Hin Hnew. apply list_elem_of_singleton in Hnew as ->.
      rewrite Hid in Hin. by apply (fresh_id st pre) in Hin.
  - intros id Hin.
    destruct Hnodes as [[Hn Hc]|(n & pre & Hp & Hid & Hn & Hc)];
      unfold ids in Hin; rewrite Hn in Hin; rewrite Hc.
    + by apply (wf_ids _ Hwf).
    + rewrite map_app in Hin. apply elem_of_app in Hin as [Hin|Hin].
      * apply (wf_ids _ Hwf) in Hin as [-> | (pre' & k & Hp' & Hk & ->)];
          [by left|right]. exists pre', k. repeat split; [done|lia].
      * simpl in Hin. apply list_elem_of_singleton in Hin as ->.
        right. exists pre, (node_id_counter st). repeat split; [done|lia|done].
  - intros e He. apply Hedges in He as [He|He]; [|done].
    apply (wf_edges _ Hwf) in He as [Hf Ht]. split; by apply Hmono.
  - intros p id layer H. apply Helems in H as [H|H]; [|done].
    apply Hmono. by apply (wf_elements _ Hwf p id layer).
  - intros h e H. apply Hdoms in H as [(e0 & H & <-)|H]; [|done].
    apply Hmono. by apply (wf_domains _ Hwf h e0).
Qed.

(** Membership in the ids of a state that has one node more. *)
Lemma ids_snoc_old (ns : list GraphNode) (n : GraphNode) (id : string) :
  id ∈ map gn_id ns -> id ∈ map gn_id (ns ++ [n]).
Proof. intros H. rewrite map_app. apply elem_of_app. by left. Qed.

Ltac new_id :=
  rewrite map_app; apply elem_of_app; right; simpl;
  by apply list_elem_of_singleton.

Lemma WF_element_step st item :
  WF st -> WF (element_step urlparse upper job_url st item).
Proof.
  intros Hwf. destruct item as [parent_element element_links].
  unfold element_step. destruct (1 <? length element_links)%nat; [|done].
  apply (WF_step st); [done|..]; simpl.
  - right. eexists _, "element_". split; [unfold prefixes; set_solver|].
    split; [|split; reflexivity]. reflexivity.
  - intros e He. apply elem_of_app in He as [He|He]; [by left|right].
    apply list_elem_of_singleton in He as ->. unfold ids. simpl. split.
    + apply ids_snoc_old, (root_in_ids st Hwf).
    + new_id.
  - intros p id layer H.
    destruct (decide (parent_element = p)) as [->|Hne].
    + rewrite lookup_insert_eq in H. injection H as <- <-. right.
      unfold ids. simpl. new_id.
    + rewrite lookup_insert_ne in H by done. by left.
  - intros h e H. left. by exists e.
Qed.

Lemma WF_internal_step parent_element group_size st link :
  WF st -> WF (internal_step urlparse parent_element group_size st link).
Proof.
  intros Hwf. unfold internal_step.
  apply (WF_step st); [done|..]; simpl.
  - right. eexists _, "internal_". split; [unfold prefixes; set_solver|].
    split; [|split; reflexivity]. reflexivity.
  - intros e He. apply elem_of_app in He as [He|He]; [by left|right].
    apply list_elem_of_singleton in He as ->. unfold ids. simpl. split.
    + apply ids_snoc_old.
      destruct (element_nodes st !! parent_element) as [[group_id layer]|] eqn:Hg;
        [destruct (1 <? group_size)%nat|]; try apply (root_in_ids st Hwf).
      by apply (wf_elements st Hwf parent_element group_id layer).
    + new_id.
  - intros p id layer H. by left.
  - intros h e H. left. by exists e.
Qed.

(** The two cases of the body of the loop over the external links. *)
Lemma external_step_new st link :
  external_domains st !! host link = None ->
  external_step urlparse st link =
  let node_id := node_id "external_" (node_id_counter st) in
  {| nodes := nodes st ++
       [ {| gn_id := node_id; gn_label := host link;
            gn_url := lr_url link; gn_type := external_node;
            gn_domain := host link; gn_layer := 1;
            gn_path := Some (or_else (Some (path (urlparse (lr_url link)))) "/");
            gn_status_code := Some (lr_status_code link);
            gn_is_broken := Some (lr_is_broken link);
            gn_anchor_text := None;
            gn_parent_element :=
              Some (or_else (lr_parent_element link) "body") |} ];
     edges := edges st ++
       [ {| ge_from := "root"; ge_to := node_id;
            ge_path := None; ge_count := Some 1 |} ];
     node_id_counter := S (node_id_counter st);
     element_nodes := element_nodes st;
     external_domains :=
       <[host link := {| de_node_id := node_id; de_count := 1;
                         de_urls := [lr_url link] |}]> (external_domains st) |}.
Proof.
  intros Hnone. unfold external_step. rewrite Hnone. simpl.
  rewrite lookup_insert_eq. simpl. by rewrite insert_insert_eq.
Qed.

Lemma external_step_old st link entry :
  external_domains st !! host link = Some entry ->
  external_step urlparse st link =
  {| nodes := nodes st;
     edges := edges st ++
       [ {| ge_from := "root"; ge_to := de_node_id entry;
            ge_path := None; ge_count := Some (S (de_count entry)) |} ];
     node_id_counter := node_id_counter st;
     element_nodes := element_nodes st;
     external_domains :=
       <[host link := {| de_node_id := de_node_id entry;
                         de_count := S (de_count entry);
                         de_urls := de_urls entry ++ [lr_url link] |}]>
         (external_domains st) |}.
Proof.
  intros Hsome. unfold external_step. rewrite Hsome. simpl.
  by rewrite Hsome.
Qed.

Lemma WF_external_step st link :
  WF st -> WF (external_step urlparse st link).
Proof.
  intros Hwf.
  destruct (external_domains st !! host link) as [entry|] eqn:Hd.
  - rewrite (external_step_old st link entry Hd).
    apply (WF_step st); [done|..]; simpl.
    + by left.
    + intros e He. apply elem_of_app in He as [He|He]; [by left|right].
      apply list_elem_of_singleton in He as ->. unfold ids. simpl. split.
      * apply (root_in_ids st Hwf).
      * by apply (wf_domains st Hwf (host link) entry).
    + intros p id layer H. by left.
    + intros h e H. destruct (decide (host link = h)) as [<-|Hne].
      * rewrite lookup_insert_eq in H. injection H as <-. left. by exists entry.
      * rewrite lookup_insert_ne in H by done. left. by exists e.
  - rewrite (external_step_new st link Hd).
    apply (WF_step st); [done|..]; simpl.
    + right. eexists _, "external_". split; [unfold prefixes; set_solver|].
      split; [|split; reflexivity]. reflexivity.
    + intros e He. apply elem_of_app in He as [He|He]; [by left|right].
      apply list_elem_of_singleton in He as ->. unfold ids. simpl. split.
      * apply ids_snoc_old, (root_in_ids st Hwf).
      * new_id.
    + intros p id layer H. by left.
    + intros h e H. destruct (decide (host link = h)) as [<-|Hne].
      * rewrite lookup_insert_eq in H. injection H as <-. right.
        unfold ids. simpl. new_id.
      * rewrite lookup_insert_ne in H by done. left. by exists e.
Qed.

Lemma WF_fold {X : Type} (f : State -> X -> State) (l : list X) (st : State) :
  (forall st x, WF st -> WF (f st x)) -> WF st -> WF (fold_left f l st).
Proof.
  intros Hf. revert st. induction l as [|x l IH]; intros st Hwf; [done|].
  simpl. apply IH. by apply Hf.
Qed.

Lemma WF_after_internal links :
  WF (after_internal urlparse upper job_url links).
Proof.
  unfold after_internal, after_elements.
  apply WF_fold.
  - intros st [parent_element element_links] Hwf. unfold internal_group_step.
    apply WF_fold; [|done]. intros st' link. apply WF_internal_step.
  - apply WF_fold; [apply WF_element_step|apply WF_initial].
Qed.

Lemma WF_final links : WF (final_state urlparse upper job_url links).
Proof.
  unfold final_state. apply WF_fold; [apply WF_external_step|].
  apply WF_after_internal.
Qed.

(** [max] of a list that is not empty is its greatest element. *)
Lemma py_max_greatest (x : nat) (l : list nat) :
  exists m, py_max (x :: l) = Some m
            /\ m ∈ x :: l /\ forall y, y ∈ x :: l -> y <= m.
Proof.
  unfold py_max. eexists. split; [reflexivity|].
  revert x. induction l as [|z l IH]; intros x; simpl.
  - split; [apply elem_of_cons; by left|].
    intros y Hy. apply list_elem_of_singleton in Hy as ->. lia.
  - destruct (IH (Nat.max x z)) as [Hin Hle]. split.
    + apply elem_of_cons in Hin as [Hin|Hin].
      * rewrite Hin. destruct (Nat.max_spec x z) as [[_ ->]|[_ ->]].
        -- apply elem_of_cons. right. apply elem_of_cons. by left.
        -- apply elem_of_cons. by left.
      * apply elem_of_cons. right. apply elem_of_cons. by right.
    + intros y Hy. apply elem_of_cons in Hy as [->|Hy].
      * specialize (Hle (Nat.max x z)).
        assert (Nat.max x z ∈ Nat.max x z :: l) by (apply elem_of_cons; by left).
        specialize (Hle H). lia.
      * apply elem_of_cons in Hy as [->|Hy].
        -- specialize (Hle (Nat.max x z)).
           assert (Nat.max x z ∈ Nat.max x z :: l) by (apply elem_of_cons; by left).
           specialize (Hle H). lia.
        -- apply Hle. apply elem_of_cons. by right.
Qed.

(** C10.  Whatever the links, the answer of the view is well formed: its
    first node is the root (id [root], layer 0); no two nodes have the
    same id; the two ends of every edge are ids of nodes of the answer;
    and the [layers] statistic is defined, being the greatest layer of a
    node. *)
Theorem graph_well_formed (links : list LinkRow) :
  let g := api_graph_data urlparse upper job_url links in
  (exists rest, gd_nodes g = root :: rest
                /\ gn_id root = "root" /\ gn_layer root = 0)
  /\ NoDup (map gn_id (gd_nodes g))
  /\ (forall e, e ∈ gd_edges g ->
        ge_from e ∈ map gn_id (gd_nodes g)
        /\ ge_to e ∈ map gn_id (gd_nodes g))
  /\ (exists m, st_layers (gd_stats g) = Some m
                /\ m ∈ map gn_layer (gd_nodes g)
                /\ forall n, n ∈ gd_nodes g -> gn_layer n <= m).
Proof.
  pose proof (WF_final links) as Hwf. simpl.
  destruct (wf_root _ Hwf) as [rest Hr]. repeat split.
  - by exists rest.
  - apply (wf_nodup _ Hwf).
  - by apply (wf_edges _ Hwf).
  - by apply (wf_edges _ Hwf).
  - rewrite Hr. simpl.
    destruct (py_max_greatest (gn_layer root) (map gn_layer rest))
      as (m & Hm & Hin & Hle).
    exists m. split; [exact Hm|]. split; [exact Hin|].
    intros n Hn. apply Hle. by apply (list_elem_of_fmap_2 gn_layer) in Hn.
Qed.

(** *** The external links *)






















End BuilderProps.
End GraphProps.

(** *** The builder on concrete links *)

Module GraphExamples.
Import Graph GraphProps.

(** A reading of plain absolute urls, [scheme://host/path], to run the
    builder on: the host is what follows [://] up to the next [/], the
    path is the rest. *)
Fixpoint after_scheme (s : string) : string :=
  match s with
  | String ":" (String "/" (String "/" rest)) => rest
  | String _ rest => after_scheme rest
  | EmptyString => ""
  end.

Fixpoint host_and_path (s : string) : string * string :=
  match s with
  | EmptyString => ("", "")
  | String c rest =>
      if Ascii.eqb c "/" then ("", s)
      else let (h, p) := host_and_path rest in (String c h, p)
  end.

Definition plain_urlparse (url : string) : ParseResult :=
  let (h, p) := host_and_path (after_scheme url) in
  {| netloc := h; path := p |}.

Definition link_row (url : string) (t : LinkType) (parent : string) : LinkRow :=
  {| lr_url := url; lr_link_type := t; lr_anchor_text := "";
     lr_status_code := Some 200%Z; lr_is_broken := false;
     lr_parent_element := Some parent |}.

(** Two internal links below an article inside a section, neither of the
    two tags with an id or a class. *)
Definition section_article_links : list LinkRow :=
  [ link_row "https://example.com/a" internal "section > article";
    link_row "https://example.com/b" internal "section > article" ].

(** Three external links to one host. *)
Definition three_links_one_host : list LinkRow :=
  [ link_row "https://other.org/a" external "body";
    link_row "https://other.org/b" external "nav";
    link_row "https://other.org/" external "footer" ].

(** C8, on its failing input.  The group node of the path
    [section > article] is put on layer 1: the
    split at [#] and [.] leaves the whole path as the base tag, which the
    table does not have, although its leading tag, [section], has layer 2
    there; with an id on the section the layer is 2. *)
Lemma group_layer_of_bare_path :
  re_split_first "section > article" = "section > article"
  /\ dict_get "section" element_layer_map = Some 2
  /\ group_layer "section > article" = 1
  /\ group_layer "section#s1 > article" = 2
  /\ map (fun n => (gn_parent_element n, gn_layer n))
         (filter (fun n => gn_type n = element_group)
            (gd_nodes (api_graph_data plain_urlparse (fun s => s)
                         "https://example.com/" section_article_links)))
     = [(Some "section > article", 1)].
Proof. repeat split; vm_compute; reflexivity. Qed.

(** Three external links to one host give one external node and three
    edges to it, with the counts 1, 2 and 3. *)
Lemma three_links_one_node :
  let g := api_graph_data plain_urlparse (fun s => s)
                          "https://example.com/" three_links_one_host in
  map (fun n => (gn_id n, gn_label n, gn_layer n))
      (filter (fun n => gn_type n = external_node) (gd_nodes g))
    = [("external_0", "other.org", 1)]
  /\ map (fun e => (ge_from e, ge_to e, ge_count e)) (gd_edges g)
    = [("root", "external_0", Some 1); ("root", "external_0", Some 2);
       ("root", "external_0", Some 3)]
  /\ st_external (gd_stats g) = 1.
Proof. repeat split; vm_compute; reflexivity. Qed.

End GraphExamples.

(** ** The overall score *)

Module OverallProps.
Import Audit PyFloat.
Local Open Scope Z_scope.
Local Abbreviation toZ := Uint63.to_Z.

(** *** Rounding on machine integers

    [fast_round] computes [round] for a float that is finite, not negative
    and below [2^52], on 63-bit integers; it is what the enumeration below
    runs. *)
Definition fast_round (x : float) : option int :=
  if is_finite x && negb (PrimFloat.ltb x 0%float) then
    let (m, e) := PrimFloat.frshiftexp (PrimFloat.abs x) in
    let mant := PrimFloat.normfr_mantissa m in
    if ((mant <? 9007199254740992) && (e <=? 2153))%uint63 then
      let k := (2154 - e)%uint63 in
      if (63 <=? k)%uint63 then Some 0%uint63
      else
        let d := (1 << k)%uint63 in
        let q := (mant / d)%uint63 in
        let r := (mant mod d)%uint63 in
        if (2 * r <? d)%uint63 then Some q
        else if (d <? 2 * r)%uint63 then Some (q + 1)%uint63
        else if Uint63.is_even q then Some q else Some (q + 1)%uint63
    else None
  else None.

Lemma wB_value : wB = 9223372036854775808.
Proof. reflexivity. Qed.

Lemma ltb_to_Z (x y : int) : (x <? y)%uint63 = (toZ x <? toZ y).
Proof.
  apply eq_true_iff_eq. rewrite Uint63.ltb_spec. symmetry. apply Z.ltb_lt.
Qed.

Lemma leb_to_Z (x y : int) : (x <=? y)%uint63 = (toZ x <=? toZ y).
Proof.
  apply eq_true_iff_eq. rewrite Uint63.leb_spec. symmetry. apply Z.leb_le.
Qed.

Lemma is_even_to_Z (x : int) : Uint63.is_even x = Z.even (toZ x).
Proof.
  pose proof (Uint63.is_even_spec x) as H. rewrite Zmod_even in H.
  destruct (Uint63.is_even x), (Z.even (toZ x)); congruence.
Qed.

(** The integer part of the rounding, on machine integers and on [Z]. *)
Lemma round_core (mant e : int) :
  toZ mant < 9007199254740992 -> toZ e <= 2153 ->
  let k := (2154 - e)%uint63 in
  let d := (1 << k)%uint63 in
  let q := (mant / d)%uint63 in
  let r := (mant mod d)%uint63 in
  round_half_even (toZ mant) (toZ e - 2154) =
  toZ (if (63 <=? k)%uint63 then 0%uint63
     else if (2 * r <? d)%uint63 then q
     else if (d <? 2 * r)%uint63 then (q + 1)%uint63
     else if Uint63.is_even q then q else (q + 1)%uint63).
Proof.
  intros Hm He k d q r.
  pose proof (Uint63.to_Z_bounded mant) as Bm.
  pose proof (Uint63.to_Z_bounded e) as Be.
  rewrite wB_value in *.
  assert (toZ k = 2154 - toZ e) as Hk.
  { unfold k. rewrite Uint63.sub_spec, wB_value.
    change (toZ 2154%uint63) with 2154. apply Z.mod_small. lia. }
  unfold round_half_even.
  replace (0 <=? toZ e - 2154) with false by (symmetry; apply Z.leb_gt; lia).
  replace (- (toZ e - 2154)) with (toZ k) by lia.
  rewrite leb_to_Z. change (toZ 63%uint63) with 63.
  destruct (63 <=? toZ k) eqn:Hbig.
  - apply Z.leb_le in Hbig. change (toZ 0%uint63) with 0.
    assert (2 ^ 63 <= 2 ^ toZ k) as Hpow by (apply Z.pow_le_mono_r; lia).
    change (2 ^ 63) with 9223372036854775808 in Hpow.
    rewrite Z.div_small, Z.mod_small by lia.
    replace (2 * toZ mant <? 2 ^ toZ k) with true
      by (symmetry; apply Z.ltb_lt; lia).
    reflexivity.
  - apply Z.leb_gt in Hbig.
    assert (0 < 2 ^ toZ k <= 4611686018427387904) as Hpow.
    { split; [apply Z.pow_pos_nonneg; lia|].
      change 4611686018427387904 with (2 ^ 62).
      apply Z.pow_le_mono_r; lia. }
    assert (toZ d = 2 ^ toZ k) as Hd.
    { unfold d. rewrite Uint63.lsl_spec, wB_value.
      change (toZ 1%uint63) with 1. rewrite Z.mul_1_l.
      apply Z.mod_small. lia. }
    assert (toZ q = toZ mant / 2 ^ toZ k) as Hq
      by (unfold q; by rewrite Uint63.div_spec, Hd).
    assert (toZ r = toZ mant mod 2 ^ toZ k) as Hr
      by (unfold r; by rewrite Uint63.mod_spec, Hd).
    pose proof (Z.mod_pos_bound (toZ mant) (2 ^ toZ k) ltac:(lia)) as Br.
    assert (0 <= toZ mant / 2 ^ toZ k <= toZ mant) as Bq.
    { split; [apply Z.div_pos; lia|].
      apply Z.div_le_upper_bound; [lia|]. nia. }
    assert (toZ (2 * r)%uint63 = 2 * (toZ mant mod 2 ^ toZ k)) as H2r.
    { rewrite Uint63.mul_spec, wB_value, Hr.
      change (toZ 2%uint63) with 2. apply Z.mod_small. lia. }
    assert (toZ (q + 1)%uint63 = toZ mant / 2 ^ toZ k + 1) as Hq1.
    { rewrite Uint63.add_spec, wB_value, Hq.
      change (toZ 1%uint63) with 1. apply Z.mod_small. lia. }
    rewrite !ltb_to_Z, H2r, Hd, is_even_to_Z, Hq.
    destruct (2 * (toZ mant mod 2 ^ toZ k) <? 2 ^ toZ k); [exact (eq_sym Hq)|].
    destruct (2 ^ toZ k <? 2 * (toZ mant mod 2 ^ toZ k)); [exact (eq_sym Hq1)|].
    destruct (Z.even (toZ mant / 2 ^ toZ k)); [exact (eq_sym Hq)|exact (eq_sym Hq1)].
Qed.

(** [fast_round] agrees with [round] wherever it answers. *)
Lemma fast_round_correct (x : float) (n : int) :
  fast_round x = Some n -> py_round x = Some (toZ n).
Proof.
  unfold fast_round, py_round, decode, with_sign.
  destruct (is_finite x); [|done]. simpl andb.
  destruct (PrimFloat.ltb x 0%float); [done|]. simpl negb. cbv iota.
  destruct (PrimFloat.frshiftexp (PrimFloat.abs x)) as [m e].
  set (mant := PrimFloat.normfr_mantissa m).
  rewrite ltb_to_Z, leb_to_Z.
  change (toZ 9007199254740992%uint63) with 9007199254740992.
  change (toZ 2153%uint63) with 2153.
  destruct (toZ mant <? 9007199254740992) eqn:Hm; [|done].
  destruct (toZ e <=? 2153) eqn:He; [|done]. simpl andb. cbv iota.
  apply Z.ltb_lt in Hm. apply Z.leb_le in He.
  intros Hn. f_equal. rewrite (round_core mant e Hm He). cbv zeta.
  f_equal.
  destruct (63 <=? 2154 - e)%uint63; [congruence|].
  destruct (2 * (mant mod (1 << (2154 - e))) <? 1 << (2154 - e))%uint63;
    [congruence|].
  destruct (1 << (2154 - e) <? 2 * (mant mod (1 << (2154 - e))))%uint63;
    [congruence|].
  destruct (Uint63.is_even (mant / (1 << (2154 - e)))); congruence.
Qed.

(** *** All the combinations of sub-scores

    The enumeration goes in two steps.  The two terms with the weight 0.25
    add up as their sum does: for all [p], [a] and [b] the float
    [p * 0.3 + a * 0.25 + b * 0.25] is the float [p * 0.3 + (a + b) * 0.25].
    The rounding is then checked for every [p], every sum [c = a + b] and
    every [s]. *)

Definition scores : list Z := map Z.of_nat (seq 0 101).
Definition score_sums : list Z := map Z.of_nat (seq 0 201).

Lemma in_scores (z : Z) : 0 <= z <= 100 -> In z scores.
Proof.
  intros Hz. unfold scores. rewrite <- (Z2Nat.id z) by lia.
  apply in_map, in_seq. lia.
Qed.

Lemma in_score_sums (z : Z) : 0 <= z <= 200 -> In z score_sums.
Proof.
  intros Hz. unfold score_sums. rewrite <- (Z2Nat.id z) by lia.
  apply in_map, in_seq. lia.
Qed.

(** The two weights that are not binary fractions, as Python reads them. *)
#[warnings="-inexact-float"]
Definition weight_30 : float := 0.3.

#[warnings="-inexact-float"]
Definition weight_20 : float := 0.2.

(** The float term of a sub-score of weight 0.25. *)
Definition quarter (score : Z) : float := (float_of_int score * 0.25)%float.

(** The term of one sub-score in the sum: twenty times its exact share, as
    a machine integer, and its float. *)
Definition term (weight20 : Z) (weight : float) (score : Z) : int * float :=
  (Uint63.of_Z (weight20 * score), (float_of_int score * weight)%float).

(** First step: adding two quarters to [fp] one after the other gives the
    float that adding the quarter of their sum gives. *)
Definition quarters_add_up (fps : list float) (xs ys : list Z) : bool :=
  forallb (fun fp =>
    forallb (fun a =>
      let f2 := (fp + quarter a)%float in
      forallb (fun b =>
        PrimFloat.Leibniz.eqb (f2 + quarter b)%float
                              (fp + quarter (a + b))%float) ys) xs) fps.

Lemma quarters_add_up_spec fps xs ys :
  quarters_add_up fps xs ys = true ->
  forall fp a b, In fp fps -> In a xs -> In b ys ->
    (fp + quarter a + quarter b)%float = (fp + quarter (a + b))%float.
Proof.
  unfold quarters_add_up. intros H fp a b Hp Ha Hb.
  rewrite forallb_forall in H. specialize (H fp Hp).
  rewrite forallb_forall in H. specialize (H a Ha).
  rewrite forallb_forall in H. specialize (H b Hb).
  by apply FloatAxioms.Leibniz.eqb_spec in H.
Qed.

(** The float sum [x] rounds to an integer within one half of [K / 20]. *)
Definition case_ok (K : int) (x : float) : bool :=
  match fast_round x with
  | Some n =>
      ((n <=? 200) && (20 * n <=? K + 10) && (K <=? 20 * n + 10))%uint63
  | None => false
  end.

(** Second step: every combination of one term from each list passes
    [case_ok]. *)
Definition all_cases_ok (ps cs seos : list (int * float)) : bool :=
  forallb (fun p =>
    forallb (fun c =>
      let k2 := (fst p + fst c)%uint63 in
      let f2 := (snd p + snd c)%float in
      forallb (fun s => case_ok (k2 + fst s)%uint63 (f2 + snd s)%float)
              seos) cs) ps.

Lemma all_cases_ok_spec ps cs seos :
  all_cases_ok ps cs seos = true ->
  forall p c s, In p ps -> In c cs -> In s seos ->
    case_ok (fst p + fst c + fst s)%uint63
            (snd p + snd c + snd s)%float = true.
Proof.
  unfold all_cases_ok. intros H p c s Hp Hc Hs.
  rewrite forallb_forall in H. specialize (H p Hp).
  rewrite forallb_forall in H. specialize (H c Hc).
  rewrite forallb_forall in H. exact (H s Hs).
Qed.

(** The two enumerations, [101 ^ 3] and [101 * 201 * 101] cases, run by
    the kernel. *)
Lemma all_quarters_add_up :
  quarters_add_up (map (fun p => float_of_int p * weight_30)%float scores)
                  scores scores = true.
Proof. vm_cast_no_check (eq_refl true). Qed.

Lemma all_scores_ok :
  all_cases_ok (map (term 6 weight_30) scores) (map (term 5 0.25) score_sums)
               (map (term 4 weight_20) scores)
  = true.
Proof. vm_cast_no_check (eq_refl true). Qed.

Lemma to_Z_term_sum (p c s : Z) :
  0 <= p <= 100 -> 0 <= c <= 200 -> 0 <= s <= 100 ->
  toZ (Uint63.of_Z (6 * p) + Uint63.of_Z (5 * c) + Uint63.of_Z (4 * s))%uint63
  = 6 * p + 5 * c + 4 * s.
Proof.
  intros Hp Hc Hs.
  rewrite !Uint63.add_spec, !Uint63.of_Z_spec, wB_value.
  rewrite !(Z.mod_small (6 * p)), !(Z.mod_small (5 * c)),
    !(Z.mod_small (4 * s)) by lia.
  rewrite (Z.mod_small (6 * p + 5 * c)) by lia.
  apply Z.mod_small. lia.
Qed.

(** C3.  For sub-scores that are integers between 0 and 100, the overall
    score, [round] of the weighted sum computed in floats with the weights
    0.3, 0.25, 0.25 and 0.2, is defined and is an integer nearest to the
    exact weighted combination [(6p + 5a + 5b + 4s) / 20]: it differs from
    it by one half at most, and lies between 0 and 100. *)
Theorem overall_score_nearest (p a b s : Z) :
  0 <= p <= 100 -> 0 <= a <= 100 -> 0 <= b <= 100 -> 0 <= s <= 100 ->
  exists n : Z,
    overall_score p a b s = Some n
    /\ Z.abs (20 * n - (6 * p + 5 * a + 5 * b + 4 * s)) <= 10
    /\ 0 <= n <= 100.
Proof.
  intros Hp Ha Hb Hs.
  assert (0 <= a + b <= 200) as Hc by lia.
  pose proof (quarters_add_up_spec _ _ _ all_quarters_add_up
                (float_of_int p * weight_30)%float a b
                (in_map _ _ _ (in_scores p Hp)) (in_scores a Ha)
                (in_scores b Hb)) as Hsum.
  pose proof (all_cases_ok_spec _ _ _ all_scores_ok
                (term 6 weight_30 p) (term 5 0.25 (a + b))
                (term 4 weight_20 s)
                (in_map _ _ _ (in_scores p Hp))
                (in_map _ _ _ (in_score_sums (a + b) Hc))
                (in_map _ _ _ (in_scores s Hs)))
    as H.
  unfold term in H. cbn [fst snd] in H.
  fold (quarter (a + b)) in H. rewrite <- Hsum in H.
  unfold case_ok in H.
  destruct (fast_round _) as [n|] eqn:Hround; [|discriminate].
  apply fast_round_correct in Hround.
  exists (toZ n). split.
  { unfold overall_score, weighted_sum.
    unfold weight_30, weight_20, quarter in Hround. exact Hround. }
  apply andb_prop in H as [H Hupper]. apply andb_prop in H as [Hsmall Hlower].
  apply Uint63.leb_spec in Hsmall, Hlower, Hupper.
  change (toZ 200%uint63) with 200 in Hsmall.
  pose proof (Uint63.to_Z_bounded n) as Bn.
  pose proof (to_Z_term_sum p (a + b) s Hp Hc Hs) as HK.
  assert (toZ (20 * n)%uint63 = 20 * toZ n) as H20.
  { rewrite Uint63.mul_spec, wB_value. change (toZ 20%uint63) with 20.
    apply Z.mod_small. lia. }
  rewrite (Uint63.add_spec _ 10%uint63), HK, H20, wB_value in Hlower.
  rewrite (Uint63.add_spec _ 10%uint63), HK, H20, wB_value in Hupper.
  change (toZ 10%uint63) with 10 in *.
  rewrite Z.mod_small in Hupper by lia.
  rewrite Z.mod_small in Hlower by lia.
  lia.
Qed.

(** The theorem at the sub-scores 90, 80, 70 and 60. *)
Lemma overall_score_nearest_witness :
  (0 <= 90 <= 100) /\ (0 <= 80 <= 100) /\ (0 <= 70 <= 100)
  /\ (0 <= 60 <= 100)
  /\ exists n : Z,
       overall_score 90 80 70 60 = Some n
       /\ Z.abs (20 * n - (6 * 90 + 5 * 80 + 5 * 70 + 4 * 60)) <= 10
       /\ 0 <= n <= 100.
Proof.
  repeat (split; [lia|]).
  apply (overall_score_nearest 90 80 70 60); lia.
Defined.

(** [round] on some values: ties go to the even integer, and the float
    sum of a tie need not be the tie. *)
Lemma py_round_examples :
  py_round 0.5%float = Some 0 /\ py_round 1.5%float = Some 2
  /\ py_round 2.5%float = Some 2 /\ py_round (-2.5)%float = Some (-2)
  /\ py_round 76.5%float = Some 76 /\ py_round 3%float = Some 3
  /\ py_round PrimFloat.nan = None
  /\ overall_score 90 80 70 60 = Some 76
  /\ overall_score 1 0 0 41 = Some 9
  /\ overall_score 100 100 100 100 = Some 100.
Proof. repeat split; vm_compute; reflexivity. Qed.

End OverallProps.

(** * Further properties of the engine and of the view *)

(** ** Induction on parsed pages *)

(** Induction on a page with the hypothesis for every child of a tag. *)
Fixpoint Node_forall_ind (P : Node -> Prop)
    (Htag : forall name attrs classes children,
        Forall P children -> P (Tag name attrs classes children))
    (Hstring : forall text, P (NavigableString text))
    (n : Node) : P n :=
  match n with
  | Tag name attrs classes children =>
      Htag name attrs classes children
        ((fix all (l : list Node) : Forall P l :=
            match l with
            | [] => @List.Forall_nil Node P
            | x :: rest =>
                @List.Forall_cons Node P x rest
                  (Node_forall_ind P Htag Hstring x) (all rest)
            end) children)
  | NavigableString text => Hstring text
  end.

(** ** More on the structure tree *)

Module StructureMore.
Import Structure StructureProps.

(** The number of levels of a structure tree. *)
Fixpoint height (t : StructureNode) : nat :=
  S (foldr (fun child acc => Nat.max (height child) acc) 0 (sn_children t)).

(** How many of the nodes [l] are tags named [name]. *)
Definition count_named (name : string) (l : list Node) : nat :=
  length (filter (fun n => Dom.name_of n = Some name) l).

Lemma find_some p soup n : Dom.find p soup = Some n -> p n = true.
Proof.
  unfold Dom.find, Dom.find_all. intros H.
  assert (n ∈ filter (fun n => p n = true) (map fst (Dom.descendants [] soup)))
    as Hin.
  { destruct (filter _ _) as [|x l]; [done|]. simpl in H. injection H as ->.
    apply elem_of_cons. by left. }
  by apply list_elem_of_filter in Hin as [Hp _].
Qed.

Lemma build_tree_height element :
  forall depth max_depth t,
    build_tree element depth max_depth = Some t ->
    depth + height t <= S max_depth.
Proof.
  induction element as [name attrs classes children IH|text]
    using Node_forall_ind; intros depth max_depth t Ht.
  - rewrite build_tree_tag in Ht.
    destruct (max_depth <? depth)%nat eqn:Hd; [done|].
    apply Nat.ltb_ge in Hd.
    destruct (bool_decide (name ∈ semantic_tags)); [|done].
    injection Ht as <-. simpl.
    assert (depth +
            foldr (fun child acc => Nat.max (height child) acc) 0
              (omap (fun child => build_tree child (S depth) max_depth) children)
            <= max_depth) as Hmax; [|lia].
    induction children as [|child rest IHrest]; simpl; [lia|].
    apply Forall_cons in IH as [IHchild IHall].
    specialize (IHrest IHall).
    destruct (build_tree child (S depth) max_depth) as [t'|] eqn:Hchild;
      [|exact IHrest].
    simpl. unfold omap in IHrest. specialize (IHchild _ _ _ Hchild). lia.
  - simpl in Ht. by destruct (max_depth <? depth)%nat.
Qed.

Lemma build_tree_tags element :
  forall depth max_depth t,
    build_tree element depth max_depth = Some t ->
    Forall (fun tag => tag ∈ semantic_tags) (tree_tags t).
Proof.
  induction element as [name attrs classes children IH|text]
    using Node_forall_ind; intros depth max_depth t Ht.
  - rewrite build_tree_tag in Ht.
    destruct (max_depth <? depth)%nat; [done|].
    case_bool_decide as Hsem; [|done].
    injection Ht as <-. simpl. apply Forall_cons. split; [done|].
    induction children as [|child rest IHrest]; simpl; [done|].
    apply Forall_cons in IH as [IHchild IHall].
    specialize (IHrest IHall).
    destruct (build_tree child (S depth) max_depth) as [t'|] eqn:Hchild;
      [|exact IHrest].
    simpl. apply Forall_app. split; [by eapply IHchild|exact IHrest].
  - simpl in Ht. by destruct (max_depth <? depth)%nat.
Qed.

(** X1.  The structure tree of a page has five levels at most: its root
    is at depth 0 and no node is deeper than 4.  In general a tree built
    from depth [d] with the cap [max_depth] has at most
    [max_depth - d + 1] levels. *)
Theorem structure_tree_depth (soup : Node) (t : StructureNode) :
  _extract_html_structure soup = Some t ->
  height t <= 5
  /\ forall element depth max_depth t',
       build_tree element depth max_depth = Some t' ->
       depth <= max_depth /\ height t' <= max_depth - depth + 1.
Proof.
  intros Ht. split.
  - unfold _extract_html_structure in Ht.
    destruct (Dom.find (Dom.has_name "body") soup) as [body|]; [|done].
    apply build_tree_height in Ht. lia.
  - intros element depth max_depth t' Ht'.
    pose proof (build_tree_height _ _ _ _ Ht') as Hh.
    assert (1 <= height t') by (destruct t'; simpl; lia). lia.
Qed.

Lemma structure_tree_depth_witness :
  _extract_html_structure wrapped_section_page =
    Some {| sn_tag := "body"; sn_id := ""; sn_classes := [];
            sn_children := []; sn_child_counts := [("p", 1)] |}
  /\ height {| sn_tag := "body"; sn_id := ""; sn_classes := [];
               sn_children := []; sn_child_counts := [("p", 1)] |} <= 5.
Proof.
  split; [reflexivity|].
  apply (structure_tree_depth wrapped_section_page _ eq_refl).
Defined.

(** X2.  The structure tree of a page is rooted at its body and holds
    tags of the semantic set only; a page without a body has no tree. *)
Theorem structure_tree_tags (soup : Node) :
  (forall t, _extract_html_structure soup = Some t ->
     sn_tag t = "body"
     /\ Forall (fun tag => tag ∈ semantic_tags) (tree_tags t))
  /\ (Dom.find (Dom.has_name "body") soup = None ->
      _extract_html_structure soup = None).
Proof.
  split.
  - intros t Ht. unfold _extract_html_structure in Ht.
    destruct (Dom.find (Dom.has_name "body") soup) as [body|] eqn:Hbody;
      [|done].
    split; [|by eapply build_tree_tags].
    apply find_some in Hbody. apply build_tree_some in Ht as (Hname & _).
    destruct body as [name attrs classes children|text]; [|done].
    simpl in *. apply String.eqb_eq in Hbody. congruence.
  - intros Hnone. unfold _extract_html_structure. by rewrite Hnone.
Qed.

Lemma bump_lookup tag name counts :
  Graph.dict_get tag (bump name counts) =
  if String.eqb name tag
  then Some (S (default 0 (Graph.dict_get tag counts)))
  else Graph.dict_get tag counts.
Proof.
  induction counts as [|[k c] rest IH]; simpl.
  - destruct (String.eqb_spec name tag) as [->|Hne]; [done|].
    by destruct (String.eqb_spec name tag).
  - destruct (String.eqb_spec k name) as [->|Hk]; simpl.
    + by destruct (String.eqb_spec name tag).
    + destruct (String.eqb_spec k tag) as [->|Hkt].
      * destruct (String.eqb_spec name tag) as [->|Hne]; [done|done].
      * exact IH.
Qed.

Lemma bump_keys name counts :
  NoDup (map fst counts) ->
  NoDup (map fst (bump name counts))
  /\ forall k, k ∈ map fst (bump name counts) <-> k = name \/ k ∈ map fst counts.
Proof.
  induction counts as [|[k c] rest IH]; intros Hnd; simpl.
  - split; [apply NoDup_singleton|]. intros k'.
    rewrite list_elem_of_singleton, elem_of_nil. tauto.
  - simpl in Hnd. apply NoDup_cons in Hnd as [Hk Hnd].
    destruct (IH Hnd) as [IHnd IHin].
    destruct (String.eqb_spec k name) as [->|Hkn]; simpl.
    + split; [by apply NoDup_cons|]. intros k'. rewrite elem_of_cons. tauto.
    + split.
      * apply NoDup_cons. split; [|done]. rewrite IHin. tauto.
      * intros k'. rewrite !elem_of_cons, IHin. tauto.
Qed.

(** The loop that counts the children, from any dict built so far. *)
Lemma count_loop tag children counts :
  tag <> "" ->
  Graph.dict_get tag
    (fold_left
       (fun counts child =>
          match Dom.name_of child with
          | Some name => if String.eqb name "" then counts else bump name counts
          | None => counts
          end) children counts) =
  match Graph.dict_get tag counts, count_named tag children with
  | None, 0 => None
  | found, c => Some (default 0 found + c)
  end.
Proof.
  intros Htag. revert counts.
  induction children as [|child rest IH]; intros counts.
  - unfold count_named. rewrite filter_nil. simpl.
    destruct (Graph.dict_get tag counts); [f_equal; simpl; lia|done].
  - simpl. rewrite IH. unfold count_named. rewrite filter_cons.
    destruct (Dom.name_of child) as [name|] eqn:Hname.
    + destruct (String.eqb_spec name "") as [->|Hne].
      * rewrite decide_False by congruence. done.
      * rewrite bump_lookup.
        destruct (String.eqb_spec name tag) as [->|Hnt].
        -- rewrite decide_True by done. simpl.
           destruct (Graph.dict_get tag counts); simpl; f_equal; lia.
        -- rewrite decide_False by congruence. done.
    + rewrite decide_False by done. done.
Qed.

Lemma count_loop_keys children counts :
  NoDup (map fst counts) ->
  NoDup (map fst
    (fold_left
       (fun counts child =>
          match Dom.name_of child with
          | Some name => if String.eqb name "" then counts else bump name counts
          | None => counts
          end) children counts)).
Proof.
  revert counts. induction children as [|child rest IH]; intros counts Hnd;
    [done|].
  simpl. apply IH. destruct (Dom.name_of child) as [name|]; [|done].
  destruct (String.eqb name ""); [done|]. by apply bump_keys.
Qed.

(** X3.  The child counts of a node of the structure tree count every
    direct child tag of the element, semantic or not: a tag name is a key
    once at most, and it is a key exactly when a child has that name, with
    the number of such children as its value. *)
Theorem child_counts_count_all
    (name : string) (attrs : list (string * string)) (classes : list string)
    (children : list Node) (depth max_depth : nat) (node : StructureNode) :
  build_tree (Tag name attrs classes children) depth max_depth = Some node ->
  NoDup (map fst (sn_child_counts node))
  /\ forall tag, tag <> "" ->
       Graph.dict_get tag (sn_child_counts node) =
       match count_named tag children with
       | 0 => None
       | S c => Some (S c)
       end.
Proof.
  rewrite build_tree_tag.
  destruct (max_depth <? depth)%nat; [done|].
  destruct (bool_decide (name ∈ semantic_tags)); [|done].
  intros [= <-]. simpl. unfold count_children. split.
  - apply count_loop_keys. apply NoDup_nil_2.
  - intros tag Htag. rewrite count_loop by done. simpl.
    by destruct (count_named tag children).
Qed.

Lemma child_counts_count_all_witness :
  build_tree (Tag "body" [] [] [wrapped_section]) 0 4 =
    Some {| sn_tag := "body"; sn_id := ""; sn_classes := [];
            sn_children := []; sn_child_counts := [("p", 1)] |}
  /\ Graph.dict_get "p" [("p", 1)] = Some 1.
Proof.
  split; [reflexivity|].
  exact (proj2 (child_counts_count_all "body" [] [] [wrapped_section] 0 4
                  {| sn_tag := "body"; sn_id := ""; sn_classes := [];
                     sn_children := []; sn_child_counts := [("p", 1)] |}
                  eq_refl)
               "p" ltac:(discriminate)).
Defined.

End StructureMore.

(** ** More on the links and on their check *)

Module LinksMore.
Import Links LinkStatus LinkStatusProps.


Section ExtractMore.
Variable urljoin : string -> string -> string.
Variable netloc : string -> string.
Variable get_text_strip : Node -> string.


End ExtractMore.

Section CheckerMore.
Context {Net : Type}.
Variable session_head : Net -> string -> ProbeOutcome * Net.

(** The record a link gets is consistent: with a status, it is broken
    exactly from 400 on. *)
Definition consistent (c : CheckedLink) : Prop :=
  match cl_status_code c with
  | Some code => cl_is_broken c = (400 <=? code)%Z
  | None => True
  end.

Lemma check_loop_links net links :
  map cl_link (check_loop session_head net links).1.1 = links
  /\ Forall consistent (check_loop session_head net links).1.1.
Proof.
  revert net. induction links as [|link rest IH]; intros net; simpl;
    [split; [done|constructor]|].
  pose proof (probe_link_outcome session_head net link) as Hp.
  destruct (probe_link session_head net link) as [checked net1].
  specialize (IH net1).
  destruct (check_loop session_head net1 rest) as [[others net2] trace].
  simpl in *. destruct IH as [IHl IHc]. subst checked.
  split.
  - f_equal; [|done]. by destruct (session_head net (el_url link)).1.
  - apply Forall_cons. split; [|done]. unfold consistent.
    by destruct (session_head net (el_url link)).1.
Qed.

Lemma check_link_status_links_trace (net : Net) (links : list ExtractedLink)
    (max_checks : nat) :
  let r := _check_link_status session_head net links max_checks in
  map cl_link r.1.1 = links
  /\ r.2 = flat_map (fun l => [EvHead (el_url l); EvSleep])
                    (take max_checks links)
  /\ length r.2 = 2 * Nat.min max_checks (length links).
Proof.
  unfold _check_link_status.
  pose proof (check_loop_trace session_head net (take max_checks links))
    as Htrace.
  pose proof (check_loop_links net (take max_checks links)) as [Hl _].
  destruct (check_loop session_head net (take max_checks links))
    as [[probed net'] trace]; simpl in *.
  split; [|split; [done|]].
  - rewrite map_app, Hl, map_map. simpl. rewrite map_id. apply take_drop.
  - subst trace. clear Hl. rewrite <- (length_take links max_checks).
    induction (take max_checks links) as [|l ls IH]; simpl; lia.
Qed.


End CheckerMore.
End LinksMore.

(** ** More on the analysis *)

Module CrawlerMore.
Import Crawler LinkStatus LinkStatusProps.

Lemma count_types (links : list CheckedLink) :
  count_type internal links + count_type external links = length links.
Proof.
  unfold count_type. induction links as [|l links IH]; [done|].
  rewrite !filter_cons. simpl.
  destruct (el_link_type (cl_link l)).
  - rewrite decide_True, decide_False by done. simpl. lia.
  - rewrite decide_False, decide_True by done. simpl. lia.
Qed.

Section CrawlMore.
Context {Net Json Details : Type}.
Variable session_get : Net -> string -> Z -> FetchOutcome * Net.
Variable session_head : Net -> string -> ProbeOutcome * Net.
Variable BeautifulSoup : string -> Node.
Variable get_text_strip : Node -> string.
Variable urljoin : string -> string -> string.
Variable netloc : string -> string.
Variable round2 : Q -> Q.
Variable _extract_schema_markup : Node -> list Json.
Variable _analyze_best_practices : Node -> Response -> option Z.
Variable _analyze_seo : Node -> option Z.
Variable details_of : Node -> Response -> Q -> option Details.

(** X6.  In every result of [crawl], failed or not, [total_links] is the
    number of links returned and the sum of [internal_links] and
    [external_links]; the result has a page info exactly when it is a
    success and an error exactly when it is not; and the analysis has
    issued one HEAD request, each followed by one pause, for each of the
    first 50 links and nothing else, so two events per link up to 100. *)
Theorem crawl_result_counts (self_url : string) (timeout : Z) (net : Net) :
  let '(result, _, trace) :=
    crawl session_get session_head BeautifulSoup get_text_strip urljoin netloc
          round2 _extract_schema_markup _analyze_best_practices _analyze_seo
          details_of self_url timeout net in
  cr_total_links result = length (cr_links result)
  /\ cr_internal_links result + cr_external_links result
     = cr_total_links result
  /\ (cr_success result = true <-> is_Some (cr_page_info result))
  /\ (cr_success result = false <-> is_Some (cr_error result))
  /\ trace = flat_map (fun l => [EvHead (el_url (cl_link l)); EvSleep])
                      (take 50 (cr_links result))
  /\ length trace = 2 * Nat.min 50 (cr_total_links result).
Proof.
  unfold crawl.
  destruct (session_get net self_url timeout) as [[response response_time|message] net1].
  - pose proof (LinksMore.check_link_status_links_trace session_head net1
                  (Links._extract_links urljoin netloc get_text_strip self_url
                     (BeautifulSoup (resp_content response))) 50) as Hcheck.
    destruct (_check_link_status session_head net1 _ 50)
      as [[links_with_status net2] trace].
    destruct Hcheck as (Hlinks & Htrace & Hlen). simpl in Hlinks, Htrace, Hlen.
    simpl.
    split; [done|]. split; [apply count_types|].
    split; [split; [by eexists|done]|].
    split; [split; [done|by intros [? ?]]|].
    split.
    + rewrite Htrace, <- Hlinks. rewrite <- fmap_take.
      induction (take 50 links_with_status) as [|l ls IH]; [done|].
      simpl. do 2 f_equal. exact IH.
    + rewrite Hlen, <- Hlinks. by rewrite length_map.
  - simpl. split; [done|]. split; [done|].
    split; [split; [done|by intros [? ?]]|].
    split; [split; [by eexists|done]|]. done.
Qed.

End CrawlMore.
End CrawlerMore.

(** ** More on the performance score *)

Module PerformanceMore.
Import Audit AuditProps.

Lemma response_time_penalty_mono (t t' : Q) :
  (t <= t')%Q -> (response_time_penalty t <= response_time_penalty t')%Z.
Proof.
  intros Hle. unfold response_time_penalty.
  destruct (Qgtb t 3) eqn:H3; destruct (Qgtb t' 3) eqn:H3';
  destruct (Qgtb t 2) eqn:H2; destruct (Qgtb t' 2) eqn:H2';
  destruct (Qgtb t 1) eqn:H1; destruct (Qgtb t' 1) eqn:H1';
  destruct (Qgtb t (1 # 2)) eqn:H0; destruct (Qgtb t' (1 # 2)) eqn:H0';
  try lia;
  repeat match goal with
         | H : Qgtb _ _ = true |- _ => apply Qgtb_true in H
         | H : Qgtb _ _ = false |- _ => apply Qgtb_false in H
         end;
  exfalso; unfold Qlt, Qle in *; simpl in *; nia.
Qed.

Lemma page_size_penalty_mono (n n' : Z) :
  (n <= n')%Z -> (page_size_penalty n <= page_size_penalty n')%Z.
Proof.
  intros Hle. unfold page_size_penalty.
  set (mb := (inject_Z n / inject_Z (1024 * 1024))%Q).
  set (mb' := (inject_Z n' / inject_Z (1024 * 1024))%Q).
  destruct (Qgtb mb 5) eqn:H5, (Qgtb mb' 5) eqn:H5',
           (Qgtb mb 3) eqn:H3, (Qgtb mb' 3) eqn:H3',
           (Qgtb mb 1) eqn:H1, (Qgtb mb' 1) eqn:H1';
  try lia;
  first [apply (size_mb_gt n 5) in H5 | apply (size_mb_le n 5) in H5];
  first [apply (size_mb_gt n' 5) in H5' | apply (size_mb_le n' 5) in H5'];
  first [apply (size_mb_gt n 3) in H3 | apply (size_mb_le n 3) in H3];
  first [apply (size_mb_gt n' 3) in H3' | apply (size_mb_le n' 3) in H3'];
  first [apply (size_mb_gt n 1) in H1 | apply (size_mb_le n 1) in H1];
  first [apply (size_mb_gt n' 1) in H1' | apply (size_mb_le n' 1) in H1'];
  lia.
Qed.

(** X7.  The performance score is one of 30, 40, ..., 100: the two
    penalties add up to 70 at most, so the clamp at 0 never acts.  A page
    that answers no faster and weighs no less never scores higher. *)
Theorem performance_score_range_and_order
    (response_time response_time' : Q) (page_size page_size' : Z) :
  (30 <= _calculate_performance_score response_time page_size <= 100)%Z
  /\ (exists k : Z,
        _calculate_performance_score response_time page_size = (10 * k)%Z)
  /\ _calculate_performance_score response_time page_size
     = (100 - response_time_penalty response_time
            - page_size_penalty page_size)%Z
  /\ ((response_time <= response_time')%Q -> (page_size <= page_size')%Z ->
      (_calculate_performance_score response_time' page_size'
       <= _calculate_performance_score response_time page_size)%Z).
Proof.
  assert (forall t n,
            (_calculate_performance_score t n =
             100 - response_time_penalty t - page_size_penalty n)%Z
            /\ (30 <= _calculate_performance_score t n <= 100)%Z
            /\ exists k, _calculate_performance_score t n = (10 * k)%Z) as H.
  { intros t n.
    unfold _calculate_performance_score, response_time_penalty,
      page_size_penalty.
    repeat match goal with |- context [if ?b then _ else _] => destruct b end;
      (split; [lia|split; [lia|]]);
      match goal with
      | |- exists k, Z.max 0 ?v = _ =>
          exists (Z.max 0 v / 10)%Z; reflexivity
      end. }
  destruct (H response_time page_size) as (Heq & Hr & Hk).
  split; [done|]. split; [done|]. split; [done|].
  intros Ht Hn.
  destruct (H response_time' page_size') as (Heq' & _ & _).
  pose proof (response_time_penalty_mono _ _ Ht).
  pose proof (page_size_penalty_mono _ _ Hn). lia.
Qed.

End PerformanceMore.

(** ** The SEO and best-practices analysers *)

Module AnalysersProps.
Import Analysers.


Section SeoProps.
Context {Json : Type}.
Variable get_text_strip : Node -> string.
Variable lower : string -> string.
Variable has_rel : string -> Node -> bool.
Variable script_string : Node -> option string.
Variable json_loads : string -> option Json.













End SeoProps.

Section BestPracticesProps.
Variable str_of_soup : Node -> string.
Variable strip : string -> string.
Variable lower : string -> string.

(** X9.  The best-practices score lies between 10 and 100: the checks
    take 90 points at most, the resources loaded over plain HTTP never
    more than 20 of them however many there are, so the clamp at 0 never
    acts.  The score is 100 exactly when the crawled url starts with
    [https://], the page has a viewport meta tag, a doctype and a charset
    declaration, the response carries the three security headers, and no
    script, link or image is loaded from an [http://] source.  A crawl
    of a url that is not [https://] scores 80 at most. *)
Theorem best_practices_score_range (self_url : string) (soup : Node)
    (response : Response) :
  let score :=
    _analyze_best_practices str_of_soup strip lower self_url soup response in
  (10 <= score <= 100)%Z
  /\ (score = 100%Z <->
      String.prefix "https://" self_url = true
      /\ is_Some (Dom.find (is_meta_named "viewport") soup)
      /\ has_doctype str_of_soup strip lower soup = true
      /\ is_Some (find_charset soup)
      /\ Forall (fun header => is_Some (resp_header response header))
                security_headers
      /\ Dom.find_all is_http_resource soup = [])
  /\ (String.prefix "https://" self_url = false -> (score <= 80)%Z).
Proof.
  cbv zeta. unfold _analyze_best_practices, security_headers.
  cbn [fold_left]. unfold header_step.
  rewrite !Forall_cons, Forall_nil.
  set (resources := Dom.find_all is_http_resource soup).
  assert (match resources with
          | [] => True
          | _ :: _ =>
              (2 <= Z.min 20 (Z.of_nat (length resources) * 2) <= 20)%Z
          end) as Hres.
  { destruct resources as [|r rs]; [done|]. cbn [length]. lia. }
  destruct (String.prefix "https://" self_url);
    destruct (Dom.find (is_meta_named "viewport") soup);
    destruct (has_doctype str_of_soup strip lower soup);
    destruct (find_charset soup);
    destruct (resp_header response "X-Content-Type-Options");
    destruct (resp_header response "X-Frame-Options");
    destruct (resp_header response "Strict-Transport-Security");
    destruct resources as [|r rs]; cbn [negb];
    (split; [lia|split; [|intros; try done; lia]]);
    (split;
     [intros ?; try lia; repeat split; by eauto
     |intros (? & ? & ? & ? & (? & ? & ? & _) & ?); try done;
      repeat match goal with
             | H : is_Some None |- _ => by destruct H
             end; lia]).
Qed.

End BestPracticesProps.
End AnalysersProps.

(** ** The audit as a whole *)

Module LighthouseProps.
Import PyFloat Audit Analysers OverallProps.

(** The rounded sum of four sub-scores in range exists and is within one
    half of their exact weighted combination. *)
Lemma overall_score_close (p a b s : Z) :
  (0 <= p <= 100)%Z -> (0 <= a <= 100)%Z -> (0 <= b <= 100)%Z ->
  (0 <= s <= 100)%Z ->
  match overall_score p a b s with
  | Some n => (Z.abs (20 * n - (6 * p + 5 * a + 5 * b + 4 * s)) <= 10)%Z
  | None => False
  end.
Proof.
  intros Hp Ha Hb Hs.
  assert (0 <= a + b <= 200)%Z as Hc by lia.
  pose proof (quarters_add_up_spec _ _ _ all_quarters_add_up
                (float_of_int p * weight_30)%float a b
                (in_map _ _ _ (in_scores p Hp)) (in_scores a Ha)
                (in_scores b Hb)) as Hsum.
  pose proof (all_cases_ok_spec _ _ _ all_scores_ok
                (term 6 weight_30 p) (term 5 0.25 (a + b))
                (term 4 weight_20 s)
                (in_map _ _ _ (in_scores p Hp))
                (in_map _ _ _ (in_score_sums (a + b) Hc))
                (in_map _ _ _ (in_scores s Hs)))
    as H.
  unfold term in H. cbn [fst snd] in H.
  fold (quarter (a + b)) in H. rewrite <- Hsum in H.
  unfold case_ok in H.
  destruct (fast_round _) as [n|] eqn:Hround; [|discriminate].
  apply fast_round_correct in Hround.
  unfold weight_30, weight_20, quarter in Hround.
  unfold overall_score, weighted_sum. rewrite Hround.
  apply andb_prop in H as [H Hupper]. apply andb_prop in H as [Hsmall Hlower].
  apply Uint63.leb_spec in Hsmall, Hlower, Hupper.
  change (Uint63.to_Z 200%uint63) with 200%Z in Hsmall.
  pose proof (Uint63.to_Z_bounded n) as Bn.
  pose proof (to_Z_term_sum p (a + b) s Hp Hc Hs) as HK.
  assert (Uint63.to_Z (20 * n)%uint63 = 20 * Uint63.to_Z n)%Z as H20.
  { rewrite Uint63.mul_spec, wB_value.
    change (Uint63.to_Z 20%uint63) with 20%Z.
    apply Z.mod_small. lia. }
  rewrite (Uint63.add_spec _ 10%uint63), HK, H20, wB_value in Hlower.
  rewrite (Uint63.add_spec _ 10%uint63), HK, H20, wB_value in Hupper.
  change (Uint63.to_Z 10%uint63) with 10%Z in *.
  rewrite Z.mod_small in Hupper by lia.
  rewrite Z.mod_small in Hlower by lia.
  lia.
Qed.

Lemma accessibility_range (soup : Node) (a : Z) :
  _analyze_accessibility soup = Some a -> (0 <= a <= 100)%Z.
Proof.
  unfold _analyze_accessibility.
  destruct (image_score soup) as [score|]; simpl; [|done].
  intros [= <-]. lia.
Qed.

Lemma performance_range (response_time : Q) (page_size : Z) :
  (30 <= _calculate_performance_score response_time page_size <= 100)%Z.
Proof.
  unfold _calculate_performance_score, response_time_penalty,
    page_size_penalty.
  repeat match goal with |- context [if ?b then _ else _] => destruct b end;
    lia.
Qed.

Lemma seo_range get_text_strip lower has_rel (soup : Node) :
  (20 <= _analyze_seo get_text_strip lower has_rel soup <= 100)%Z.
Proof.
  unfold _analyze_seo, seo_title, seo_meta_description, seo_h1,
    seo_canonical, seo_robots, seo_structured_data.
  repeat match goal with
         | |- context [match ?x with _ => _ end] => destruct x
         end; lia.
Qed.

Lemma best_practices_range str_of_soup strip lower self_url soup response :
  (10 <= _analyze_best_practices str_of_soup strip lower self_url soup
                                 response <= 100)%Z.
Proof.
  unfold _analyze_best_practices, security_headers.
  cbn [fold_left]. unfold header_step.
  set (resources := Dom.find_all is_http_resource soup).
  assert (match resources with
          | [] => True
          | _ :: _ =>
              (2 <= Z.min 20 (Z.of_nat (length resources) * 2) <= 20)%Z
          end) as Hres.
  { destruct resources as [|r rs]; [done|]. cbn [length]. lia. }
  destruct resources;
  repeat match goal with
         | |- context [match ?x with _ => _ end] => destruct x
         end; lia.
Qed.

Section AuditProps.
Variable get_text_strip : Node -> string.
Variable lower : string -> string.
Variable strip : string -> string.
Variable str_of_soup : Node -> string.
Variable has_rel : string -> Node -> bool.
Variable show_round2 : Q -> string.
Variable to_ms : Q -> Z.
Variable round2 : Q -> Q.

(** X10.  Whatever the page, the five scores of the audit are between 0
    and 100.  The audit is the all-zero dict of the [except] branch
    exactly when its overall score is 0: an audit that went through has
    performance 30 or more, best practices 10 or more, SEO 20 or more, an
    overall score of 15 or more, and that overall score is within one
    half of the combination of the four others with the weights 0.3,
    0.25, 0.25 and 0.2. *)
Theorem lighthouse_scores_in_range (self_url : string) (soup : Node)
    (response : Response) (response_time : Q) :
  let audit :=
    run_lighthouse_audit get_text_strip lower strip str_of_soup has_rel
                         show_round2 to_ms round2 self_url soup response
                         response_time in
  ((0 <= lh_overall audit <= 100)%Z
   /\ (0 <= lh_performance audit <= 100)%Z
   /\ (0 <= lh_accessibility audit <= 100)%Z
   /\ (0 <= lh_best_practices audit <= 100)%Z
   /\ (0 <= lh_seo audit <= 100)%Z)
  /\ (lh_overall audit = 0%Z <-> lh_details audit = None)
  /\ (lh_details audit = None ->
      lh_performance audit = 0%Z /\ lh_accessibility audit = 0%Z
      /\ lh_best_practices audit = 0%Z /\ lh_seo audit = 0%Z)
  /\ (lh_details audit <> None ->
      (30 <= lh_performance audit)%Z /\ (10 <= lh_best_practices audit)%Z
      /\ (20 <= lh_seo audit)%Z /\ (15 <= lh_overall audit)%Z
      /\ (Z.abs (20 * lh_overall audit
                 - (6 * lh_performance audit + 5 * lh_accessibility audit
                    + 5 * lh_best_practices audit + 4 * lh_seo audit))
          <= 10)%Z).
Proof.
  cbv zeta. unfold run_lighthouse_audit, _run_lighthouse_audit.
  set (p := _calculate_performance_score _ _).
  set (b := _analyze_best_practices _ _ _ _ _ _).
  set (s := _analyze_seo _ _ _ _).
  pose proof (performance_range response_time
                (Z.of_nat (String.length (resp_content response)))) as Hp.
  pose proof (best_practices_range str_of_soup strip lower self_url soup
                response) as Hb.
  pose proof (seo_range get_text_strip lower has_rel soup) as Hs.
  fold p in Hp. fold b in Hb. fold s in Hs.
  destruct (_analyze_accessibility soup) as [a|] eqn:Ha; simpl.
  - apply accessibility_range in Ha.
    pose proof (overall_score_close p a b s) as Hn.
    destruct (overall_score p a b s) as [n|]; simpl.
    + specialize (Hn ltac:(lia) ltac:(lia) ltac:(lia) ltac:(lia)).
      repeat split; try done; try lia.
    + exfalso. apply Hn; lia.
  - repeat split; done.
Qed.

End AuditProps.
End LighthouseProps.

(** ** The findings of the audit *)

Module DetailsProps.
Import Audit AuditProps Analysers.

Section SeoBounds.
Variable get_text_strip : Node -> string.
Variable lower : string -> string.
Variable has_rel : string -> Node -> bool.

Lemma seo_title_le (soup : Node) (score : Z) :
  (seo_title get_text_strip soup score <= score)%Z
  /\ (title_missing get_text_strip soup = true ->
      seo_title get_text_strip soup score = (score - 20)%Z).
Proof.
  unfold seo_title, title_missing.
  destruct (Dom.find (Dom.has_name "title") soup) as [title|];
    [|split; [lia|done]].
  cbv zeta. destruct (String.eqb (get_text_strip title) "");
    [split; [lia|done]|].
  split; [|done]. destruct (_ || _); lia.
Qed.

Lemma seo_meta_description_le (soup : Node) (score : Z) :
  (seo_meta_description soup score <= score)%Z
  /\ (meta_description_missing soup = true ->
      seo_meta_description soup score = (score - 20)%Z).
Proof.
  unfold seo_meta_description, meta_description_missing.
  destruct (Dom.find (is_meta_named "description") soup) as [meta_desc|];
    [|split; [lia|done]].
  destruct (Dom.truthy_attr meta_desc "content"); cbn [negb];
    [|split; [lia|done]].
  split; [|done]. cbv zeta. destruct (_ || _); lia.
Qed.

Lemma seo_rest_le (soup : Node) (score : Z) :
  (seo_structured_data soup
     (seo_robots lower soup
        (seo_canonical has_rel soup (seo_h1 soup score)))
   <= score + 10)%Z.
Proof.
  unfold seo_structured_data, seo_robots, seo_canonical, seo_h1.
  repeat match goal with
         | |- context [match ?x with _ => _ end] => destruct x
         end; lia.
Qed.

Lemma seo_missing_bounds (soup : Node) :
  let score := _analyze_seo get_text_strip lower has_rel soup in
  (title_missing get_text_strip soup = true -> (score <= 90)%Z)
  /\ (meta_description_missing soup = true -> (score <= 90)%Z)
  /\ (title_missing get_text_strip soup = true ->
      meta_description_missing soup = true -> (score <= 70)%Z).
Proof.
  cbv zeta. unfold _analyze_seo.
  destruct (seo_title_le soup 100) as [Ht Ht'].
  destruct (seo_meta_description_le soup (seo_title get_text_strip soup 100))
    as [Hm Hm'].
  pose proof (seo_rest_le soup
                (seo_meta_description soup
                   (seo_title get_text_strip soup 100))) as Hr.
  repeat split; intros; repeat match goal with
                               | H : ?P -> _, H' : ?P |- _ => specialize (H H')
                               end; lia.
Qed.

End SeoBounds.

Lemma slow_response_performance (response_time : Q) (page_size : Z) :
  Qgtb response_time 1 = true ->
  (_calculate_performance_score response_time page_size <= 80)%Z.
Proof.
  intros H. unfold _calculate_performance_score, response_time_penalty,
    page_size_penalty. rewrite H.
  repeat match goal with |- context [if ?b then _ else _] => destruct b end;
    lia.
Qed.

Lemma not_https_best_practices str_of_soup strip lower self_url soup response :
  String.prefix "https://" self_url = false ->
  (_analyze_best_practices str_of_soup strip lower self_url soup response
   <= 80)%Z.
Proof.
  intros H. unfold _analyze_best_practices, security_headers.
  rewrite H. cbn [fold_left negb]. unfold header_step.
  set (resources := Dom.find_all is_http_resource soup).
  assert (match resources with
          | [] => True
          | _ :: _ =>
              (2 <= Z.min 20 (Z.of_nat (length resources) * 2) <= 20)%Z
          end) as Hres.
  { destruct resources as [|r rs]; [done|]. cbn [length]. lia. }
  destruct resources;
  repeat match goal with
         | |- context [match ?x with _ => _ end] => destruct x
         end; lia.
Qed.

(** A list of one entry or none. *)
Definition opt {A : Type} (c : bool) (x : A) : list A :=
  if c then [x] else [].

Lemma elem_of_opt {A : Type} (c : bool) (x y : A) :
  x ∈ opt c y <-> c = true /\ x = y.
Proof.
  destruct c; simpl.
  - rewrite list_elem_of_singleton. intuition.
  - split; [by intros ?%elem_of_nil|by intros [? _]].
Qed.

Lemma map_opt {A B : Type} (f : A -> B) (c : bool) (x : A) :
  map f (opt c x) = opt c (f x).
Proof. by destruct c. Qed.

Lemma Forall_opt {A : Type} (P : A -> Prop) (c : bool) (x : A) :
  (c = true -> P x) -> Forall P (opt c x).
Proof.
  destruct c; intros H; [|apply List.Forall_nil].
  apply List.Forall_cons; [by apply H|apply List.Forall_nil].
Qed.

Definition has_images_without_alt (soup : Node) : bool :=
  match images_without_alt soup with
  | [] => false
  | _ :: _ => true
  end.

Lemma has_images_without_alt_true (soup : Node) :
  has_images_without_alt soup = true <-> images_without_alt soup <> [].
Proof.
  unfold has_images_without_alt. by destruct (images_without_alt soup).
Qed.

Section Findings.
Variable get_text_strip : Node -> string.
Variable lower : string -> string.
Variable strip : string -> string.
Variable str_of_soup : Node -> string.
Variable has_rel : string -> Node -> bool.
Variable show_round2 : Q -> string.

(** The list of findings, condition by condition. *)
Lemma audit_details_eq (self_url : string) (soup : Node)
    (response : Response) (response_time : Q) :
  _get_audit_details get_text_strip show_round2 self_url soup response
                     response_time
  = opt (Qgtb response_time 1)
        {| au_category := "performance";
           au_title := "Server Response Time";
           au_description :=
             "Response time is " +:+ show_round2 response_time
             +:+ "s. Aim for under 600ms.";
           au_score :=
             if Qgtb 3 response_time then "warning" else "error" |}
    ++ opt (has_images_without_alt soup)
           {| au_category := "accessibility";
              au_title := "Image Alt Attributes";
              au_description :=
                pretty (length (images_without_alt soup))
                +:+ " images missing alt attributes.";
              au_score := "warning" |}
    ++ opt (title_missing get_text_strip soup)
           {| au_category := "seo";
              au_title := "Document Title";
              au_description := "The page is missing a title tag.";
              au_score := "error" |}
    ++ opt (meta_description_missing soup)
           {| au_category := "seo";
              au_title := "Meta Description";
              au_description := "The page is missing a meta description.";
              au_score := "error" |}
    ++ opt (negb (String.prefix "https://" self_url))
           {| au_category := "best_practices";
              au_title := "HTTPS Usage";
              au_description := "The page is not served over HTTPS.";
              au_score := "error" |}.
Proof.
  unfold _get_audit_details, has_images_without_alt, opt.
  destruct (Qgtb response_time 1), (images_without_alt soup),
    (title_missing get_text_strip soup), (meta_description_missing soup),
    (String.prefix "https://" self_url); reflexivity.
Qed.

(** X11.  The findings [_get_audit_details] lists are among five, each
    at most once and in this order: server response time, image alt
    attributes, document title, meta description, HTTPS usage.  The
    response time is listed exactly above one second, and as an error
    exactly from three seconds on; images exactly when some image has no
    or an empty [alt], always as a warning; the title and the description
    exactly when missing or empty, and HTTPS exactly when the crawled url
    does not start with [https://], always as errors.  The findings agree
    with the scores: a page with the response time finding has a
    performance score of 80 at most, one with the title or the
    description finding an SEO score of 90 at most, with both 70 at most,
    and one with the HTTPS finding a best-practices score of 80 at
    most. *)
Theorem audit_details_findings (self_url : string) (soup : Node)
    (response : Response) (response_time : Q) :
  let audits :=
    _get_audit_details get_text_strip show_round2 self_url soup response
                       response_time in
  let titles := map au_title audits in
  let seo := _analyze_seo get_text_strip lower has_rel soup in
  sublist titles ["Server Response Time"; "Image Alt Attributes";
                  "Document Title"; "Meta Description"; "HTTPS Usage"]
  /\ ("Server Response Time" ∈ titles <-> (1 < response_time)%Q)
  /\ ("Image Alt Attributes" ∈ titles <-> images_without_alt soup <> [])
  /\ ("Document Title" ∈ titles
      <-> title_missing get_text_strip soup = true)
  /\ ("Meta Description" ∈ titles <-> meta_description_missing soup = true)
  /\ ("HTTPS Usage" ∈ titles <-> String.prefix "https://" self_url = false)
  /\ Forall (fun a =>
               (au_score a = "warning" \/ au_score a = "error")
               /\ (au_score a = "error" <->
                   au_title a <> "Image Alt Attributes"
                   /\ (au_title a = "Server Response Time" ->
                       (3 <= response_time)%Q)))
            audits
  /\ ("Server Response Time" ∈ titles ->
      forall page_size,
        (_calculate_performance_score response_time page_size <= 80)%Z)
  /\ ("Document Title" ∈ titles -> (seo <= 90)%Z)
  /\ ("Meta Description" ∈ titles -> (seo <= 90)%Z)
  /\ ("Document Title" ∈ titles -> "Meta Description" ∈ titles ->
      (seo <= 70)%Z)
  /\ ("HTTPS Usage" ∈ titles ->
      (_analyze_best_practices str_of_soup strip lower self_url soup response
       <= 80)%Z).
Proof.
  cbv zeta. rewrite audit_details_eq.
  rewrite !map_app, !map_opt. cbn [au_title].
  set (c1 := Qgtb response_time 1).
  set (c2 := has_images_without_alt soup).
  set (c3 := title_missing get_text_strip soup).
  set (c4 := meta_description_missing soup).
  set (c5 := negb (String.prefix "https://" self_url)).
  assert ("Server Response Time"
          ∈ opt c1 "Server Response Time" ++ opt c2 "Image Alt Attributes"
            ++ opt c3 "Document Title" ++ opt c4 "Meta Description"
            ++ opt c5 "HTTPS Usage" <-> c1 = true) as M1.
  { rewrite !elem_of_app, !elem_of_opt. intuition discriminate. }
  assert ("Image Alt Attributes"
          ∈ opt c1 "Server Response Time" ++ opt c2 "Image Alt Attributes"
            ++ opt c3 "Document Title" ++ opt c4 "Meta Description"
            ++ opt c5 "HTTPS Usage" <-> c2 = true) as M2.
  { rewrite !elem_of_app, !elem_of_opt. intuition discriminate. }
  assert ("Document Title"
          ∈ opt c1 "Server Response Time" ++ opt c2 "Image Alt Attributes"
            ++ opt c3 "Document Title" ++ opt c4 "Meta Description"
            ++ opt c5 "HTTPS Usage" <-> c3 = true) as M3.
  { rewrite !elem_of_app, !elem_of_opt. intuition discriminate. }
  assert ("Meta Description"
          ∈ opt c1 "Server Response Time" ++ opt c2 "Image Alt Attributes"
            ++ opt c3 "Document Title" ++ opt c4 "Meta Description"
            ++ opt c5 "HTTPS Usage" <-> c4 = true) as M4.
  { rewrite !elem_of_app, !elem_of_opt. intuition discriminate. }
  assert ("HTTPS Usage"
          ∈ opt c1 "Server Response Time" ++ opt c2 "Image Alt Attributes"
            ++ opt c3 "Document Title" ++ opt c4 "Meta Description"
            ++ opt c5 "HTTPS Usage" <-> c5 = true) as M5.
  { rewrite !elem_of_app, !elem_of_opt. intuition discriminate. }
  rewrite M1, M2, M3, M4, M5. clear M1 M2 M3 M4 M5.
  destruct (seo_missing_bounds get_text_strip lower has_rel soup)
    as (Hseo1 & Hseo2 & Hseo3).
  split.
  { destruct c1, c2, c3, c4, c5; unfold opt; cbn [app];
      repeat first [apply sublist_nil | apply sublist_skip
                    | apply sublist_cons]. }
  split; [apply Qgtb_true|].
  split; [apply has_images_without_alt_true|].
  split; [done|]. split; [done|].
  split; [apply negb_true_iff|].
  split.
  { rewrite !Forall_app.
    repeat split; apply Forall_opt; intros _; cbn [au_score au_title];
      (split; [destruct (Qgtb 3 response_time); by auto|]).
    - destruct (Qgtb 3 response_time) eqn:E3.
      + apply Qgtb_true in E3. split; [done|].
        intros [_ Hx]. exfalso. by apply (Qle_not_lt _ _ (Hx eq_refl)).
      + apply Qgtb_false in E3. done.
    - split; [done|]. by intros [? _].
    - split; [|done]. intros _. split; done.
    - split; [|done]. intros _. split; done.
    - split; [|done]. intros _. split; done. }
  split; [intros ? ?; by apply slow_response_performance|].
  split; [done|]. split; [done|]. split; [done|].
  intros Hx. apply negb_true_iff in Hx.
  by apply not_https_best_practices.
Qed.

End Findings.
End DetailsProps.

(** ** More on the graph layout builder *)

Module GroupsProps.
Import Graph.

(** The path a link is filed under, [link.parent_element or 'body']. *)
Definition group_key (link : LinkRow) : string :=
  or_else (lr_parent_element link) "body".

Lemma group_key_not_empty (link : LinkRow) : group_key link <> "".
Proof.
  unfold group_key, or_else.
  by destruct (lr_parent_element link) as [[|c s]|].
Qed.

Lemma group_links_snoc (ls : list LinkRow) (link : LinkRow) :
  group_links (ls ++ [link])
  = group_append (group_key link) link (group_links ls).
Proof. unfold group_links. by rewrite fold_left_app. Qed.

Lemma group_append_keys (p : string) (link : LinkRow)
    (groups : list (string * list LinkRow)) :
  map fst (group_append p link groups)
  = if decide (p ∈ map fst groups) then map fst groups
    else map fst groups ++ [p].
Proof.
  induction groups as [|[k members] rest IH].
  { cbn [group_append map fst app].
    destruct (decide (p ∈ [])) as [Hin|_]; [|done].
    by apply elem_of_nil in Hin. }
  cbn [group_append]. destruct (String.eqb_spec k p) as [->|Hne].
  - cbn [map fst].
    destruct (decide (p ∈ p :: map fst rest)) as [_|Hin]; [done|].
    exfalso. apply Hin, elem_of_cons. by left.
  - cbn [map fst]. rewrite IH.
    destruct (decide (p ∈ map fst rest)) as [Hin|Hin],
      (decide (p ∈ k :: map fst rest)) as [Hin'|Hin']; try done.
    + exfalso. apply Hin', elem_of_cons. by right.
    + exfalso. apply elem_of_cons in Hin' as [?|?]; [by subst|done].
Qed.

Lemma dict_get_group_append (k p : string) (link : LinkRow)
    (groups : list (string * list LinkRow)) :
  dict_get k (group_append p link groups)
  = if String.eqb k p
    then Some (default [] (dict_get p groups) ++ [link])
    else dict_get k groups.
Proof.
  induction groups as [|[k' members] rest IH]; simpl.
  { rewrite (String.eqb_sym p k). by destruct (String.eqb k p). }
  destruct (String.eqb_spec k' p) as [->|Hne]; simpl.
  - rewrite (String.eqb_sym p k).
    by destruct (String.eqb_spec k p) as [->|Hkp].
  - rewrite IH. destruct (String.eqb_spec k' k) as [->|Hk'].
    + destruct (String.eqb_spec k p) as [->|Hkp]; done.
    + done.
Qed.

Lemma dict_get_elem {V : Type} (k : string) (v : V)
    (d : list (string * V)) :
  NoDup (map fst d) -> (k, v) ∈ d <-> dict_get k d = Some v.
Proof.
  induction d as [|[k' v'] rest IH]; simpl; intros Hnd.
  { split; [by intros ?%elem_of_nil|done]. }
  apply NoDup_cons in Hnd as [Hk' Hnd]. rewrite elem_of_cons.
  destruct (String.eqb_spec k' k) as [->|Hne].
  - split.
    + intros [[= ->]|Hin]; [done|].
      exfalso. apply Hk'. by apply (list_elem_of_fmap_2 fst) in Hin.
    + intros [= ->]. by left.
  - rewrite <- (IH Hnd). split; [|by right].
    intros [[= -> ->]|Hin]; done.
Qed.

Lemma concat_group_append (p : string) (link : LinkRow)
    (groups : list (string * list LinkRow)) :
  concat (map snd (group_append p link groups))
  ≡ₚ concat (map snd groups) ++ [link].
Proof.
  induction groups as [|[k members] rest IH]; simpl; [done|].
  destruct (String.eqb k p); simpl.
  - rewrite <- !app_assoc. apply Permutation_app_head.
    apply Permutation_app_comm.
  - rewrite IH. by rewrite app_assoc.
Qed.

(** What the grouping loop has built after the links [ls]. *)
Lemma group_links_spec (ls : list LinkRow) :
  NoDup (map fst (group_links ls))
  /\ (forall k,
        dict_get k (group_links ls)
        = match filter (fun l => group_key l = k) ls with
          | [] => None
          | members => Some members
          end)
  /\ concat (map snd (group_links ls)) ≡ₚ ls.
Proof.
  induction ls as [|link ls IH] using rev_ind.
  { split; [constructor|]. split; [done|]. done. }
  destruct IH as (Hnd & Hget & Hperm). rewrite group_links_snoc.
  split; [|split].
  - rewrite group_append_keys. destruct (decide _) as [Hin|Hin]; [done|].
    apply NoDup_app. split; [done|]. split; [|apply NoDup_singleton].
    intros x Hx ->%list_elem_of_singleton. done.
  - intros k. rewrite dict_get_group_append, filter_app, !Hget.
    rewrite filter_cons, filter_nil.
    destruct (String.eqb_spec k (group_key link)) as [->|Hne].
    + rewrite decide_True by done.
      destruct (filter _ ls) as [|m ms]; done.
    + rewrite decide_False by done. by rewrite app_nil_r.
  - rewrite concat_group_append. by rewrite Hperm.
Qed.

(** X12.  The loop that files the internal links under their parent path
    splits them: no path is a key twice; the links under a key are the
    links with that path, in their order, and at least one; the key is
    never empty, a link without path being filed under [body]; every link
    is under the key of its path; and the groups together are the links,
    none lost and none twice. *)
Theorem group_links_partition (ls : list LinkRow) :
  let groups := group_links ls in
  NoDup (map fst groups)
  /\ (forall k members,
        (k, members) ∈ groups ->
        members = filter (fun l => group_key l = k) ls
        /\ members <> [] /\ k <> "")
  /\ (forall l, l ∈ ls ->
        exists members, (group_key l, members) ∈ groups /\ l ∈ members)
  /\ concat (map snd groups) ≡ₚ ls.
Proof.
  cbv zeta. destruct (group_links_spec ls) as (Hnd & Hget & Hperm).
  split; [done|]. split; [|split; [|done]].
  - intros k members Hin. apply (dict_get_elem _ _ _ Hnd) in Hin.
    rewrite Hget in Hin.
    destruct (filter (fun l => group_key l = k) ls) as [|m ms] eqn:E;
      [done|].
    injection Hin as Hin. subst members. split; [done|]. split; [done|].
    assert (m ∈ filter (fun l => group_key l = k) ls) as Hm
      by (rewrite E; apply elem_of_cons; by left).
    apply list_elem_of_filter in Hm as [<- _]. apply group_key_not_empty.
  - intros l Hl.
    assert (l ∈ filter (fun l' => group_key l' = group_key l) ls) as Hm
      by (by apply list_elem_of_filter).
    exists (filter (fun l' => group_key l' = group_key l) ls).
    split; [|done]. apply (dict_get_elem _ _ _ Hnd). rewrite Hget.
    revert Hm.
    generalize (filter (fun l' => group_key l' = group_key l) ls).
    intros [|m ms] Hm; [by apply elem_of_nil in Hm|done].
Qed.

End GroupsProps.

Module GraphNodesProps.
Import Graph GraphProps GroupsProps.


(** The layer a base tag stands for is 1 or 2. *)
Lemma base_layer_range (tag : string) :
  1 <= default 1 (dict_get tag element_layer_map) <= 2.
Proof.
  unfold element_layer_map. cbn [dict_get].
  repeat match goal with
         | |- context [String.eqb ?a ?b] => destruct (String.eqb a b)
         end; simpl; lia.
Qed.


(** Preservation by a loop. *)
Lemma fold_left_preserves {S X : Type} (P : S -> Prop) (f : S -> X -> S)
    (l : list X) (st : S) :
  (forall st x, P st -> P (f st x)) -> P st -> P (fold_left f l st).
Proof.
  intros Hstep. revert st.
  induction l as [|x l IH]; intros st H; simpl; [done|].
  apply IH. by apply Hstep.
Qed.

Section NodesProps.
Variable urlparse : string -> ParseResult.
Variable upper : string -> string.
Variable job_url : string.









End NodesProps.
End GraphNodesProps.

Module GraphEdgesProps.
Import Graph GraphProps GroupsProps GraphNodesProps.

(** [split(c)[0]] of a string that starts with [x]. *)
Lemma split_first_cons (c x : ascii) (rest : string) :
  split_first c (String x rest)
  = if Ascii.eqb x c then "" else String x (split_first c rest).
Proof.
  unfold split_first. cbn [split_on].
  destruct (Ascii.eqb x c); [done|].
  by destruct (split_on c rest).
Qed.

(** The two ways the view takes the base tag of a path agree. *)
Lemma re_split_first_split (p : string) :
  re_split_first p = split_first "." (split_first "#" p).
Proof.
  induction p as [|x rest IH]; [done|].
  rewrite (split_first_cons "#"). cbn [re_split_first].
  destruct (Ascii.eqb x "#"); [done|].
  rewrite (split_first_cons "."). cbn [orb].
  destruct (Ascii.eqb x "."); [done|]. by rewrite IH.
Qed.

(** The base layer of an internal link is the layer of its group. *)
Lemma base_layer_group_layer (p : string) :
  default 1 (dict_get (if String.eqb p "" then "body"
                       else split_first "." (split_first "#" p))
                      element_layer_map)
  = group_layer p.
Proof.
  unfold group_layer. destruct (String.eqb_spec p "") as [->|_]; [done|].
  by rewrite re_split_first_split.
Qed.

Section EdgesProps.
Variable urlparse : string -> ParseResult.
Variable upper : string -> string.
Variable job_url : string.

Local Abbreviation root := (Graph.root urlparse job_url).

(** An edge between two of the nodes [ns], from one layer to a higher
    one: from the root to any other node, or from the group node of a
    path to the node of an internal link with that path. *)
Definition edge_ok (ns : list GraphNode) (e : GraphEdge) : Prop :=
  exists s d,
    s ∈ ns /\ d ∈ ns /\ gn_id s = ge_from e /\ gn_id d = ge_to e
    /\ gn_layer s < gn_layer d
    /\ (s = root /\ gn_type d <> root_node
        \/ gn_type s = element_group /\ gn_type d = internal_node
           /\ gn_parent_element d = gn_parent_element s
           /\ gn_layer d <= gn_layer s + 3).

Record Layered (st : State) : Prop := {
  ly_root : root ∈ nodes st;
  ly_edges : forall e, e ∈ edges st -> edge_ok (nodes st) e;
  ly_elements : forall p id layer,
    element_nodes st !! p = Some (id, layer) ->
    exists n, n ∈ nodes st /\ gn_id n = id /\ gn_type n = element_group
              /\ gn_parent_element n = Some p
              /\ gn_layer n = group_layer p;
  ly_domains : forall h entry,
    external_domains st !! h = Some entry ->
    exists n, n ∈ nodes st /\ gn_id n = de_node_id entry
              /\ gn_type n = external_node /\ gn_layer n = 1
}.

Lemma edge_ok_more (ns : list GraphNode) (n : GraphNode) (e : GraphEdge) :
  edge_ok ns e -> edge_ok (ns ++ [n]) e.
Proof.
  intros (s & d & Hs & Hd & H). exists s, d.
  split; [apply elem_of_app; by left|].
  split; [apply elem_of_app; by left|]. done.
Qed.

Lemma Layered_initial : Layered (initial urlparse job_url).
Proof.
  split; cbn.
  - apply elem_of_cons. by left.
  - by intros e ?%elem_of_nil.
  - intros p id layer H. by rewrite lookup_empty in H.
  - intros h entry H. by rewrite lookup_empty in H.
Qed.

(** A step that appends the node [n] and the edge [e]. *)
Lemma Layered_snoc st st' n e :
  Layered st ->
  nodes st' = nodes st ++ [n] ->
  edges st' = edges st ++ [e] ->
  edge_ok (nodes st') e ->
  (forall p id layer,
     element_nodes st' !! p = Some (id, layer) ->
     element_nodes st !! p = Some (id, layer)
     \/ (gn_id n = id /\ gn_type n = element_group
         /\ gn_parent_element n = Some p /\ gn_layer n = group_layer p)) ->
  (forall h entry,
     external_domains st' !! h = Some entry ->
     (exists entry', external_domains st !! h = Some entry'
                     /\ de_node_id entry' = de_node_id entry)
     \/ (gn_id n = de_node_id entry /\ gn_type n = external_node
         /\ gn_layer n = 1)) ->
  Layered st'.
Proof.
  intros [Hroot Hedges Hel Hdom] Hn He Hnew Hel' Hdom'.
  split.
  - rewrite Hn. apply elem_of_app. by left.
  - rewrite He, Hn. intros e' [Hin | ->%list_elem_of_singleton]%elem_of_app.
    + by apply edge_ok_more, Hedges.
    + by rewrite <- Hn.
  - rewrite Hn. intros p id layer H.
    destruct (Hel' p id layer H) as [Hold|Hnew'].
    + destruct (Hel p id layer Hold) as (m & Hm & Hrest).
      exists m. split; [apply elem_of_app; by left|done].
    + exists n. split; [|done].
      apply elem_of_app. right. by apply list_elem_of_singleton.
  - rewrite Hn. intros h entry H.
    destruct (Hdom' h entry H) as [(entry' & Hold & Hid)|Hnew'].
    + destruct (Hdom h entry' Hold) as (m & Hm & Hrest).
      exists m. split; [apply elem_of_app; by left|]. by rewrite <- Hid.
    + exists n. split; [|done].
      apply elem_of_app. right. by apply list_elem_of_singleton.
Qed.

Ltac last_node := apply elem_of_app; right; by apply list_elem_of_singleton.
Ltac old_node := apply elem_of_app; left.

Lemma Layered_element_step st item :
  Layered st -> Layered (element_step urlparse upper job_url st item).
Proof.
  intros Hly. destruct item as [p members]. unfold element_step.
  destruct (1 <? length members)%nat; [|done].
  eapply Layered_snoc; [exact Hly|reflexivity|reflexivity| | |].
  - cbn [nodes]. eexists root, _.
    split; [old_node; apply (ly_root _ Hly)|]. split; [last_node|].
    cbn [gn_id gn_layer gn_type gn_parent_element ge_from ge_to Graph.root].
    pose proof (base_layer_range (re_split_first p)) as Hb.
    fold (group_layer p) in Hb.
    split; [done|]. split; [done|]. split; [lia|]. by left.
  - cbn [element_nodes]. intros q id layer H.
    destruct (decide (p = q)) as [->|Hne].
    + rewrite lookup_insert_eq in H. injection H as <- <-. by right.
    + rewrite lookup_insert_ne in H by done. by left.
  - cbn [external_domains]. intros h entry H. left. by exists entry.
Qed.

Lemma Layered_internal_step p size st link :
  Layered st -> Layered (internal_step urlparse p size st link).
Proof.
  intros Hly. unfold internal_step.
  eapply Layered_snoc; [exact Hly|reflexivity|reflexivity| | |].
  - cbn [nodes]. rewrite base_layer_group_layer.
    pose proof (base_layer_range (re_split_first p)) as Hb.
    fold (group_layer p) in Hb.
    destruct (element_nodes st !! p) as [[group_id layer]|] eqn:E;
      [destruct (1 <? size)%nat|].
    + destruct (ly_elements _ Hly p group_id layer E)
        as (s & Hs & Hid & Htype & Hparent & Hlayer).
      eexists s, _. split; [old_node; exact Hs|]. split; [last_node|].
      cbn [gn_id gn_layer gn_type gn_parent_element ge_from ge_to Graph.root].
      split; [done|]. split; [done|]. split; [lia|]. right.
      split; [done|]. split; [done|]. split; [done|]. lia.
    + eexists root, _.
      split; [old_node; apply (ly_root _ Hly)|]. split; [last_node|].
      cbn [gn_id gn_layer gn_type gn_parent_element ge_from ge_to Graph.root].
      split; [done|]. split; [done|]. split; [lia|]. by left.
    + eexists root, _.
      split; [old_node; apply (ly_root _ Hly)|]. split; [last_node|].
      cbn [gn_id gn_layer gn_type gn_parent_element ge_from ge_to Graph.root].
      split; [done|]. split; [done|]. split; [lia|]. by left.
  - cbn [element_nodes]. intros q id layer H. by left.
  - cbn [external_domains]. intros h entry H. left. by exists entry.
Qed.

Lemma Layered_external_step st link :
  Layered st -> Layered (external_step urlparse st link).
Proof.
  intros Hly.
  destruct (external_domains st !! netloc (urlparse (lr_url link)))
    as [entry|] eqn:E.
  - rewrite (external_step_old urlparse st link entry E).
    destruct Hly as [Hroot Hedges Hel Hdom].
    destruct (Hdom (netloc (urlparse (lr_url link))) entry E) as (d & Hd & Hid & Htype & Hlayer).
    split; cbn [nodes edges element_nodes external_domains];
      [done| |done|].
    + intros e [Hin | ->%list_elem_of_singleton]%elem_of_app;
        [by apply Hedges|].
      exists root, d. split; [done|]. split; [done|]. cbn.
      split; [done|]. split; [done|]. split; [lia|]. left.
      split; [done|]. by rewrite Htype.
    + intros h entry' H.
      destruct (decide (netloc (urlparse (lr_url link)) = h)) as [<-|Hne].
      * rewrite lookup_insert_eq in H. injection H as <-.
        exists d. done.
      * rewrite lookup_insert_ne in H by done. exact (Hdom h entry' H).
  - rewrite (external_step_new urlparse st link E). cbv zeta.
    eapply Layered_snoc; [exact Hly|reflexivity|reflexivity| | |].
    + cbn [nodes]. eexists root, _.
      split; [old_node; apply (ly_root _ Hly)|]. split; [last_node|].
      cbn [gn_id gn_layer gn_type gn_parent_element ge_from ge_to Graph.root].
      split; [done|]. split; [done|]. split; [lia|]. by left.
    + cbn [element_nodes]. intros q id layer H. by left.
    + cbn [external_domains]. intros h entry H.
      destruct (decide (netloc (urlparse (lr_url link)) = h)) as [<-|Hne].
      * rewrite lookup_insert_eq in H. injection H as <-. by right.
      * rewrite lookup_insert_ne in H by done. left. by exists entry.
Qed.

Lemma Layered_final links :
  Layered (final_state urlparse upper job_url links).
Proof.
  unfold final_state, after_internal, after_elements.
  apply (fold_left_preserves Layered);
    [intros; by apply Layered_external_step|].
  apply (fold_left_preserves Layered).
  { intros st [p members] H. unfold internal_group_step.
    apply (fold_left_preserves Layered);
      [intros; by apply Layered_internal_step|done]. }
  apply (fold_left_preserves Layered);
    [intros; by apply Layered_element_step|].
  apply Layered_initial.
Qed.

(** X14.  Whatever the links, every edge of the answer joins two nodes
    of the answer and goes to a strictly higher layer.  It starts at the
    root, or else at the group node of a path and ends at the node of an
    internal link found under that path, which lies one to three layers
    above its group; no edge ends at the root, and no edge is a loop. *)
Theorem graph_edges_layered (links : list LinkRow) :
  let g := api_graph_data urlparse upper job_url links in
  forall e, e ∈ gd_edges g ->
    ge_from e <> ge_to e
    /\ ge_to e <> "root"
    /\ exists s d,
         s ∈ gd_nodes g /\ d ∈ gd_nodes g
         /\ gn_id s = ge_from e /\ gn_id d = ge_to e
         /\ gn_layer s < gn_layer d
         /\ (s = root /\ gn_type d <> root_node
             \/ gn_type s = element_group /\ gn_type d = internal_node
                /\ gn_parent_element d = gn_parent_element s
                /\ gn_layer s + 1 <= gn_layer d <= gn_layer s + 3).
Proof.
  cbv zeta. cbn [api_graph_data gd_edges gd_nodes]. intros e He.
  pose proof (Layered_final links) as Hly.
  pose proof (WF_final urlparse upper job_url links) as Hwf.
  destruct (ly_edges _ Hly e He)
    as (s & d & Hs & Hd & Hfrom & Hto & Hlt & Hkind).
  assert (s <> d) as Hsd by (intros ->; lia).
  assert (gn_id s <> gn_id d) as Hids.
  { intros Heq. apply Hsd.
    by apply (NoDup_map_eq gn_id _ s d (wf_nodup _ _ _ Hwf)). }
  split; [by rewrite <- Hfrom, <- Hto|].
  split.
  { rewrite <- Hto. intros Hroot'.
    destruct (wf_root _ _ _ Hwf) as [rest Hrest].
    assert (d = root) as ->.
    { apply (NoDup_map_eq gn_id _ d root (wf_nodup _ _ _ Hwf));
        [done| |done].
      rewrite Hrest. apply elem_of_cons. by left. }
    cbn in Hlt. lia. }
  exists s, d. repeat (split; [done|]).
  destruct Hkind as [Hroot|(Hts & Htd & Hparent & Hle)]; [by left|right].
  repeat (split; [done|]). lia.
Qed.

End EdgesProps.

(** A plain reading of urls for the example: everything is on one host
    and the url is its own path. *)
Definition same_host_urlparse (url : string) : ParseResult :=
  {| netloc := "example.com"; path := url |}.

(** Two internal links found under [nav]. *)
Definition two_nav_links : list LinkRow :=
  [ {| lr_url := "/a"; lr_link_type := internal; lr_anchor_text := "A";
       lr_status_code := Some 200%Z; lr_is_broken := false;
       lr_parent_element := Some "nav" |};
    {| lr_url := "/b/c"; lr_link_type := internal; lr_anchor_text := "B";
       lr_status_code := None; lr_is_broken := false;
       lr_parent_element := Some "nav" |} ].

(** The edge from the group node of [nav] to the node of the first link. *)
Definition nav_edge : GraphEdge :=
  {| ge_from := "element_0"; ge_to := "internal_1"; ge_path := Some "/a";
     ge_count := None |}.

Lemma graph_edges_layered_witness :
  let g := api_graph_data same_host_urlparse (fun s => s) "/"
                          two_nav_links in
  nav_edge ∈ gd_edges g
  /\ (ge_from nav_edge <> ge_to nav_edge
      /\ ge_to nav_edge <> "root"
      /\ exists s d,
           s ∈ gd_nodes g /\ d ∈ gd_nodes g
           /\ gn_id s = ge_from nav_edge /\ gn_id d = ge_to nav_edge
           /\ gn_layer s < gn_layer d
           /\ (s = Graph.root same_host_urlparse "/"
               /\ gn_type d <> root_node
               \/ gn_type s = element_group /\ gn_type d = internal_node
                  /\ gn_parent_element d = gn_parent_element s
                  /\ gn_layer s + 1 <= gn_layer d <= gn_layer s + 3)).
Proof.
  cbv zeta.
  assert (nav_edge
          ∈ gd_edges (api_graph_data same_host_urlparse (fun s => s) "/"
                                     two_nav_links)) as Hin.
  { vm_compute. apply list_elem_of_further, list_elem_of_here. }
  split; [exact Hin|].
  exact (graph_edges_layered same_host_urlparse (fun s => s) "/"
           two_nav_links nav_edge Hin).
Defined.

End GraphEdgesProps.

Module GraphSizeProps.
Import Graph GraphProps GroupsProps GraphNodesProps.

Lemma count_nodes_snoc (t : NodeType) (ns : list GraphNode) (n : GraphNode) :
  count_nodes t (ns ++ [n])
  = count_nodes t ns + (if decide (gn_type n = t) then 1 else 0).
Proof.
  unfold count_nodes. rewrite filter_app, length_app.
  rewrite filter_cons, filter_nil. by destruct (decide (gn_type n = t)).
Qed.

(** The groups of more than one link. *)
Definition big_groups (groups : list (string * list LinkRow)) : nat :=
  length (filter (fun item => 1 < length (snd item)) groups).

Lemma big_groups_small (groups : list (string * list LinkRow)) :
  2 * big_groups groups <= length (concat (map snd groups)).
Proof.
  unfold big_groups. induction groups as [|[p members] rest IH]; [done|].
  rewrite filter_cons. cbn [map snd concat]. rewrite length_app.
  destruct (decide (1 < length members)) as [Hbig|_]; cbn [length]; lia.
Qed.

Section SizeProps.
Variable urlparse : string -> ParseResult.
Variable upper : string -> string.
Variable job_url : string.

(** A state with [g] group nodes, [i] nodes of internal links and the
    nodes of the hosts of [x] external links. *)
Record Sized (g i x : nat) (st : State) : Prop := {
  sz_root : count_nodes root_node (nodes st) = 1;
  sz_groups : count_nodes element_group (nodes st) = g;
  sz_internal : count_nodes internal_node (nodes st) = i;
  sz_external : count_nodes external_node (nodes st) <= x;
  sz_nodes :
    length (nodes st)
    = 1 + g + i + count_nodes external_node (nodes st);
  sz_edges : length (edges st) = g + i + x;
  sz_counter : S (node_id_counter st) = length (nodes st)
}.

Lemma Sized_initial : Sized 0 0 0 (initial urlparse job_url).
Proof. by split. Qed.

Ltac sized_snoc H :=
  destruct H as [Hr Hg Hi Hx Hn He Hc];
  split; cbn [nodes edges node_id_counter];
  rewrite ?count_nodes_snoc, ?length_app; cbn [gn_type length];
  repeat match goal with
         | |- context [decide (?a = ?b)] => destruct (decide (a = b))
         end; try done; lia.

Lemma Sized_element_step g st item :
  Sized g 0 0 st ->
  Sized (g + (if (1 <? length (snd item))%nat then 1 else 0)) 0 0
        (element_step urlparse upper job_url st item).
Proof.
  intros H. destruct item as [p members]. unfold element_step. cbn [snd].
  destruct (1 <? length members)%nat.
  - sized_snoc H.
  - by rewrite Nat.add_0_r.
Qed.

Lemma Sized_internal_step g i p size st link :
  Sized g i 0 st -> Sized g (S i) 0 (internal_step urlparse p size st link).
Proof. intros H. unfold internal_step. sized_snoc H. Qed.

Lemma Sized_external_step g i x st link :
  Sized g i x st -> Sized g i (S x) (external_step urlparse st link).
Proof.
  intros H.
  destruct (external_domains st !! netloc (urlparse (lr_url link)))
    as [entry|] eqn:E.
  - rewrite (external_step_old urlparse st link entry E). sized_snoc H.
  - rewrite (external_step_new urlparse st link E). cbv zeta. sized_snoc H.
Qed.

Lemma Sized_elements g groups st :
  Sized g 0 0 st ->
  Sized (g + big_groups groups) 0 0
        (fold_left (element_step urlparse upper job_url) groups st).
Proof.
  revert g st. induction groups as [|item rest IH]; intros g st H.
  { cbn. by rewrite Nat.add_0_r. }
  cbn [fold_left]. apply Sized_element_step with (item := item) in H.
  apply IH in H. unfold big_groups in *. rewrite filter_cons.
  destruct item as [p members]. cbn [snd] in *.
  destruct (Nat.ltb_spec 1 (length members)) as [Hbig|Hsmall].
  - rewrite decide_True by done. cbn [length].
    by replace (g + S (length (filter _ rest)))
      with (g + 1 + length (filter (fun item => 1 < length (snd item)) rest))
      by lia.
  - rewrite decide_False by lia. by rewrite Nat.add_0_r in H.
Qed.

Lemma Sized_internal_links g i p size ls st :
  Sized g i 0 st ->
  Sized g (i + length ls) 0
        (fold_left (internal_step urlparse p size) ls st).
Proof.
  revert i st. induction ls as [|l ls IH]; intros i st H.
  { cbn. by rewrite Nat.add_0_r. }
  cbn [fold_left length].
  apply (Sized_internal_step g i p size st l) in H. apply IH in H.
  by replace (i + S (length ls)) with (S i + length ls) by lia.
Qed.

Lemma Sized_internal_groups g i groups st :
  Sized g i 0 st ->
  Sized g (i + length (concat (map snd groups))) 0
        (fold_left (internal_group_step urlparse) groups st).
Proof.
  revert i st. induction groups as [|[p members] rest IH]; intros i st H.
  { cbn. by rewrite Nat.add_0_r. }
  cbn [fold_left map snd concat]. unfold internal_group_step at 2.
  apply (Sized_internal_links g i p (length members) members) in H.
  apply IH in H. rewrite length_app.
  by replace (i + (length members + length (concat (map snd rest))))
    with (i + length members + length (concat (map snd rest))) by lia.
Qed.

Lemma Sized_external_links g i x ls st :
  Sized g i x st ->
  Sized g i (x + length ls) (fold_left (external_step urlparse) ls st).
Proof.
  revert x st. induction ls as [|l ls IH]; intros x st H.
  { cbn. by rewrite Nat.add_0_r. }
  cbn [fold_left length].
  apply (Sized_external_step g i x st l) in H. apply IH in H.
  by replace (x + S (length ls)) with (S x + length ls) by lia.
Qed.

Lemma Sized_final links :
  Sized (big_groups (group_links (internal_links links)))
        (length (internal_links links))
        (length (external_links links))
        (final_state urlparse upper job_url links).
Proof.
  unfold final_state, after_internal, after_elements.
  pose proof (Sized_elements 0 (group_links (internal_links links)) _
                Sized_initial) as H.
  apply (Sized_internal_groups _ 0 (group_links (internal_links links)))
    in H.
  destruct (group_links_spec (internal_links links)) as (_ & _ & Hperm).
  rewrite (Permutation_length Hperm) in H.
  apply (Sized_external_links _ _ 0 (external_links links)) in H.
  exact H.
Qed.

(** X15.  The statistics of the answer count what the view looked at:
    [internal] is the number of internal links, 50 at most; [external]
    is at most the number of external links, 30 at most; the group nodes
    are the paths with more than one internal link, so at most half the
    internal links; [total_nodes] is the root and these three kinds of
    node, 106 at most; [total_edges] is one edge for each group node, one
    for each internal link and one for each external link, 105 at most.
    The ids given out are as many as the nodes besides the root. *)
Theorem graph_size (links : list LinkRow) :
  let g := api_graph_data urlparse upper job_url links in
  let stats := gd_stats g in
  let groups :=
    big_groups (group_links (internal_links links)) in
  st_internal stats = length (internal_links links)
  /\ st_internal stats
     = Nat.min 50 (length (filter (fun l => lr_link_type l = internal) links))
  /\ st_external stats <= length (external_links links) <= 30
  /\ count_nodes element_group (gd_nodes g) = groups
  /\ 2 * groups <= st_internal stats
  /\ count_nodes root_node (gd_nodes g) = 1
  /\ st_total_nodes stats
     = 1 + groups + st_internal stats + st_external stats
  /\ st_total_nodes stats <= 106
  /\ st_total_edges stats
     = groups + st_internal stats + length (external_links links)
  /\ st_total_edges stats <= 105
  /\ S (node_id_counter (final_state urlparse upper job_url links))
     = st_total_nodes stats.
Proof.
  cbv zeta.
  cbn [api_graph_data gd_stats gd_nodes stats_of st_internal st_external
       st_total_nodes st_total_edges].
  destruct (Sized_final links) as [Hr Hg Hi Hx Hn He Hc].
  pose proof (big_groups_small (group_links (internal_links links))) as Hb.
  destruct (group_links_spec (internal_links links)) as (_ & _ & Hperm).
  rewrite (Permutation_length Hperm) in Hb.
  assert (length (internal_links links)
          = Nat.min 50 (length (filter (fun l => lr_link_type l = internal)
                                       links))) as Hi50
    by (unfold internal_links; apply length_take).
  assert (length (external_links links) <= 30) as Hx30
    by (unfold external_links; rewrite length_take; lia).
  repeat split; try done; lia.
Qed.

End SizeProps.
End GraphSizeProps.

(** ** The task *)

Module TasksProps.
Import Models Tasks.

Section TaskProps.
Context {Net Json Details Time : Type}.
Variable crawler_crawl :
  string -> Net -> CrawlAttempt Json Details * Net.
Variable page_info_refused : PageInfo Json Details -> option string.
Variable link_refused : CheckedLink -> option string.
Variable integrity_error : string.
Variable type_error : string.

Local Abbreviation Db := (Db Json Details Time).
Local Abbreviation create_links := (create_links (Time := Time) link_refused).
Local Abbreviation try_body :=
  (try_body page_info_refused link_refused integrity_error type_error).
Local Abbreviation crawl_url :=
  (crawl_url crawler_crawl page_info_refused link_refused integrity_error
             type_error).

(** The rows of [links] for the job [id]. *)
Definition rows (id : nat) (links : list CheckedLink)
  : list (nat * CheckedLink) :=
  map (pair id) links.

(** What the loop over the links leaves: the rows of the links before the
    first one refused, all of them when none is. *)
Lemma create_links_spec (db : Db) (id : nat) (links : list CheckedLink) :
  let '(db', raised) := create_links db id links in
  db_jobs db' = db_jobs db
  /\ db_page_infos db' = db_page_infos db
  /\ match raised with
     | None =>
         db_links db' = db_links db ++ rows id links
         /\ Forall (fun l => link_refused l = None) links
     | Some message =>
         exists created bad rest,
           links = created ++ bad :: rest
           /\ link_refused bad = Some message
           /\ Forall (fun l => link_refused l = None) created
           /\ db_links db' = db_links db ++ rows id created
     end.
Proof.
  revert db. induction links as [|l links IH]; intros db; cbn.
  { split; [done|]. split; [done|]. split; [by rewrite app_nil_r|].
    apply List.Forall_nil. }
  unfold create_link. destruct (link_refused l) as [message|] eqn:El.
  { split; [done|]. split; [done|].
    exists [], l, links. split; [done|]. split; [done|].
    split; [apply List.Forall_nil|]. by rewrite app_nil_r. }
  specialize (IH {| db_jobs := db_jobs db;
                    db_page_infos := db_page_infos db;
                    db_links := db_links db ++ [(id, l)] |}).
  destruct (Tasks.create_links _ _ _ _) as [db' raised].
  cbn in IH. destruct IH as (Hj & Hp & H).
  split; [done|]. split; [done|].
  destruct raised as [message|].
  - destruct H as (created & bad & rest & -> & Hbad & Hcreated & Hl).
    exists (l :: created), bad, rest. split; [done|]. split; [done|].
    split; [by apply List.Forall_cons|].
    rewrite Hl, <- app_assoc. done.
  - destruct H as [Hl Hall]. split; [|by apply List.Forall_cons].
    rewrite Hl, <- app_assoc. done.
Qed.

(** The crawl went through and the database took every row. *)
Definition goes_through (db : Db) (id : nat)
    (attempt : CrawlAttempt Json Details)
    (result : CrawlResult Json Details)
    (page_info : PageInfo Json Details) : Prop :=
  attempt = CrawlReturned result
  /\ cr_success result = true
  /\ cr_page_info result = Some page_info
  /\ page_info_refused page_info = None
  /\ (id ∉ map fst (db_page_infos db))
  /\ Forall (fun l => link_refused l = None) (cr_links result).

(** The three ways a run on an existing job ends. *)
Lemma crawl_url_cases (db : Db) (id : nat) (net : Net)
    (started finished : Time) (job : CrawlJob Time) :
  db_jobs db !! id = Some job ->
  let attempt := (crawler_crawl (cj_url job) net).1 in
  let marked := mark_as_running started job in
  exists final new_infos new_links,
    crawl_url db id net started finished
    = ({| db_jobs := <[id := final]> (db_jobs db);
          db_page_infos := db_page_infos db ++ new_infos;
          db_links := db_links db ++ rows id new_links |},
       (crawler_crawl (cj_url job) net).2, TaskReturned)
    /\ ((exists result page_info,
           goes_through db id attempt result page_info
           /\ new_infos = [(id, page_info)]
           /\ new_links = cr_links result
           /\ final
              = {| cj_url := cj_url job; cj_status := completed;
                   cj_started_at := Some started;
                   cj_completed_at := Some finished;
                   cj_error_message := cj_error_message job;
                   cj_total_links := cr_total_links result;
                   cj_internal_links := cr_internal_links result;
                   cj_external_links := cr_external_links result |})
        \/ (exists message,
              (forall result page_info,
                 ~ goes_through db id attempt result page_info)
              /\ final = mark_as_failed finished message marked
              /\ (new_infos = []
                  \/ exists page_info, new_infos = [(id, page_info)])
              /\ (id ∈ map fst (db_page_infos db) ->
                  new_infos = [] /\ new_links = [])
              /\ (forall result,
                    attempt = CrawlReturned result ->
                    cr_success result = false ->
                    message = str_of_error (cr_error result)
                    /\ new_infos = [] /\ new_links = [])
              /\ (forall text,
                    attempt = CrawlRaised text ->
                    message = text /\ new_infos = [] /\ new_links = []))).
Proof.
  intros Hjob. cbv zeta. unfold Tasks.crawl_url. rewrite Hjob.
  cbn [cj_url mark_as_running].
  destruct (crawler_crawl (cj_url job) net) as [attempt net1]. cbn [fst snd].
  unfold Tasks.try_body, goes_through.
  assert (forall final : CrawlJob Time,
            <[id := final]> (db_jobs (save db id (mark_as_running started job)))
            = <[id := final]> (db_jobs db)) as Hins
    by (intros; cbn; apply insert_insert_eq).
  destruct attempt as [result|text].
  2: { eexists _, [], []. split.
       { unfold save. cbn [db_jobs db_page_infos db_links].
         rewrite insert_insert_eq, !app_nil_r. reflexivity. }
       right. exists text. split; [by intros ? ? [? _]|].
       split; [done|]. split; [by left|]. split; [done|].
       split; [done|]. by intros ? [= ->]. }
  destruct (cr_success result) eqn:Hs.
  2: { eexists _, [], []. split.
       { unfold save. cbn [db_jobs db_page_infos db_links].
         rewrite insert_insert_eq, !app_nil_r. reflexivity. }
       right. exists (str_of_error (cr_error result)).
       split; [intros ? ? ([= <-] & ? & _); congruence|].
       split; [done|]. split; [by left|]. split; [done|].
       split; [by intros ? [= <-]|]. done. }
  destruct (cr_page_info result) as [page_info|] eqn:Hp.
  2: { eexists _, [], []. split.
       { unfold save. cbn [db_jobs db_page_infos db_links].
         rewrite !insert_insert_eq, !app_nil_r. reflexivity. }
       right. exists type_error.
       split; [intros ? ? ([= <-] & ? & ? & _); congruence|].
       split; [done|]. split; [by left|]. split; [done|].
       split; [intros ? [= <-]; congruence|]. done. }
  unfold create_page_info.
  destruct (page_info_refused page_info) as [message|] eqn:Hr.
  { eexists _, [], []. split.
    { unfold save. cbn [db_jobs db_page_infos db_links].
      rewrite !insert_insert_eq, !app_nil_r. reflexivity. }
    right. exists message.
    split; [intros ? ? ([= <-] & ? & ? & ? & _); congruence|].
    split; [done|]. split; [by left|]. split; [done|].
    split; [intros ? [= <-]; congruence|]. done. }
  cbn [save db_page_infos].
  destruct (bool_decide_reflect (id ∈ map fst (db_page_infos db)))
    as [Hin|Hnotin].
  { eexists _, [], []. split.
    { unfold save. cbn [db_jobs db_page_infos db_links].
      rewrite !insert_insert_eq, !app_nil_r. reflexivity. }
    right. exists integrity_error.
    split; [intros ? ? ([= <-] & ? & ? & ? & ? & _); congruence|].
    split; [done|]. split; [by left|]. split; [done|].
    split; [intros ? [= <-]; congruence|]. done. }
  match goal with
  | |- context [Tasks.create_links _ ?d id (cr_links result)] =>
      pose proof (create_links_spec d id (cr_links result)) as Hl;
      destruct (Tasks.create_links link_refused d id (cr_links result))
        as [db2 raised]
  end.
  cbn [db_jobs db_page_infos db_links] in Hl.
  destruct Hl as (Hj & Hpi & Hl). destruct db2 as [jobs2 infos2 links2].
  cbn [db_jobs db_page_infos db_links] in *. subst jobs2 infos2.
  destruct raised as [message|].
  - destruct Hl as (created & bad & rest & Hlinks & Hbad & Hcreated & ->).
    eexists _, [(id, page_info)], created. split.
    { unfold save. cbn [db_jobs db_page_infos db_links].
      rewrite !insert_insert_eq. reflexivity. }
    right. exists message. split.
    { intros ? ? ([= <-] & _ & _ & _ & _ & Hall).
      rewrite Hlinks in Hall. apply Forall_app in Hall as [_ Hall].
      apply Forall_cons in Hall as [Hall _]. congruence. }
    split; [done|]. split; [right; by eexists|]. split; [done|].
    split; [intros ? [= <-]; congruence|]. done.
  - destruct Hl as [-> Hall].
    eexists _, [(id, page_info)], (cr_links result). split.
    { unfold save. cbn [db_jobs db_page_infos db_links].
      rewrite !insert_insert_eq. reflexivity. }
    left. exists result, page_info. done.
Qed.

(** X16.  A run of the task on a job that does not exist raises, out
    of its own handler, and changes nothing.  A run on a job that exists
    returns, and leaves that job completed or failed, never pending or
    running, with the url it had, started at the first reading of the
    clock and completed at the second.  A failed job has an error message
    and the link counts it had before; a completed job keeps the error
    message it had before.  No other job is touched, and the two other
    tables only grow, by rows of this job: one page info at most, and
    links. *)
Theorem crawl_url_outcome (db : Db) (id : nat) (net : Net)
    (started finished : Time) :
  let '(db', net', outcome) := crawl_url db id net started finished in
  match db_jobs db !! id with
  | None => outcome = TaskRaised /\ db' = db /\ net' = net
  | Some job =>
      outcome = TaskReturned
      /\ net' = (crawler_crawl (cj_url job) net).2
      /\ (forall other, other <> id ->
            db_jobs db' !! other = db_jobs db !! other)
      /\ (exists new_infos new_links,
            db_page_infos db' = db_page_infos db ++ new_infos
            /\ db_links db' = db_links db ++ rows id new_links
            /\ (new_infos = []
                \/ exists page_info, new_infos = [(id, page_info)]))
      /\ exists job',
           db_jobs db' !! id = Some job'
           /\ cj_url job' = cj_url job
           /\ cj_started_at job' = Some started
           /\ cj_completed_at job' = Some finished
           /\ (cj_status job' = completed \/ cj_status job' = failed)
           /\ (cj_status job' = failed ->
               is_Some (cj_error_message job')
               /\ cj_total_links job' = cj_total_links job
               /\ cj_internal_links job' = cj_internal_links job
               /\ cj_external_links job' = cj_external_links job)
           /\ (cj_status job' = completed ->
               cj_error_message job' = cj_error_message job)
  end.
Proof.
  destruct (db_jobs db !! id) as [job|] eqn:Hjob.
  2: { unfold Tasks.crawl_url. by rewrite Hjob. }
  destruct (crawl_url_cases db id net started finished job Hjob)
    as (final & new_infos & new_links & -> & Hcases).
  cbn [db_jobs db_page_infos db_links].
  split; [done|]. split; [done|].
  split; [intros other Hne; by rewrite lookup_insert_ne|].
  split.
  { exists new_infos, new_links. split; [done|]. split; [done|].
    destruct Hcases as [(result & page_info & _ & -> & _)
                       |(message & _ & _ & Hinfos & _)];
      [right; by eexists|done]. }
  exists final. rewrite lookup_insert_eq. split; [done|].
  destruct Hcases as [(result & page_info & _ & _ & _ & ->)
                     |(message & _ & -> & _)]; cbn.
  - repeat split; first [done|by left].
  - repeat split; first [done|by right|by eexists].
Qed.

(** X17.  A run on a job that exists leaves it completed exactly when the
    crawl returned a success with a page info, the database refused
    neither the page info nor any of the links, and the job had no page
    info yet.  Then the page info of the crawl is the one row added for
    the job, the links of the crawl are the link rows added, in their
    order, and the three counts of the job are those of the crawl.  When
    the crawl reports a failure, or raises, the job fails with the error
    of the crawl as its message and no row is added. *)
Theorem crawl_url_completed (db : Db) (id : nat) (net : Net)
    (started finished : Time) :
  let '(db', _, _) := crawl_url db id net started finished in
  match db_jobs db !! id, db_jobs db' !! id with
  | Some job, Some job' =>
      let attempt := (crawler_crawl (cj_url job) net).1 in
      (cj_status job' = completed <->
       exists result page_info, goes_through db id attempt result page_info)
      /\ (forall result page_info,
            goes_through db id attempt result page_info ->
            db_page_infos db' = db_page_infos db ++ [(id, page_info)]
            /\ db_links db' = db_links db ++ rows id (cr_links result)
            /\ cj_total_links job' = cr_total_links result
            /\ cj_internal_links job' = cr_internal_links result
            /\ cj_external_links job' = cr_external_links result)
      /\ (forall result,
            attempt = CrawlReturned result -> cr_success result = false ->
            cj_status job' = failed
            /\ cj_error_message job' = Some (str_of_error (cr_error result))
            /\ db_page_infos db' = db_page_infos db
            /\ db_links db' = db_links db)
      /\ (forall text,
            attempt = CrawlRaised text ->
            cj_status job' = failed
            /\ cj_error_message job' = Some text
            /\ db_page_infos db' = db_page_infos db
            /\ db_links db' = db_links db)
  | _, _ => True
  end.
Proof.
  destruct (db_jobs db !! id) as [job|] eqn:Hjob.
  2: { by destruct (crawl_url db id net started finished) as [[? ?] ?]. }
  destruct (crawl_url_cases db id net started finished job Hjob)
    as (final & new_infos & new_links & -> & Hcases).
  cbn [db_jobs db_page_infos db_links]. rewrite lookup_insert_eq. cbv zeta.
  destruct Hcases as [(result & page_info & Hgo & -> & -> & ->)
                     |(message & Hno & -> & _ & _ & Hfail & Hraise)].
  - cbn. split; [split; [intros _; by eexists _, _|done]|].
    split.
    { intros result' page_info' Hgo'.
      destruct Hgo as (Ha & _ & Hp & _), Hgo' as (Ha' & _ & Hp' & _).
      rewrite Ha in Ha'. injection Ha' as <-.
      rewrite Hp in Hp'. by injection Hp' as <-. }
    destruct Hgo as (Ha & Hs & _).
    split.
    + intros result' Ha' Hs'. rewrite Ha in Ha'. injection Ha' as <-.
      congruence.
    + intros text Ha'. rewrite Ha in Ha'. done.
  - cbn. split.
    { split; [done|]. intros (result & page_info & Hgo).
      by destruct (Hno result page_info). }
    split; [intros result page_info Hgo; by destruct (Hno result page_info)|].
    split.
    + intros result Ha Hs. destruct (Hfail result Ha Hs) as (-> & -> & ->).
      by rewrite !app_nil_r.
    + intros text Ha. destruct (Hraise text Ha) as (-> & -> & ->).
      by rewrite !app_nil_r.
Qed.

(** X18.  A job that has its page info cannot complete again: a second
    run on it, whatever the crawl finds, leaves it failed, with an error
    message, and adds no row. *)
Theorem crawl_url_again (db : Db) (id : nat) (net : Net)
    (started finished : Time) (job : CrawlJob Time) :
  db_jobs db !! id = Some job ->
  id ∈ map fst (db_page_infos db) ->
  let '(db', _, outcome) := crawl_url db id net started finished in
  outcome = TaskReturned
  /\ db_page_infos db' = db_page_infos db
  /\ db_links db' = db_links db
  /\ exists job',
       db_jobs db' !! id = Some job'
       /\ cj_status job' = failed
       /\ is_Some (cj_error_message job').
Proof.
  intros Hjob Hin.
  destruct (crawl_url_cases db id net started finished job Hjob)
    as (final & new_infos & new_links & -> & Hcases).
  cbn [db_jobs db_page_infos db_links]. rewrite lookup_insert_eq.
  destruct Hcases as [(result & page_info & Hgo & _)
                     |(message & _ & -> & _ & Hsame & _)].
  - by destruct Hgo as (_ & _ & _ & _ & Hnotin & _).
  - destruct (Hsame Hin) as [-> ->]. rewrite !app_nil_r.
    split; [done|]. split; [done|]. split; [done|].
    eexists. split; [done|]. split; [done|]. by eexists.
Qed.

End TaskProps.
(** A job that completed once, and a crawl that succeeds again. *)
Definition sample_page_info : PageInfo unit unit :=
  {| pi_status_code := 200; pi_title := "Example";
     pi_meta_description := ""; pi_content_type := "text/html";
     pi_response_time := 1 # 4; pi_page_size := 1256;
     pi_html_structure := None; pi_schema_markup := [];
     pi_lighthouse_score :=
       {| Audit.lh_overall := 0; Audit.lh_performance := 0;
          Audit.lh_accessibility := 0; Audit.lh_best_practices := 0;
          Audit.lh_seo := 0; Audit.lh_details := None |} |}.

Definition sample_job : CrawlJob nat :=
  {| cj_url := "https://example.org/"; cj_status := completed;
     cj_started_at := Some 1; cj_completed_at := Some 2;
     cj_error_message := None; cj_total_links := 0;
     cj_internal_links := 0; cj_external_links := 0 |}.

Definition sample_db : Models.Db unit unit nat :=
  {| db_jobs := {[ 7 := sample_job ]};
     db_page_infos := [(7, sample_page_info)];
     db_links := [] |}.

Definition sample_crawler (url : string) (net : unit)
  : CrawlAttempt unit unit * unit :=
  (CrawlReturned
     {| cr_success := true; cr_error := None;
        cr_page_info := Some sample_page_info; cr_links := [];
        cr_total_links := 0; cr_internal_links := 0;
        cr_external_links := 0 |}, net).

Lemma crawl_url_again_witness :
  db_jobs sample_db !! 7 = Some sample_job
  /\ 7 ∈ map fst (db_page_infos sample_db)
  /\ let '(db', _, outcome) :=
       Tasks.crawl_url sample_crawler (fun _ => None) (fun _ => None)
                       "IntegrityError" "TypeError" sample_db 7 tt 3 4 in
     outcome = TaskReturned
     /\ db_page_infos db' = db_page_infos sample_db
     /\ db_links db' = db_links sample_db
     /\ exists job',
          db_jobs db' !! 7 = Some job'
          /\ cj_status job' = failed
          /\ is_Some (cj_error_message job').
Proof.
  split; [reflexivity|].
  split; [simpl; apply list_elem_of_here|].
  apply (crawl_url_again sample_crawler (fun _ => None) (fun _ => None)
           "IntegrityError" "TypeError" sample_db 7 tt 3 4 sample_job).
  - reflexivity.
  - simpl. apply list_elem_of_here.
Defined.

Lemma count_type_links (t : LinkType) (checked : list CheckedLink) :
  Crawler.count_type t checked
  = length (filter (fun l => el_link_type l = t) (map cl_link checked)).
Proof.
  unfold Crawler.count_type.
  induction checked as [|c checked IH]; [done|].
  cbn [map]. rewrite !filter_cons.
  destruct (decide (el_link_type (cl_link c) = t)); cbn [length]; lia.
Qed.

Section WithCrawler.
Context {Net Json Details Time : Type}.
Variable session_get : Net -> string -> Z -> FetchOutcome * Net.
Variable session_head : Net -> string -> ProbeOutcome * Net.
Variable BeautifulSoup : string -> Node.
Variable get_text_strip : Node -> string.
Variable urljoin : string -> string -> string.
Variable netloc : string -> string.
Variable round2 : Q -> Q.
Variable _extract_schema_markup : Node -> list Json.
Variable _analyze_best_practices : Node -> Response -> option Z.
Variable _analyze_seo : Node -> option Z.
Variable details_of : Node -> Response -> Q -> option Details.
Variable page_info_refused : PageInfo Json Details -> option string.
Variable link_refused : CheckedLink -> option string.
Variable integrity_error : string.
Variable type_error : string.

(** [SmartCrawler(crawl_job.url).crawl()], with the timeout of 10 seconds
    the constructor sets. *)
Definition crawler (url : string) (net : Net)
  : CrawlAttempt Json Details * Net :=
  let '(result, net', _) :=
    Crawler.crawl session_get session_head BeautifulSoup get_text_strip
                  urljoin netloc round2 _extract_schema_markup
                  _analyze_best_practices _analyze_seo details_of
                  url 10 net in
  (CrawlReturned result, net').

(** X19.  The task with the crawler in place, on a job that exists.  When
    the request for the page fails, the job fails with the message of the
    exception and no row is added.  When the job completes, its link rows
    are the links found on the page, in their order; [total_links] is
    their number, [internal_links] and [external_links] the numbers of
    those of either type, which add up to the total; and the status code
    and the size stored with the page are those of the response. *)
Theorem crawl_url_stores_the_crawl (db : Models.Db Json Details Time)
    (id : nat) (net : Net) (started finished : Time) :
  let '(db', _, _) :=
    Tasks.crawl_url crawler page_info_refused link_refused integrity_error
                    type_error db id net started finished in
  match db_jobs db !! id, db_jobs db' !! id with
  | Some job, Some job' =>
      match session_get net (cj_url job) 10 with
      | (FetchRequestException message, _) =>
          cj_status job' = failed
          /\ cj_error_message job' = Some message
          /\ db_page_infos db' = db_page_infos db
          /\ db_links db' = db_links db
      | (FetchResponse response response_time, _) =>
          let links :=
            Links._extract_links urljoin netloc get_text_strip (cj_url job)
              (BeautifulSoup (resp_content response)) in
          cj_status job' = completed ->
          (exists new_links,
             db_links db' = db_links db ++ rows id new_links
             /\ map cl_link new_links = links)
          /\ cj_total_links job' = length links
          /\ cj_internal_links job'
             = length (filter (fun l => el_link_type l = internal) links)
          /\ cj_external_links job'
             = length (filter (fun l => el_link_type l = external) links)
          /\ cj_internal_links job' + cj_external_links job'
             = cj_total_links job'
          /\ exists page_info,
               db_page_infos db' = db_page_infos db ++ [(id, page_info)]
               /\ pi_status_code page_info = resp_status_code response
               /\ pi_page_size page_info
                  = String.length (resp_content response)
      end
  | _, _ => True
  end.
Proof.
  destruct (db_jobs db !! id) as [job|] eqn:Hjob.
  2: { by destruct (Tasks.crawl_url _ _ _ _ _ _ _ _ _ _) as [[? ?] ?]. }
  destruct (crawl_url_cases crawler page_info_refused link_refused
              integrity_error type_error db id net started finished job Hjob)
    as (final & new_infos & new_links & -> & Hcases).
  cbn [db_jobs db_page_infos db_links]. rewrite lookup_insert_eq.
  revert Hcases. unfold goes_through, crawler, Crawler.crawl.
  destruct (session_get net (cj_url job) 10)
    as [[response response_time|message] net1].
  - pose proof (LinksMore.check_link_status_links_trace session_head net1
                  (Links._extract_links urljoin netloc get_text_strip
                     (cj_url job) (BeautifulSoup (resp_content response)))
                  50) as Hcheck.
    destruct (LinkStatus._check_link_status session_head net1 _ 50)
      as [[checked net2] trace].
    destruct Hcheck as (Hlinks & _). cbn [fst snd] in Hlinks |- *.
    intros [(result & page_info & Hgo & -> & -> & ->)
           |(message & _ & -> & _)]; [|done].
    destruct Hgo as ([= <-] & _ & [= <-] & _). cbn.
    intros _. split; [by exists checked|].
    rewrite !count_type_links, Hlinks, <- Hlinks, length_map.
    split; [done|]. split; [by rewrite Hlinks|].
    split; [by rewrite Hlinks|].
    split; [|by eexists].
    rewrite <- !count_type_links. apply CrawlerMore.count_types.
  - cbn [fst snd].
    intros [(result & page_info & Hgo & _)|(text & _ & -> & _ & _ & Hfail & _)].
    + by destruct Hgo as ([= <-] & Hs & _).
    + destruct (Hfail _ eq_refl eq_refl) as (-> & -> & ->).
      cbn. by rewrite !app_nil_r.
Qed.

End WithCrawler.
End TasksProps.

Module GraphInternalProps.
Import Graph GraphProps GroupsProps GraphNodesProps GraphEdgesProps
       GraphSizeProps.



Section InternalProps.
Variable urlparse : string -> ParseResult.
Variable upper : string -> string.
Variable job_url : string.

(** The node [n] is the node of the link [l], found under [p] with
    [size - 1] others, and an edge of [es] ties it to the group node of
    [p] among [ns], or to the root when the link is alone under [p]. *)
Definition node_of_link (ns : list GraphNode) (es : list GraphEdge)
    (n : GraphNode) (x : string * nat * LinkRow) : Prop :=
  let '(p, size, l) := x in
  gn_type n = internal_node
  /\ gn_url n = lr_url l
  /\ gn_parent_element n = Some p
  /\ gn_status_code n = Some (lr_status_code l)
  /\ gn_is_broken n = Some (lr_is_broken l)
  /\ gn_anchor_text n = Some (String.substring 0 30 (lr_anchor_text l))
  /\ gn_domain n = netloc (urlparse (lr_url l))
  /\ exists e,
       e ∈ es /\ ge_to e = gn_id n /\ ge_path e = gn_path n
       /\ if (1 <? size)%nat
          then exists s, s ∈ ns /\ gn_type s = element_group
                         /\ gn_parent_element s = Some p
                         /\ gn_id s = ge_from e
          else ge_from e = "root".

Definition internal_nodes (ns : list GraphNode) : list GraphNode :=
  filter (fun n => gn_type n = internal_node) ns.

Definition Att (processed : list (string * nat * LinkRow)) (st : State)
  : Prop :=
  Forall2 (node_of_link (nodes st) (edges st)) (internal_nodes (nodes st))
          processed.

Lemma node_of_link_mono ns es ns' es' n x :
  (forall m, m ∈ ns -> m ∈ ns') -> (forall e, e ∈ es -> e ∈ es') ->
  node_of_link ns es n x -> node_of_link ns' es' n x.
Proof.
  intros Hns Hes. destruct x as [[p size] l]. unfold node_of_link.
  intros (? & ? & ? & ? & ? & ? & ? & e & He & Hto & Hpath & Hfrom).
  repeat (split; [done|]). exists e. split; [by apply Hes|].
  split; [done|]. split; [done|].
  destruct (1 <? size)%nat; [|done].
  destruct Hfrom as (s & Hs & Hrest). exists s. split; [by apply Hns|done].
Qed.

(** A step that adds no internal node, and only adds. *)
Lemma Att_grow processed st st' :
  Att processed st ->
  internal_nodes (nodes st') = internal_nodes (nodes st) ->
  (forall m, m ∈ nodes st -> m ∈ nodes st') ->
  (forall e, e ∈ edges st -> e ∈ edges st') ->
  Att processed st'.
Proof.
  unfold Att. intros H Hsame Hns Hes. rewrite Hsame.
  eapply Forall2_impl; [exact H|].
  intros n x. by apply node_of_link_mono.
Qed.

Lemma internal_nodes_snoc ns n :
  internal_nodes (ns ++ [n])
  = internal_nodes ns
    ++ (if decide (gn_type n = internal_node) then [n] else []).
Proof.
  unfold internal_nodes. rewrite filter_app, filter_cons, filter_nil.
  by destruct (decide _).
Qed.

Lemma Att_element_step processed st item :
  Att processed st ->
  Att processed (element_step urlparse upper job_url st item).
Proof.
  intros H. destruct item as [p members]. unfold element_step.
  destruct (1 <? length members)%nat; [|done].
  apply (Att_grow processed st); [done| | |]; cbn [nodes edges].
  - rewrite internal_nodes_snoc. cbn [gn_type].
    rewrite decide_False by done. by rewrite app_nil_r.
  - intros m Hm. apply elem_of_app. by left.
  - intros e He. apply elem_of_app. by left.
Qed.









End InternalProps.
End GraphInternalProps.

Module GraphIdsProps.
Import Graph GraphProps GraphNodesProps.

(** The prefix of the id of a node of each kind. *)
Definition prefix_of (t : NodeType) : string :=
  match t with
  | root_node => "root"
  | element_group => "element_"
  | internal_node => "internal_"
  | external_node => "external_"
  end.

(** The ids of the nodes [rest] created after the root, by position. *)
Definition numbered (rest : list GraphNode) : list string :=
  imap (fun i n => node_id (prefix_of (gn_type n)) i) rest.

Section IdsProps.
Variable urlparse : string -> ParseResult.
Variable upper : string -> string.
Variable job_url : string.

Record Num (st : State) : Prop := {
  num_ids : map gn_id (nodes st) = "root" :: numbered (tail (nodes st));
  num_counter : S (node_id_counter st) = length (nodes st)
}.

Lemma Num_initial : Num (initial urlparse job_url).
Proof. by split. Qed.

Lemma Num_snoc st st' n :
  Num st ->
  nodes st' = nodes st ++ [n] ->
  node_id_counter st' = S (node_id_counter st) ->
  gn_id n = node_id (prefix_of (gn_type n)) (node_id_counter st) ->
  Num st'.
Proof.
  intros [Hids Hc] Hn Hc' Hid. split.
  - rewrite Hn. destruct (nodes st) as [|r rest]; [done|].
    cbn [app tail map] in *. injection Hids as Hr Hrest.
    rewrite Hr. f_equal. unfold numbered in *.
    rewrite map_app, imap_app, Hrest. f_equal. cbn.
    rewrite Nat.add_0_r, Hid. do 2 f_equal. cbn [length] in Hc. lia.
  - rewrite Hn, Hc', length_app, <- Hc. cbn. lia.
Qed.

Lemma Num_element_step st item :
  Num st -> Num (element_step urlparse upper job_url st item).
Proof.
  intros H. destruct item as [p members]. unfold element_step.
  destruct (1 <? length members)%nat; [|done].
  by eapply Num_snoc.
Qed.

Lemma Num_internal_step p size st link :
  Num st -> Num (internal_step urlparse p size st link).
Proof. intros H. unfold internal_step. by eapply Num_snoc. Qed.

Lemma Num_external_step st link :
  Num st -> Num (external_step urlparse st link).
Proof.
  intros H.
  destruct (external_domains st !! netloc (urlparse (lr_url link)))
    as [entry|] eqn:E.
  - rewrite (external_step_old urlparse st link entry E).
    destruct H as [Hids Hc]. by split.
  - rewrite (external_step_new urlparse st link E). by eapply Num_snoc.
Qed.

Lemma Num_final links : Num (final_state urlparse upper job_url links).
Proof.
  unfold final_state, after_internal, after_elements.
  apply (fold_left_preserves Num);
    [intros; by apply Num_external_step|].
  apply (fold_left_preserves Num).
  { intros st [p members] H. unfold internal_group_step.
    apply (fold_left_preserves Num);
      [intros; by apply Num_internal_step|done]. }
  apply (fold_left_preserves Num);
    [intros; by apply Num_element_step|].
  apply Num_initial.
Qed.

(** X21.  The ids of the answer are numbered in the order of the nodes:
    the first node has the id [root], and the node at position [i + 1]
    the id made of the prefix of its kind, [element_], [internal_] or
    [external_], and of the number [i], one counter serving the three
    kinds. *)
Theorem graph_ids_numbered (links : list LinkRow) :
  let g := api_graph_data urlparse upper job_url links in
  map gn_id (gd_nodes g)
  = "root" :: imap (fun i n => node_id (prefix_of (gn_type n)) i)
                   (tail (gd_nodes g)).
Proof. cbv zeta. apply (num_ids _ (Num_final links)). Qed.

End IdsProps.
End GraphIdsProps.

(** ** The page info and the audit *)

Module PageInfoProps.
Import Analysers.

Section TitleProps.
Variable get_text_strip : Node -> string.

(** X22.  The audit and the page info agree on what is missing: the
    audit takes the title for missing exactly when the title stored with
    the page is empty, and the meta description exactly when the stored
    description is empty. *)
Theorem missing_is_stored_empty (soup : Node) :
  (title_missing get_text_strip soup = true
   <-> Crawler._extract_title get_text_strip soup = "")
  /\ (meta_description_missing soup = true
      <-> Crawler._extract_meta_description soup = "").
Proof.
  unfold title_missing, meta_description_missing, Crawler._extract_title,
    Crawler._extract_meta_description.
  split.
  - destruct (Dom.find (Dom.has_name "title") soup) as [title|]; [|done].
    apply String.eqb_eq.
  - change (fun n => Dom.has_name "meta" n
                     && bool_decide (Dom.get n "name" = Some "description"))
      with (is_meta_named "description").
    destruct (Dom.find (is_meta_named "description") soup)
      as [meta_desc|]; [|done].
    unfold Dom.truthy_attr, Dom.get_or_empty.
    destruct (Dom.get meta_desc "content") as [v|]; cbn; [|done].
    destruct (String.eqb_spec v "") as [->|Hne]; cbn; [done|].
    split; [done|]. intros ->. done.
Qed.

End TitleProps.
End PageInfoProps.
